(** * mongodb-core, lib/topologies/server.js: the single-server topology

    A shallow embedding of [Server] and of its callback store [Callbacks].
    JavaScript closures are defunctionalised: every function value the
    source stores (event listeners, continuations, countdown closures) is a
    constructor, and an interpreter runs it.  The closure variables of the
    [Server] constructor are the fields of one record, threaded through a
    state monad whose computations may throw.  Everything the server does
    to the outside (events it emits, continuations it calls, plugin hooks,
    pool operations) is appended to one chronological trace. *)

From Stdlib Require Import String Ascii ZArith List Bool Arith Lia DecimalString Sorted.
Import ListNotations.
Local Open Scope Z_scope.
Local Open Scope string_scope.
Local Open Scope list_scope.

Set Implicit Arguments.

Infix "+++" := String.append (right associativity, at level 60).

(** ** JavaScript values read by the code *)

Inductive Value : Type :=
| VUndefined
| VNull
| VBool (b : bool)
| VNum (n : Z)
| VStr (s : string).

Definition truthy (v : Value) : bool :=
  match v with
  | VUndefined | VNull => false
  | VBool b => b
  | VNum n => negb (Z.eqb n 0)
  | VStr s => negb (String.eqb s "")
  end.

(** [a || b] *)
Definition js_or (a b : Value) : Value := if truthy a then a else b.

Definition typeof_number (v : Value) : bool :=
  match v with VNum _ => true | _ => false end.

Definition string_of_Z (n : Z) : string := NilZero.string_of_int (Z.to_int n).

(** [util.format('%s', v)] *)
Definition format_s (v : Value) : string :=
  match v with
  | VUndefined => "undefined"
  | VNull => "null"
  | VBool true => "true"
  | VBool false => "false"
  | VNum n => string_of_Z n
  | VStr s => s
  end.

(** [typeof v == 'boolean' ? v : d] *)
Definition boolean_or (v : Value) (d : bool) : bool :=
  match v with VBool b => b | _ => d end.

(** [n || d] on an optional number: absent and [0] are falsy. *)
Definition number_or (n : option Z) (d : Z) : Z :=
  match n with
  | Some z => if Z.eqb z 0 then d else z
  | None => d
  end.

(** ** Objects used as maps

    A plain object is the list of its own properties in the order in which
    [Object.keys] and [for (var name in o)] list them: first the names
    that are array indices, in ascending numeric order, then the other
    names in the order in which they were created.  Assigning to a name
    that exists keeps its position.  (The name [__proto__], which an
    assignment treats as the prototype accessor, is outside this model.) *)

Definition Obj (V : Type) : Type := list (string * V).

(** An array index is the canonical decimal form of an integer from [0] to
    [2^32 - 2]: ["9"] and ["10"] are, ["007"], ["-1"], ["1.5"] and
    ["4294967295"] are not. *)
Definition array_index (name : string) : option Z :=
  match NilZero.uint_of_string name with
  | Some d =>
      let n := Z.of_uint d in
      if String.eqb (string_of_Z n) name && Z.ltb n 4294967295 then Some n else None
  | None => None
  end.

(** [a] is listed before [b] whenever both are properties, whatever the
    order of their creation *)
Definition enumerated_before (a b : string) : bool :=
  match array_index a, array_index b with
  | Some i, Some j => Z.ltb i j
  | Some _, None => true
  | None, _ => false
  end.

Definition keys {V} (o : Obj V) : list string := map fst o.

Definition obj_has {V} (name : string) (o : Obj V) : bool :=
  existsb (String.eqb name) (keys o).

(** [o[name] = v] when [name] is a property of [o] *)
Fixpoint obj_replace {V} (name : string) (v : V) (o : Obj V) : Obj V :=
  match o with
  | [] => []
  | (k, w) :: o' =>
      if String.eqb name k then (k, v) :: o' else (k, w) :: obj_replace name v o'
  end.

(** [o[name] = v] when [name] is not yet a property of [o]: a new array
    index takes its numeric place, any other name goes last *)
Fixpoint obj_add {V} (name : string) (v : V) (o : Obj V) : Obj V :=
  match o with
  | [] => [(name, v)]
  | (k, w) :: o' =>
      if enumerated_before name k then (name, v) :: (k, w) :: o'
      else (k, w) :: obj_add name v o'
  end.

(** [o[name] = v] *)
Definition obj_set {V} (name : string) (v : V) (o : Obj V) : Obj V :=
  if obj_has name o then obj_replace name v o else obj_add name v o.

Fixpoint obj_get {V} (name : string) (o : Obj V) : option V :=
  match o with
  | [] => None
  | (k, w) :: o' => if String.eqb name k then Some w else obj_get name o'
  end.

(** ** EventEmitter (Node's [events] module)

    [_events] maps an event type to its listeners in registration order;
    the boolean tells a listener registered with [once].  A type whose
    last listener is removed is deleted from [_events]. *)

Section EventEmitter.
Variables K L : Type.
Variable key_eqb : K -> K -> bool.
Variable fn_eqb : L -> L -> bool.

Definition Events : Type := list (K * list (bool * L)).

Fixpoint listeners (type : K) (ev : Events) : list (bool * L) :=
  match ev with
  | [] => []
  | (k, ls) :: ev' => if key_eqb type k then ls else listeners type ev'
  end.

Fixpoint addListener (type : K) (l : bool * L) (ev : Events) : Events :=
  match ev with
  | [] => [(type, [l])]
  | (k, ls) :: ev' =>
      if key_eqb type k then (k, ls ++ [l]) :: ev'
      else (k, ls) :: addListener type l ev'
  end.

Definition on (type : K) (f : L) : Events -> Events :=
  addListener type (false, f).

Definition once (type : K) (f : L) : Events -> Events :=
  addListener type (true, f).

Definition same_listener (a b : bool * L) : bool :=
  Bool.eqb (fst a) (fst b) && fn_eqb (snd a) (snd b).

Fixpoint remove_first (l : bool * L) (ls : list (bool * L)) : list (bool * L) :=
  match ls with
  | [] => []
  | x :: ls' => if same_listener l x then ls' else x :: remove_first l ls'
  end.

Fixpoint removeListener (type : K) (l : bool * L) (ev : Events) : Events :=
  match ev with
  | [] => []
  | (k, ls) :: ev' =>
      if key_eqb type k then
        match remove_first l ls with
        | [] => ev'
        | ls' => (k, ls') :: ev'
        end
      else (k, ls) :: removeListener type l ev'
  end.

Fixpoint removeAllListeners (type : K) (ev : Events) : Events :=
  match ev with
  | [] => []
  | (k, ls) :: ev' =>
      if key_eqb type k then removeAllListeners type ev'
      else (k, ls) :: removeAllListeners type ev'
  end.

(** the keys a [for (var id in this._events)] loop visits *)
Definition eventNames (ev : Events) : list K := map fst ev.

(** every listener held, over all types *)
Definition allListeners (ev : Events) : list (bool * L) :=
  concat (map snd ev).
End EventEmitter.

(** ** Data of the server *)

(** Errors and error payloads.  [Original] is a value the pool hands over
    with a failure signal; the code only passes it on and renders it with
    [JSON.stringify]. *)
Record Cause : Type := { json : string }.

Inductive JSError : Type :=
| MongoError (message : string)
| Error_ (message : string)
| TypeError (message : string)
| Text (s : string)
| Original (c : Cause).

Definition JSON_stringify (c : Cause) : string := json c.

Inductive Connection : Type :=
| PoolConnection
| GivenConnection (c : nat).

(** The fields of a reply document that the server reads. *)
Record Document : Type := {
  minWireVersion : Value;
  me : Value
}.

Record Response : Type := {
  responseTo : Z;
  documents : list Document
}.

(** [new CommandResult(result.documents[0], connection)]; [result] is
    [None] when the reply holds no document ([undefined]). *)
Record CommandResult : Type := {
  result : option Document;
  connection : Connection
}.

(** What a continuation is called with: [callback(err)] or
    [callback(null, commandResult)]. *)
Inductive Reply : Type :=
| Failure (err : JSError)
| Success (r : CommandResult).

(** Continuations handed to [command]: one supplied by a caller, known by
    a tag, or the closure of [connectHandler]. *)
Inductive Continuation : Type :=
| K_caller (k : nat)
| K_ismaster.

(** Read-preference strategies: the hooks a strategy defines. *)
Inductive Op : Type :=
| op_connect | op_error | op_timeout | op_close
| op_startOperation | op_endOperation.

Definition Op_eqb (a b : Op) : bool :=
  match a, b with
  | op_connect, op_connect | op_error, op_error | op_timeout, op_timeout
  | op_close, op_close | op_startOperation, op_startOperation
  | op_endOperation, op_endOperation => true
  | _, _ => false
  end.

Record Strategy : Type := { hooks : list Op }.

(** [readPreferenceStrategies[name][op]] is truthy *)
Definition defines (s : Strategy) (op : Op) : bool := existsb (Op_eqb op) (hooks s).

(** Authentication providers are opaque plugins. *)
Record AuthProvider : Type := { provider : nat }.

(** [options.readPreference]: absent (or falsy), an instance of
    [ReadPreference] with the answer of its [slaveOk()], or some other
    truthy value. *)
Inductive ReadPreferenceArg : Type :=
| RP_absent
| RP_instance (slave_ok : bool)
| RP_foreign.

Record CommandOptions : Type := {
  readPreference : ReadPreferenceArg;
  given_connection : option Connection
}.

Definition no_options : CommandOptions :=
  {| readPreference := RP_absent; given_connection := None |}.

(** The write command document assembled by [executeWrite]. *)
Record WriteCommand : Type := {
  wc_type : string;
  wc_target : option string;
  wc_opsField : string;
  wc_ops : list nat;
  wc_ordered : Value;
  wc_writeConcern : Obj Value
}.

Inductive Command : Type :=
| Cmd_ismaster
| Cmd_document (d : nat)
| Cmd_write (w : WriteCommand).

Record Query : Type := {
  requestId : Z;
  q_ns : string;
  q_cmd : Command;
  q_slaveOk : bool
}.

(** Events of the pool and the signals that carry them. *)
Inductive PoolEvent : Type :=
| e_connect | e_message | e_error | e_close | e_timeout | e_parseError.

Definition PoolEvent_eqb (a b : PoolEvent) : bool :=
  match a, b with
  | e_connect, e_connect | e_message, e_message | e_error, e_error
  | e_close, e_close | e_timeout, e_timeout | e_parseError, e_parseError => true
  | _, _ => false
  end.

Inductive Signal : Type :=
| Connected
| Message (r : Response)
| Failed (kind : PoolEvent) (cause : Cause).

Definition event_of (sig : Signal) : PoolEvent :=
  match sig with
  | Connected => e_connect
  | Message _ => e_message
  | Failed kind _ => kind
  end.

(** The functions the server registers on its pool.  The two last ones are
    the closures created inside [reconnectServer]: its local
    [errorHandler] and the listener it gives to [pool.once('connect', ...)]. *)
Inductive PoolListener : Type :=
| fn_timeoutHandler
| fn_closeHandler
| fn_errorHandler
| fn_messageHandler
| fn_connectHandler
| fn_fatalErrorHandler
| fn_reconnect_errorHandler
| fn_reconnect_connected.

Definition PoolListener_eqb (a b : PoolListener) : bool :=
  match a, b with
  | fn_timeoutHandler, fn_timeoutHandler | fn_closeHandler, fn_closeHandler
  | fn_errorHandler, fn_errorHandler | fn_messageHandler, fn_messageHandler
  | fn_connectHandler, fn_connectHandler
  | fn_fatalErrorHandler, fn_fatalErrorHandler
  | fn_reconnect_errorHandler, fn_reconnect_errorHandler
  | fn_reconnect_connected, fn_reconnect_connected => true
  | _, _ => false
  end.

(** Modelled from the spec: the connection pool ([../connection/pool] is
    not part of the sources).  It is an event emitter with [connect()],
    [destroy()], [isConnected()], [get()] and [write(frame)]; a fresh pool
    is not connected, it is connected from its [connect] event on, and
    [destroy()] leaves it not connected. *)
Record Pool : Type := {
  pool_events : Events PoolEvent PoolListener;
  pool_connected : bool
}.

(** The listener [command] stores in the callback store: it captures the
    caller's continuation and the connection used. *)
Record CommandListener : Type := {
  l_callback : Continuation;
  l_connection : Connection
}.

Definition Continuation_eqb (a b : Continuation) : bool :=
  match a, b with
  | K_caller j, K_caller k => Nat.eqb j k
  | K_ismaster, K_ismaster => true
  | _, _ => false
  end.

Definition Connection_eqb (a b : Connection) : bool :=
  match a, b with
  | PoolConnection, PoolConnection => true
  | GivenConnection c, GivenConnection d => Nat.eqb c d
  | _, _ => false
  end.

Definition CommandListener_eqb (a b : CommandListener) : bool :=
  Continuation_eqb (l_callback a) (l_callback b)
  && Connection_eqb (l_connection a) (l_connection b).

(** [Callbacks]: an event emitter whose event types are request ids. *)
Definition Callbacks : Type := Events Z CommandListener.

(** Events the server emits to its observers (the [self] argument is left
    out). *)
Inductive ServerEvent : Type :=
| EvConnect
| EvReconnect
| EvError (err : JSError)
| EvTimeout (err : JSError)
| EvClose (err : JSError).

(** Countdown closures.  The continuation a plugin call is given
    decrements a counter shared by the calls of one round and, at zero,
    runs what the source runs there.  [announce_connect] is the closure
    [connectHandler] passes to [notifyStrategies],
    [authentications_applied] the one it passes to [applyAuthentications];
    [AfterReauthentication] is the countdown inside [reconnectServer]. *)
Inductive StrategiesCallback : Type := announce_connect.

Inductive AuthenticationsCallback : Type := authentications_applied.

Inductive Countdown : Type :=
| AfterReauthentication
| AfterAuthentications (callback : AuthenticationsCallback)
| AfterStrategies (callback : StrategiesCallback).

Record Cell : Type := {
  count : Z;
  at_zero : Countdown
}.

(** The chronological trace of what the server does to the outside. *)
Inductive Observation : Type :=
| Emit (e : ServerEvent)
| Callback (k : nat) (r : Reply)
| Hook (name : string) (op : Op) (cell : option nat)
| Done (name : string) (cell : nat)
| Reauthenticate (name : string) (cell : nat)
| PoolNew
| PoolConnect
| PoolDestroy
| Write (c : Connection) (q : Query).

(** ** Options and the closure variables of the constructor *)

Record Options : Type := {
  host : string;
  port : Z;
  o_reconnect : Value;
  o_reconnectTries : option Z;
  o_reconnectInterval : option Z;
  o_emitError : Value;
  o_readPreferenceStrategies : option (Obj Strategy);
  o_authProviders : option (Obj AuthProvider)
}.

Definition reconnect (options : Options) : bool :=
  boolean_or (o_reconnect options) true.
Definition reconnectTries (options : Options) : Z :=
  number_or (o_reconnectTries options) 30.
Definition reconnectInterval (options : Options) : Z :=
  number_or (o_reconnectInterval options) 1000.
Definition emitError (options : Options) : bool :=
  boolean_or (o_emitError options) false.

(** The mutable closure variables of one [Server], with the scheduler
    queues of the runtime ([setTimeout] timers and [process.nextTick]
    tasks), the counters of the countdown closures, the request id counter
    of the message encoder and the trace.  [error_observed] tells whether
    an observer listens to the server's own ['error'] event. *)
Record Server : Type := {
  currentReconnectRetry : Z;
  ismaster : option Document;
  readPreferenceStrategies : option (Obj Strategy);
  authProviders : Obj AuthProvider;
  pool : option Pool;
  name : Value;
  callbacks : Callbacks;
  error_observed : bool;
  timers : list Z;
  ticks : list (Z * JSError);
  cells : list Cell;
  nextRequestId : Z;
  trace : list Observation
}.

Definition set_currentReconnectRetry (v : Z) (s : Server) : Server :=
  {| currentReconnectRetry := v; ismaster := ismaster s;
     readPreferenceStrategies := readPreferenceStrategies s;
     authProviders := authProviders s; pool := pool s; name := name s;
     callbacks := callbacks s; error_observed := error_observed s;
     timers := timers s; ticks := ticks s; cells := cells s;
     nextRequestId := nextRequestId s; trace := trace s |}.

Definition set_ismaster (v : option Document) (s : Server) : Server :=
  {| currentReconnectRetry := currentReconnectRetry s; ismaster := v;
     readPreferenceStrategies := readPreferenceStrategies s;
     authProviders := authProviders s; pool := pool s; name := name s;
     callbacks := callbacks s; error_observed := error_observed s;
     timers := timers s; ticks := ticks s; cells := cells s;
     nextRequestId := nextRequestId s; trace := trace s |}.

Definition set_readPreferenceStrategies (v : option (Obj Strategy)) (s : Server) : Server :=
  {| currentReconnectRetry := currentReconnectRetry s; ismaster := ismaster s;
     readPreferenceStrategies := v;
     authProviders := authProviders s; pool := pool s; name := name s;
     callbacks := callbacks s; error_observed := error_observed s;
     timers := timers s; ticks := ticks s; cells := cells s;
     nextRequestId := nextRequestId s; trace := trace s |}.

Definition set_authProviders (v : Obj AuthProvider) (s : Server) : Server :=
  {| currentReconnectRetry := currentReconnectRetry s; ismaster := ismaster s;
     readPreferenceStrategies := readPreferenceStrategies s;
     authProviders := v; pool := pool s; name := name s;
     callbacks := callbacks s; error_observed := error_observed s;
     timers := timers s; ticks := ticks s; cells := cells s;
     nextRequestId := nextRequestId s; trace := trace s |}.

Definition set_pool (v : option Pool) (s : Server) : Server :=
  {| currentReconnectRetry := currentReconnectRetry s; ismaster := ismaster s;
     readPreferenceStrategies := readPreferenceStrategies s;
     authProviders := authProviders s; pool := v; name := name s;
     callbacks := callbacks s; error_observed := error_observed s;
     timers := timers s; ticks := ticks s; cells := cells s;
     nextRequestId := nextRequestId s; trace := trace s |}.

Definition set_name (v : Value) (s : Server) : Server :=
  {| currentReconnectRetry := currentReconnectRetry s; ismaster := ismaster s;
     readPreferenceStrategies := readPreferenceStrategies s;
     authProviders := authProviders s; pool := pool s; name := v;
     callbacks := callbacks s; error_observed := error_observed s;
     timers := timers s; ticks := ticks s; cells := cells s;
     nextRequestId := nextRequestId s; trace := trace s |}.

Definition set_callbacks (v : Callbacks) (s : Server) : Server :=
  {| currentReconnectRetry := currentReconnectRetry s; ismaster := ismaster s;
     readPreferenceStrategies := readPreferenceStrategies s;
     authProviders := authProviders s; pool := pool s; name := name s;
     callbacks := v; error_observed := error_observed s;
     timers := timers s; ticks := ticks s; cells := cells s;
     nextRequestId := nextRequestId s; trace := trace s |}.

Definition set_error_observed (v : bool) (s : Server) : Server :=
  {| currentReconnectRetry := currentReconnectRetry s; ismaster := ismaster s;
     readPreferenceStrategies := readPreferenceStrategies s;
     authProviders := authProviders s; pool := pool s; name := name s;
     callbacks := callbacks s; error_observed := v;
     timers := timers s; ticks := ticks s; cells := cells s;
     nextRequestId := nextRequestId s; trace := trace s |}.

Definition set_timers (v : list Z) (s : Server) : Server :=
  {| currentReconnectRetry := currentReconnectRetry s; ismaster := ismaster s;
     readPreferenceStrategies := readPreferenceStrategies s;
     authProviders := authProviders s; pool := pool s; name := name s;
     callbacks := callbacks s; error_observed := error_observed s;
     timers := v; ticks := ticks s; cells := cells s;
     nextRequestId := nextRequestId s; trace := trace s |}.

Definition set_ticks (v : list (Z * JSError)) (s : Server) : Server :=
  {| currentReconnectRetry := currentReconnectRetry s; ismaster := ismaster s;
     readPreferenceStrategies := readPreferenceStrategies s;
     authProviders := authProviders s; pool := pool s; name := name s;
     callbacks := callbacks s; error_observed := error_observed s;
     timers := timers s; ticks := v; cells := cells s;
     nextRequestId := nextRequestId s; trace := trace s |}.

Definition set_cells (v : list Cell) (s : Server) : Server :=
  {| currentReconnectRetry := currentReconnectRetry s; ismaster := ismaster s;
     readPreferenceStrategies := readPreferenceStrategies s;
     authProviders := authProviders s; pool := pool s; name := name s;
     callbacks := callbacks s; error_observed := error_observed s;
     timers := timers s; ticks := ticks s; cells := v;
     nextRequestId := nextRequestId s; trace := trace s |}.

Definition set_nextRequestId (v : Z) (s : Server) : Server :=
  {| currentReconnectRetry := currentReconnectRetry s; ismaster := ismaster s;
     readPreferenceStrategies := readPreferenceStrategies s;
     authProviders := authProviders s; pool := pool s; name := name s;
     callbacks := callbacks s; error_observed := error_observed s;
     timers := timers s; ticks := ticks s; cells := cells s;
     nextRequestId := v; trace := trace s |}.

Definition set_trace (v : list Observation) (s : Server) : Server :=
  {| currentReconnectRetry := currentReconnectRetry s; ismaster := ismaster s;
     readPreferenceStrategies := readPreferenceStrategies s;
     authProviders := authProviders s; pool := pool s; name := name s;
     callbacks := callbacks s; error_observed := error_observed s;
     timers := timers s; ticks := ticks s; cells := cells s;
     nextRequestId := nextRequestId s; trace := v |}.

(** ** The monad of server code: state, and exceptions that keep the state *)

Inductive Outcome (A : Type) : Type :=
| Returned (a : A)
| Threw (e : JSError).
Arguments Threw {A} e.

Definition JS (A : Type) : Type := Server -> Outcome A * Server.

Definition ret {A} (a : A) : JS A := fun s => (Returned a, s).

Definition bind {A B} (m : JS A) (f : A -> JS B) : JS B :=
  fun s =>
    match m s with
    | (Returned a, s') => f a s'
    | (Threw e, s') => (Threw e, s')
    end.

Definition throw {A} (e : JSError) : JS A := fun s => (Threw e, s).

Definition gets {A} (f : Server -> A) : JS A := fun s => (Returned (f s), s).

Definition modify (f : Server -> Server) : JS unit := fun s => (Returned tt, f s).

Declare Scope js_scope.
Delimit Scope js_scope with js.
Notation "x <- m ;; k" := (bind m (fun x => k))
  (at level 100, m at next level, right associativity) : js_scope.
Notation "m ;; k" := (bind m (fun _ => k))
  (at level 100, right associativity) : js_scope.
Local Open Scope js_scope.

(** the state a computation leaves *)
Definition exec {A} (m : JS A) (s : Server) : Server := snd (m s).

Fixpoint forEach {A} (l : list A) (f : A -> JS unit) : JS unit :=
  match l with
  | [] => ret tt
  | a :: l' => f a ;; forEach l' f
  end.

Definition observe (o : Observation) : JS unit :=
  modify (fun s => set_trace (trace s ++ [o]) s).

(** ** The runtime: scheduler queues, pool operations, countdown cells *)

Definition nextTick (id : Z) (err : JSError) : JS unit :=
  modify (fun s => set_ticks (ticks s ++ [(id, err)]) s).

Definition new_cell (n : Z) (k : Countdown) : JS nat :=
  c <- gets (fun s => length (cells s)) ;;
  modify (fun s => set_cells (cells s ++ [{| count := n; at_zero := k |}]) s) ;;
  ret c.

Fixpoint update_nth {A} (n : nat) (a : A) (l : list A) : list A :=
  match l, n with
  | [], _ => []
  | _ :: l', O => a :: l'
  | x :: l', S n' => x :: update_nth n' a l'
  end.

(** a method call on [pool]: a [TypeError] while [pool] is [null] *)
Definition with_pool {A} (f : Pool -> JS A) : JS A :=
  p <- gets pool ;;
  match p with
  | Some pl => f pl
  | None => throw (TypeError "Cannot read property of null")
  end.

Definition pool_update (f : Pool -> Pool) : JS unit :=
  with_pool (fun pl => modify (set_pool (Some (f pl)))).

Definition set_pool_events (ev : Events PoolEvent PoolListener) (pl : Pool) : Pool :=
  {| pool_events := ev; pool_connected := pool_connected pl |}.

Definition set_pool_connected (b : bool) (pl : Pool) : Pool :=
  {| pool_events := pool_events pl; pool_connected := b |}.

(** [pool = new Pool(options)] *)
Definition pool_new : JS unit :=
  modify (set_pool (Some {| pool_events := []; pool_connected := false |})) ;;
  observe PoolNew.

Definition pool_on (type : PoolEvent) (f : PoolListener) : JS unit :=
  pool_update (fun pl => set_pool_events (on PoolEvent_eqb type f (pool_events pl)) pl).

Definition pool_once (type : PoolEvent) (f : PoolListener) : JS unit :=
  pool_update (fun pl => set_pool_events (once PoolEvent_eqb type f (pool_events pl)) pl).

Definition pool_removeAllListeners (type : PoolEvent) : JS unit :=
  pool_update (fun pl =>
    set_pool_events (removeAllListeners PoolEvent_eqb type (pool_events pl)) pl).

Definition pool_destroy : JS unit :=
  pool_update (set_pool_connected false) ;;
  observe PoolDestroy.

Definition pool_connect : JS unit :=
  with_pool (fun _ => observe PoolConnect).

Definition pool_isConnected : JS bool :=
  with_pool (fun pl => ret (pool_connected pl)).

(** [self.emit(...)]: Node's [emit] throws when an ['error'] event has no
    listener (the payload itself, or a fresh [Error] when the payload is
    not an error object).  Observers are opaque: they neither throw nor
    call back into the server while the event is delivered. *)
Definition emit (e : ServerEvent) : JS unit :=
  observe (Emit e) ;;
  match e with
  | EvError err =>
      observed <- gets error_observed ;;
      if observed then ret tt
      else throw (match err with
                  | Text _ => Error_ "Uncaught, unspecified 'error' event."
                  | _ => err
                  end)
  | _ => ret tt
  end.

Section Instance.

Variable options : Options.

(** [setTimeout(function() { reconnectServer() }, reconnectInterval)] *)
Definition setTimeout_reconnectServer : JS unit :=
  modify (fun s => set_timers (timers s ++ [reconnectInterval options]) s).

(** ** Callbacks (lines 20-42) *)

Definition callbacks_once (id : Z) (l : CommandListener) : JS unit :=
  modify (fun s => set_callbacks (once Z.eqb id l (callbacks s)) s).

(** [flush]: one deferred [emit(id, err, null)] per key of [_events] *)
Definition flush (err : JSError) : JS unit :=
  ids <- gets (fun s => eventNames (callbacks s)) ;;
  forEach ids (fun id => nextTick id err).

(** ** Plugin notification (lines 338-369, 451-468) *)

Definition call_StrategiesCallback (cb : StrategiesCallback) : JS unit :=
  match cb with
  | announce_connect => emit EvConnect
  end.

(** [for (var name in o)] visits nothing when [o] is [null] *)
Definition for_in {V} (o : option (Obj V)) : Obj V :=
  match o with Some l => l | None => [] end.

Definition notifyStrategies (op : Op) (callback : option StrategiesCallback) : JS unit :=
  rps <- gets readPreferenceStrategies ;;
  match callback with
  | None =>
      forEach (for_in rps) (fun ns =>
        if defines (snd ns) op then observe (Hook (fst ns) op None) else ret tt)
  | Some cb =>
      match rps with
      | None => throw (TypeError "Object.keys called on non-object")
      | Some o =>
          let nPreferences := Z.of_nat (length (keys o)) in
          if Z.eqb nPreferences 0 then call_StrategiesCallback cb
          else
            c <- new_cell nPreferences (AfterStrategies cb) ;;
            forEach o (fun ns =>
              if defines (snd ns) op then observe (Hook (fst ns) op (Some c))
              else ret tt)
      end
  end.

Definition call_AuthenticationsCallback (cb : AuthenticationsCallback) : JS unit :=
  match cb with
  | authentications_applied =>
      rps <- gets readPreferenceStrategies ;;
      match rps with
      | None => emit EvConnect
      | Some _ => notifyStrategies op_connect (Some announce_connect)
      end
  end.

Definition applyAuthentications (callback : AuthenticationsCallback) : JS unit :=
  ks <- gets (fun s => keys (authProviders s)) ;;
  if Z.eqb (Z.of_nat (length ks)) 0 then call_AuthenticationsCallback callback
  else
    c <- new_cell (Z.of_nat (length ks)) (AfterAuthentications callback) ;;
    forEach ks (fun name => observe (Reauthenticate name c)).

(** A plugin calls the continuation it was given: [count = count - 1],
    and at [0] the round's callback runs. *)
Definition countdown (c : nat) : JS unit :=
  cs <- gets cells ;;
  match nth_error cs c with
  | None => ret tt
  | Some cell =>
      let n := count cell - 1 in
      modify (set_cells (update_nth c {| count := n; at_zero := at_zero cell |} cs)) ;;
      if Z.eqb n 0 then
        match at_zero cell with
        | AfterReauthentication => emit EvReconnect
        | AfterAuthentications cb => call_AuthenticationsCallback cb
        | AfterStrategies cb => call_StrategiesCallback cb
        end
      else ret tt
  end.

(** ** connectHandler (lines 235-266): the continuation of the ismaster command *)

Definition ismaster_received (r : Reply) : JS unit :=
  match r with
  | Failure err => emit (EvClose err)
  | Success r =>
      modify (set_ismaster (result r)) ;;
      im <- gets ismaster ;;
      match im with
      | None => throw (TypeError "Cannot read property 'minWireVersion' of undefined")
      | Some doc =>
          if negb (typeof_number (minWireVersion doc)) then
            emit (EvError (MongoError "non supported server version"))
          else
            (if truthy (me doc) then modify (set_name (me doc)) else ret tt) ;;
            applyAuthentications authentications_applied
      end
  end.

Definition call (callback : Continuation) (r : Reply) : JS unit :=
  match callback with
  | K_caller k => observe (Callback k r)
  | K_ismaster => ismaster_received r
  end.

(** ** The listener registered by command (lines 412-417) and emit on the store *)

Definition commandListener (l : CommandListener)
    (err : option JSError) (res : option Response) : JS unit :=
  notifyStrategies op_endOperation None ;;
  match err with
  | Some e => call (l_callback l) (Failure e)
  | None =>
      match res with
      | Some r =>
          call (l_callback l)
            (Success {| result := hd_error (documents r);
                        connection := l_connection l |})
      | None => throw (TypeError "Cannot read property 'documents' of null")
      end
  end.

(** [emit] walks a copy of the listeners of the type; a [once] listener
    removes itself just before it runs. *)
Fixpoint fire_callbacks (id : Z) (ls : list (bool * CommandListener))
    (err : option JSError) (res : option Response) : JS unit :=
  match ls with
  | [] => ret tt
  | l :: rest =>
      (if fst l then
         modify (fun s =>
           set_callbacks (removeListener Z.eqb CommandListener_eqb id l (callbacks s)) s)
       else ret tt) ;;
      commandListener (snd l) err res ;;
      fire_callbacks id rest err res
  end.

Definition callbacks_emit (id : Z) (err : option JSError) (res : option Response) : JS unit :=
  ls <- gets (fun s => listeners Z.eqb id (callbacks s)) ;;
  fire_callbacks id ls err res.

(** ** Handlers (lines 177-233) *)

Definition messageHandler (response : Response) : JS unit :=
  callbacks_emit (responseTo response) None (Some response).

Definition destroy : JS unit :=
  forEach [e_close; e_message; e_error; e_timeout; e_connect; e_parseError]
    pool_removeAllListeners ;;
  pool_destroy.

Definition is_null {V} (o : option V) : bool :=
  match o with Some _ => false | None => true end.

Definition errorHandler (err : Cause) : JS unit :=
  rps <- gets readPreferenceStrategies ;;
  (if negb (is_null rps) then notifyStrategies op_error None else ret tt) ;;
  destroy ;;
  nm <- gets name ;;
  flush (MongoError ("server " +++ format_s nm +++ " received an error "
                       +++ JSON_stringify err)) ;;
  (if emitError options then emit (EvError (Original err)) else ret tt) ;;
  (if reconnect options then setTimeout_reconnectServer else ret tt).

Definition fatalErrorHandler (err : Cause) : JS unit :=
  rps <- gets readPreferenceStrategies ;;
  (if negb (is_null rps) then notifyStrategies op_error None else ret tt) ;;
  destroy ;;
  nm <- gets name ;;
  flush (MongoError ("server " +++ format_s nm +++ " received an error "
                       +++ JSON_stringify err)) ;;
  emit (EvError (Original err)) ;;
  (if reconnect options then setTimeout_reconnectServer else ret tt).

Definition timeoutHandler (err : Cause) : JS unit :=
  rps <- gets readPreferenceStrategies ;;
  (if negb (is_null rps) then notifyStrategies op_timeout None else ret tt) ;;
  destroy ;;
  nm <- gets name ;;
  flush (MongoError ("server " +++ format_s nm +++ " timed out")) ;;
  emit (EvTimeout (Original err)) ;;
  (if reconnect options then setTimeout_reconnectServer else ret tt).

Definition closeHandler (err : Cause) : JS unit :=
  rps <- gets readPreferenceStrategies ;;
  (if negb (is_null rps) then notifyStrategies op_close None else ret tt) ;;
  destroy ;;
  nm <- gets name ;;
  flush (MongoError ("server " +++ format_s nm +++ " sockets closed")) ;;
  emit (EvClose (Original err)) ;;
  (if reconnect options then setTimeout_reconnectServer else ret tt).

(** ** reconnectServer (lines 110-173) *)

(** the local [errorHandler] of [reconnectServer] *)
Definition reconnect_errorHandler : JS unit :=
  pool_destroy ;;
  modify (fun s => set_currentReconnectRetry (currentReconnectRetry s - 1) s) ;;
  retry <- gets currentReconnectRetry ;;
  if Z.leb retry 0 then
    emit (EvError (Text ("failed to connect to " +++ host options +++ ":"
                           +++ string_of_Z (port options) +++ " after "
                           +++ string_of_Z (reconnectTries options) +++ " retries")))
  else setTimeout_reconnectServer.

(** the listener of [pool.once('connect', ...)]; the name [errorHandler]
    in its body is the local one of [reconnectServer]. *)
Definition reconnect_connected : JS unit :=
  forEach [e_error; e_close; e_timeout; e_parseError] pool_removeAllListeners ;;
  pool_on e_error fn_reconnect_errorHandler ;;
  pool_on e_close fn_closeHandler ;;
  pool_on e_timeout fn_timeoutHandler ;;
  pool_on e_message fn_messageHandler ;;
  pool_on e_parseError fn_fatalErrorHandler ;;
  ks <- gets (fun s => keys (authProviders s)) ;;
  if Z.eqb (Z.of_nat (length ks)) 0 then emit EvReconnect
  else
    c <- new_cell (Z.of_nat (length ks)) AfterReauthentication ;;
    forEach ks (fun name => observe (Reauthenticate name c)).

Definition reconnectServer : JS unit :=
  modify (set_currentReconnectRetry (reconnectTries options)) ;;
  pool_new ;;
  pool_once e_connect fn_reconnect_connected ;;
  pool_once e_error fn_reconnect_errorHandler ;;
  pool_once e_close fn_reconnect_errorHandler ;;
  pool_once e_timeout fn_reconnect_errorHandler ;;
  pool_once e_parseError fn_reconnect_errorHandler ;;
  pool_connect.

(** ** command (lines 372-421) *)

(** [slaveOk(r)]; a foreign value never reaches it *)
Definition slaveOk (r : ReadPreferenceArg) : bool :=
  match r with RP_instance b => b | _ => false end.

(** Modelled from the spec: the message encoder ([../connection/commands]
    is not part of the sources) gives every frame a request identifier,
    unique per in-flight request; here a counter. *)
Definition new_requestId : JS Z :=
  id <- gets nextRequestId ;;
  modify (set_nextRequestId (id + 1)) ;;
  ret id.

Definition command (ns : string) (cmd : Command) (opts : CommandOptions)
    (callback : Continuation) : JS unit :=
  match readPreference opts with
  | RP_foreign => throw (Error_ "readPreference must be an instance of ReadPreference")
  | _ =>
      connected <- pool_isConnected ;;
      if negb connected then
        nm <- gets name ;;
        call callback
          (Failure (MongoError ("no connection available to server " +++ format_s nm)))
      else
        let connection :=
          match given_connection opts with Some c => c | None => PoolConnection end in
        id <- new_requestId ;;
        let query := {| requestId := id; q_ns := ns; q_cmd := cmd;
                        q_slaveOk := slaveOk (readPreference opts) |} in
        rps <- gets readPreferenceStrategies ;;
        (if negb (is_null rps) then notifyStrategies op_startOperation None else ret tt) ;;
        callbacks_once id {| l_callback := callback; l_connection := connection |} ;;
        observe (Write connection query)
  end.

Definition connectHandler : JS unit :=
  command "system.$cmd" Cmd_ismaster no_options K_ismaster.

(** ** connect, destroy, isConnected (lines 268-309) *)

Definition lastIsMaster : JS (option Document) := gets ismaster.

Definition connect : JS unit :=
  p <- gets pool ;;
  (if negb (is_null p) then pool_destroy else ret tt) ;;
  pool_new ;;
  pool_on e_timeout fn_timeoutHandler ;;
  pool_on e_close fn_closeHandler ;;
  pool_on e_error fn_errorHandler ;;
  pool_on e_message fn_messageHandler ;;
  pool_on e_connect fn_connectHandler ;;
  pool_on e_parseError fn_fatalErrorHandler ;;
  pool_connect.

Definition isConnected : JS bool :=
  p <- gets pool ;;
  match p with
  | Some pl => ret (pool_connected pl)
  | None => ret false
  end.

(** ** Writes (lines 313-334, 424-436) *)

Record WriteOptions : Type := {
  ordered : Value;
  writeConcern : option (Obj Value)
}.

Definition empty_options : WriteOptions :=
  {| ordered := VUndefined; writeConcern := None |}.

(** [(ns, ops, callback)] or [(ns, ops, options, callback)] *)
Inductive WriteArgs : Type :=
| Args_callback (callback : Continuation)
| Args_options (o : WriteOptions) (callback : Continuation).

(** [ns.split(".")] *)
Fixpoint split_dot (s : string) : list string :=
  match s with
  | EmptyString => [EmptyString]
  | String c s' =>
      if Ascii.eqb c "."%char then EmptyString :: split_dot s'
      else match split_dot s' with
           | [] => [String c EmptyString]
           | w :: ws => String c w :: ws
           end
  end.

Definition writeCommand (type opsField ns : string) (ops : list nat)
    (o : WriteOptions) : WriteCommand :=
  let p := split_dot ns in
  {| wc_type := type;
     wc_target := nth_error p 1;
     wc_opsField := opsField;
     wc_ops := ops;
     wc_ordered := js_or (ordered o) (VBool true);
     wc_writeConcern := match writeConcern o with Some w => w | None => [] end |}.

Definition executeWrite (type opsField ns : string) (ops : list nat)
    (args : WriteArgs) : JS unit :=
  if Nat.eqb (length ops) 0 then
    throw (MongoError "insert must contain at least one document")
  else
    let o := match args with Args_callback _ => empty_options | Args_options o _ => o end in
    let callback := match args with Args_callback k => k | Args_options _ k => k end in
    command (nth 0 (split_dot ns) "" +++ ".$cmd")
      (Cmd_write (writeCommand type opsField ns ops o)) no_options callback.

Definition insert (ns : string) (ops : list nat) (args : WriteArgs) : JS unit :=
  executeWrite "insert" "documents" ns ops args.

Definition update (ns : string) (ops : list nat) (args : WriteArgs) : JS unit :=
  executeWrite "update" "updates" ns ops args.

Definition remove (ns : string) (ops : list nat) (args : WriteArgs) : JS unit :=
  executeWrite "delete" "deletes" ns ops args.

(** ** Plugin registration (lines 475-482) *)

Definition addReadPreferenceStrategy (name : string) (strategy : Strategy) : JS unit :=
  modify (fun s =>
    set_readPreferenceStrategies
      (Some (obj_set name strategy (for_in (readPreferenceStrategies s)))) s).

Definition addAuthProvider (name : string) (p : AuthProvider) : JS unit :=
  modify (fun s => set_authProviders (obj_set name p (authProviders s)) s).

(** ** The pool delivers a signal *)

Definition no_cause : Cause := {| json := "undefined" |}.

Definition cause_of (sig : Signal) : Cause :=
  match sig with Failed _ c => c | _ => no_cause end.

Definition call_PoolListener (f : PoolListener) (sig : Signal) : JS unit :=
  match f with
  | fn_timeoutHandler => timeoutHandler (cause_of sig)
  | fn_closeHandler => closeHandler (cause_of sig)
  | fn_errorHandler => errorHandler (cause_of sig)
  | fn_fatalErrorHandler => fatalErrorHandler (cause_of sig)
  | fn_messageHandler =>
      match sig with
      | Message r => messageHandler r
      | _ => throw (TypeError "Cannot read property 'responseTo' of undefined")
      end
  | fn_connectHandler => connectHandler
  | fn_reconnect_errorHandler => reconnect_errorHandler
  | fn_reconnect_connected => reconnect_connected
  end.

Fixpoint fire_pool (type : PoolEvent) (ls : list (bool * PoolListener))
    (sig : Signal) : JS unit :=
  match ls with
  | [] => ret tt
  | l :: rest =>
      (if fst l then
         pool_update (fun pl =>
           set_pool_events
             (removeListener PoolEvent_eqb PoolListener_eqb type l (pool_events pl)) pl)
       else ret tt) ;;
      call_PoolListener (snd l) sig ;;
      fire_pool type rest sig
  end.

(** Modelled from the spec: the pool raises [connect] once its low-level
    connection is up, and is connected from then on; the other signals
    are delivered to the listeners of their event. *)
Definition pool_emit (sig : Signal) : JS unit :=
  p <- gets pool ;;
  match p with
  | None => ret tt
  | Some pl =>
      (match sig with
       | Connected => pool_update (set_pool_connected true)
       | _ => ret tt
       end) ;;
      fire_pool (event_of sig) (listeners PoolEvent_eqb (event_of sig) (pool_events pl)) sig
  end.

(** ** One server as a machine driven by its environment *)

Inductive Input : Type :=
| call_connect
| call_destroy
| call_command (ns : string) (cmd : nat) (opts : CommandOptions) (k : nat)
| call_insert (ns : string) (ops : list nat) (args : WriteArgs)
| call_update (ns : string) (ops : list nat) (args : WriteArgs)
| call_remove (ns : string) (ops : list nat) (args : WriteArgs)
| call_addReadPreferenceStrategy (name : string) (strategy : Strategy)
| call_addAuthProvider (name : string) (p : AuthProvider)
| call_on_error
| pool_signal (sig : Signal)
| timer_fires
| next_tick
| plugin_done (name : string) (cell : nat).

Definition step (i : Input) : JS unit :=
  match i with
  | call_connect => connect
  | call_destroy => destroy
  | call_command ns cmd opts k => command ns (Cmd_document cmd) opts (K_caller k)
  | call_insert ns ops args => insert ns ops args
  | call_update ns ops args => update ns ops args
  | call_remove ns ops args => remove ns ops args
  | call_addReadPreferenceStrategy name strategy => addReadPreferenceStrategy name strategy
  | call_addAuthProvider name p => addAuthProvider name p
  | call_on_error => modify (set_error_observed true)
  | pool_signal sig => pool_emit sig
  | timer_fires =>
      ts <- gets timers ;;
      match ts with
      | [] => ret tt
      | _ :: rest => modify (set_timers rest) ;; reconnectServer
      end
  | next_tick =>
      ts <- gets ticks ;;
      match ts with
      | [] => ret tt
      | (id, err) :: rest => modify (set_ticks rest) ;; callbacks_emit id (Some err) None
      end
  | plugin_done name cell => observe (Done name cell) ;; countdown cell
  end.

Fixpoint run (inputs : list Input) (s : Server) : Server :=
  match inputs with
  | [] => s
  | i :: rest => run rest (exec (step i) s)
  end.

(** The constructor (lines 59-106). *)
Definition new_Server : Server :=
  {| currentReconnectRetry := reconnectTries options;
     ismaster := None;
     readPreferenceStrategies := o_readPreferenceStrategies options;
     authProviders := for_in (o_authProviders options);
     pool := None;
     name := VStr (host options +++ ":" +++ string_of_Z (port options));
     callbacks := [];
     error_observed := false;
     timers := [];
     ticks := [];
     cells := [];
     nextRequestId := 0;
     trace := [] |}.

End Instance.

(** ** Vocabulary of the statements *)

(** the hook calls one fire-and-forget (or counted) notification makes *)
Definition hook_calls (op : Op) (o : Obj Strategy) (cell : option nat) : list Observation :=
  map (fun ns => Hook (fst ns) op cell) (filter (fun ns => defines (snd ns) op) o).

(** what was appended to the trace between two states *)
Definition since (s s' : Server) : list Observation :=
  skipn (length (trace s)) (trace s').

Definition is_call_of (k : nat) (o : Observation) : bool :=
  match o with Callback j _ => Nat.eqb j k | _ => false end.

(** how many times the continuation [k] was called *)
Definition calls (k : nat) (t : list Observation) : nat :=
  length (filter (is_call_of k) t).

Definition is_emit (o : Observation) : bool :=
  match o with Emit _ => true | _ => false end.

(** the events emitted to observers, in order *)
Definition emitted (t : list Observation) : list Observation := filter is_emit t.

(** the pool left by [destroy]: no listener, not connected *)
Definition detached (pl : Pool) : Pool :=
  {| pool_events :=
       fold_left (fun ev e => removeAllListeners PoolEvent_eqb e ev)
         [e_close; e_message; e_error; e_timeout; e_connect; e_parseError]
         (pool_events pl);
     pool_connected := false |}.

Definition with_emitError (v : Value) (o : Options) : Options :=
  {| host := host o; port := port o; o_reconnect := o_reconnect o;
     o_reconnectTries := o_reconnectTries o;
     o_reconnectInterval := o_reconnectInterval o;
     o_emitError := v;
     o_readPreferenceStrategies := o_readPreferenceStrategies o;
     o_authProviders := o_authProviders o |}.

(** Options that leave every default in place. *)
Definition defaults : Options :=
  {| host := "localhost"; port := 27017; o_reconnect := VUndefined;
     o_reconnectTries := None; o_reconnectInterval := None;
     o_emitError := VUndefined; o_readPreferenceStrategies := None;
     o_authProviders := None |}.

Definition ismaster_reply (id : Z) : Response :=
  {| responseTo := id;
     documents := [{| minWireVersion := VNum 0; me := VStr "localhost:27017" |}] |}.

Definition old_reply (id : Z) : Response :=
  {| responseTo := id;
     documents := [{| minWireVersion := VUndefined; me := VUndefined |}] |}.

Definition reset : Cause := {| json := "{}" |}.

(** The registry as section 4.1 of the specification words it:
    registration fails when the identifier is already pending. *)
Definition register_spec (id : Z) (l : CommandListener) (cbs : Callbacks) : option Callbacks :=
  match listeners Z.eqb id cbs with
  | [] => Some (once Z.eqb id l cbs)
  | _ :: _ => None
  end.

(** The reading of "a duplicate registration fails and changes nothing"
    on the code. *)
Definition duplicate_registration_fails : Prop :=
  forall (s : Server) (id : Z) (l : CommandListener),
    listeners Z.eqb id (callbacks s) <> [] ->
    exists e, callbacks_once id l s = (Threw e, s).

(** The state every failure handler reaches before it emits: strategies
    notified, pool detached and destroyed, one deferred failure per
    pending request identifier. *)
Definition failed_state (op : Op) (message : string) (pl : Pool) (s : Server) : Server :=
  set_ticks
    (ticks s ++ map (fun id => (id, MongoError message)) (eventNames (callbacks s)))
    (set_trace
       (trace s ++ hook_calls op (for_in (readPreferenceStrategies s)) None ++ [PoolDestroy])
       (set_pool (Some (detached pl)) s)).

(** what a handler does besides emitting *)
Definition other_steps (t : list Observation) : list Observation :=
  filter (fun o => negb (is_emit o)) t.

(** One failed attempt of the reconnect loop: the timer runs
    [reconnectServer], then the new pool fails to connect. *)
Definition failed_attempt (c : Cause) : list Input :=
  [timer_fires; pool_signal (Failed e_error c)].

(** The pool and counter a failed attempt leaves behind. *)
Definition after_failed_attempt (options : Options) (s : Server) : Server :=
  set_timers (tl (timers s) ++ [reconnectInterval options])
    (set_trace (trace s ++ [PoolNew; PoolConnect; PoolDestroy])
       (set_pool
          (Some {| pool_events :=
                     [(e_connect, [(true, fn_reconnect_connected)]);
                      (e_close, [(true, fn_reconnect_errorHandler)]);
                      (e_timeout, [(true, fn_reconnect_errorHandler)]);
                      (e_parseError, [(true, fn_reconnect_errorHandler)])];
                   pool_connected := false |})
          (set_currentReconnectRetry (reconnectTries options - 1) s))).

(** A server that connected, lost its connection, reconnected, and has one
    command in flight. *)
Definition reconnected_with_pending_command : list Input :=
  [call_on_error; call_connect; pool_signal Connected;
   pool_signal (Message (ismaster_reply 0));
   pool_signal (Failed e_close reset); timer_fires; pool_signal Connected;
   call_command "db.coll" 1%nat no_options 8%nat].

(** the connection a command uses: [options.connection || pool.get()] *)
Definition connection_used (opts : CommandOptions) : Connection :=
  match given_connection opts with Some c => c | None => PoolConnection end.

(** the frame [command] builds on a server whose next request id is that of [s] *)
Definition query_of (ns : string) (cmd : Command) (opts : CommandOptions)
    (s : Server) : Query :=
  {| requestId := nextRequestId s; q_ns := ns; q_cmd := cmd;
     q_slaveOk := slaveOk (readPreference opts) |}.

(** The state [command] leaves on a connected pool. *)
Definition sent_state (ns : string) (cmd : Command) (opts : CommandOptions)
    (callback : Continuation) (s : Server) : Server :=
  set_trace
    (trace s ++ hook_calls op_startOperation (for_in (readPreferenceStrategies s)) None
       ++ [Write (connection_used opts) (query_of ns cmd opts s)])
    (set_callbacks
       (once Z.eqb (nextRequestId s)
          {| l_callback := callback; l_connection := connection_used opts |}
          (callbacks s))
       (set_nextRequestId (nextRequestId s + 1) s)).

(** a listener as [command] registers them for a caller: once, with a
    caller's continuation *)
Definition caller_once (l : bool * CommandListener) : bool :=
  fst l && match l_callback (snd l) with K_caller _ => true | K_ismaster => false end.

(** what the listener of [command] hands to its continuation for the
    arguments [(err, result)] of an emit *)
Definition reply_to (l : CommandListener) (err : option JSError)
    (res : option Response) : option Reply :=
  match err, res with
  | Some e, _ => Some (Failure e)
  | None, Some r =>
      Some (Success {| result := hd_error (documents r); connection := l_connection l |})
  | None, None => None
  end.

(** what one listener of a caller adds to the trace when it fires: the
    end-of-operation hooks, then the call of the continuation *)
Definition delivery (o : Obj Strategy) (err : option JSError) (res : option Response)
    (l : bool * CommandListener) : list Observation :=
  hook_calls op_endOperation o None
    ++ match l_callback (snd l), reply_to (snd l) err res with
       | K_caller k, Some r => [Callback k r]
       | _, _ => []
       end.

Definition deliveries (o : Obj Strategy) (err : option JSError) (res : option Response)
    (ls : list (bool * CommandListener)) : list Observation :=
  flat_map (delivery o err res) ls.

(** the state an emit on the callback store leaves when callers' listeners
    [ls] were registered for [id] *)
Definition delivered_state (id : Z) (err : option JSError) (res : option Response)
    (ls : list (bool * CommandListener)) (s : Server) : Server :=
  set_trace (trace s ++ deliveries (for_in (readPreferenceStrategies s)) err res ls)
    (set_callbacks (removeAllListeners Z.eqb id (callbacks s)) s).

(** A callback store as [command] builds it for callers: distinct request
    ids, each with at least one listener, every listener a caller's
    once-listener. *)
Definition callers_store (cbs : Callbacks) : Prop :=
  NoDup (eventNames cbs)
  /\ Forall (fun e => snd e <> [] /\ Forall (fun x => caller_once x = true) (snd e)) cbs.

(** A server that negotiated its connection and is ready for commands. *)
Definition live_server : Server :=
  run defaults
    [call_on_error; call_connect; pool_signal Connected;
     pool_signal (Message (ismaster_reply 0))]
    (new_Server defaults).

(** The callback store driven directly: the registration [command] makes
    (line 412), a response from the pool, a flush, and one turn of the
    deferred queue. *)
Inductive RegistryOp : Type :=
| Register (id : Z) (k : nat) (c : Connection)
| Respond (r : Response)
| Flush (err : JSError)
| Tick.

Definition registry_step (options : Options) (op : RegistryOp) : JS unit :=
  match op with
  | Register id k c => callbacks_once id {| l_callback := K_caller k; l_connection := c |}
  | Respond r => messageHandler r
  | Flush err => flush err
  | Tick => step options next_tick
  end.

Fixpoint registry_run (options : Options) (ops : list RegistryOp) (s : Server) : Server :=
  match ops with
  | [] => s
  | op :: rest => registry_run options rest (exec (registry_step options op) s)
  end.

Definition is_listener_of (k : nat) (l : bool * CommandListener) : bool :=
  Continuation_eqb (l_callback (snd l)) (K_caller k).

(** how many listeners in the store hold the continuation [k] *)
Definition pending (k : nat) (cbs : Callbacks) : nat :=
  length (filter (is_listener_of k) (allListeners cbs)).

Definition registers (k : nat) (op : RegistryOp) : bool :=
  match op with Register _ j _ => Nat.eqb j k | _ => false end.

(** how many times [ops] register the continuation [k] *)
Definition registrations (k : nat) (ops : list RegistryOp) : nat :=
  length (filter (registers k) ops).

(** the listeners [connect()] installs on a fresh pool *)
Definition connecting_pool : Pool :=
  {| pool_events :=
       [(e_timeout, [(false, fn_timeoutHandler)]);
        (e_close, [(false, fn_closeHandler)]);
        (e_error, [(false, fn_errorHandler)]);
        (e_message, [(false, fn_messageHandler)]);
        (e_connect, [(false, fn_connectHandler)]);
        (e_parseError, [(false, fn_fatalErrorHandler)])];
     pool_connected := false |}.

(** the pool of a server that reconnected *)
Definition reconnected_pool : Pool :=
  {| pool_events :=
       [(e_error, [(false, fn_reconnect_errorHandler)]);
        (e_close, [(false, fn_closeHandler)]);
        (e_timeout, [(false, fn_timeoutHandler)]);
        (e_message, [(false, fn_messageHandler)]);
        (e_parseError, [(false, fn_fatalErrorHandler)])];
     pool_connected := true |}.

(** the timers after a handler that schedules a reconnect when
    reconnection is enabled *)
Definition rescheduled (options : Options) (s : Server) : list Z :=
  timers s ++ (if reconnect options then [reconnectInterval options] else []).

(** the deferred failures a flush with [message] adds *)
Definition flushed (message : string) (s : Server) : list (Z * JSError) :=
  ticks s ++ map (fun id => (id, MongoError message)) (eventNames (callbacks s)).

(** the completions of the plugins named [names], all on the countdown [c] *)
Definition completions (c : nat) (names : list string) : list Input :=
  map (fun name => plugin_done name c) names.

(** the state in which the listener of the ismaster command runs: it has
    just removed itself from the store *)
Definition ismaster_listener_removed (id : Z) (conn : Connection) (s : Server) : Server :=
  set_callbacks
    (removeListener Z.eqb CommandListener_eqb id
       (true, {| l_callback := K_ismaster; l_connection := conn |}) (callbacks s)) s.

(** a server with two strategies that both define a connect hook *)
Definition two_strategies : Server :=
  set_readPreferenceStrategies
    (Some [("nearest", {| hooks := [op_connect] |});
           ("tagged", {| hooks := [op_connect; op_error] |})])
    (new_Server defaults).

(** a string without a dot *)
Fixpoint dotless (s : string) : bool :=
  match s with
  | EmptyString => true
  | String c s' => negb (Ascii.eqb c "."%char) && dotless s'
  end.

(** the options and the callback [executeWrite] ends up with *)
Definition write_options (args : WriteArgs) : WriteOptions :=
  match args with Args_callback _ => empty_options | Args_options o _ => o end.

Definition write_callback (args : WriteArgs) : Continuation :=
  match args with Args_callback k => k | Args_options _ k => k end.

(** the keys of an object are in the order of enumeration: no key is
    listed after one it must precede *)
Definition own_keys_order (ks : list string) : Prop :=
  StronglySorted (fun a b => enumerated_before b a = false) ks.

(** The reading of "in every other step (strategy notification, destroy,
    flush, reconnect scheduling) the two handlers behave identically" on
    the code: on a pool where the generic handler listens to ['error'] and
    the fatal one to ['parseError'], the two signals differ in the emitted
    event only. *)
Definition fatal_differs_only_by_emitting : Prop :=
  forall (options : Options) (c : Cause) (s : Server) (pl : Pool),
    pool s = Some pl ->
    listeners PoolEvent_eqb e_error (pool_events pl) = [(false, fn_errorHandler)] ->
    listeners PoolEvent_eqb e_parseError (pool_events pl) = [(false, fn_fatalErrorHandler)] ->
    let generic := exec (step options (pool_signal (Failed e_error c))) s in
    let fatal := exec (step options (pool_signal (Failed e_parseError c))) s in
    In (Emit (EvError (Original c))) (since s fatal)
    /\ (In (Emit (EvError (Original c))) (since s generic) <-> emitError options = true)
    /\ other_steps (since s generic) = other_steps (since s fatal)
    /\ pool generic = pool fatal
    /\ ticks generic = ticks fatal
    /\ timers generic = timers fatal.

(** the listener [command] registers for the continuation [k] *)
Definition listener_for (k : nat) (conn : Connection) : bool * CommandListener :=
  (true, {| l_callback := K_caller k; l_connection := conn |}).

(** the store holds the continuation [k] under the request id [id] only,
    together with the connection [conn] *)
Definition held_under (k : nat) (id : Z) (conn : Connection) (cbs : Callbacks) : Prop :=
  pending k (removeAllListeners Z.eqb id cbs) = 0%nat
  /\ Forall (fun l => is_listener_of k l = true -> l_connection (snd l) = conn)
       (allListeners cbs).

(** what a continuation registered under [id] with [conn] may be called
    with: the first document of a response to [id], or the failure of a
    flush (made by [ops], or still waiting in the deferred queue [ts]) *)
Definition resolved_by (id : Z) (conn : Connection) (ops : list RegistryOp)
    (ts : list (Z * JSError)) (r : Reply) : Prop :=
  (exists res, In (Respond res) ops /\ responseTo res = id
               /\ r = Success {| result := hd_error (documents res); connection := conn |})
  \/ (exists err, (In (Flush err) ops \/ In (id, err) ts) /\ r = Failure err).

(** ** Basic facts *)

Lemma set_trace_same (s : Server) : set_trace (trace s) s = s.
Proof. destruct s; reflexivity. Qed.

Lemma since_app (s s' : Server) (obs : list Observation) :
  trace s' = trace s ++ obs -> since s s' = obs.
Proof.
  intros H. unfold since. rewrite H.
  rewrite skipn_app, skipn_all, Nat.sub_diag. reflexivity.
Qed.

Lemma forEach_observe {A} (p : A -> bool) (g : A -> Observation) (l : list A) :
  forall s,
    forEach l (fun a => if p a then observe (g a) else ret tt) s
    = (Returned tt, set_trace (trace s ++ map g (filter p l)) s).
Proof.
  induction l as [|a l IH]; intros s.
  - simpl. rewrite app_nil_r, set_trace_same. reflexivity.
  - simpl. unfold bind. destruct (p a).
    + unfold observe, modify. rewrite IH. simpl.
      rewrite <- app_assoc. destruct s; reflexivity.
    + unfold ret. rewrite IH. reflexivity.
Qed.

Lemma notifyStrategies_forget (op : Op) (s : Server) :
  notifyStrategies op None s
  = (Returned tt,
     set_trace (trace s ++ hook_calls op (for_in (readPreferenceStrategies s)) None) s).
Proof.
  unfold notifyStrategies, bind, gets.
  apply (forEach_observe (fun ns => defines (snd ns) op) (fun ns => Hook (fst ns) op None)).
Qed.

Lemma forEach_nextTick (err : JSError) (ids : list Z) :
  forall s,
    forEach ids (fun id => nextTick id err) s
    = (Returned tt, set_ticks (ticks s ++ map (fun id => (id, err)) ids) s).
Proof.
  induction ids as [|id ids IH]; intros s.
  - simpl. rewrite app_nil_r. destruct s; reflexivity.
  - simpl. unfold bind, nextTick, modify. rewrite IH. simpl.
    rewrite <- app_assoc. destruct s; reflexivity.
Qed.

Lemma flush_schedules (err : JSError) (s : Server) :
  flush err s
  = (Returned tt,
     set_ticks (ticks s ++ map (fun id => (id, err)) (eventNames (callbacks s))) s).
Proof. unfold flush, bind, gets. apply forEach_nextTick. Qed.

Lemma destroy_detaches (s : Server) (pl : Pool) :
  pool s = Some pl ->
  destroy s
  = (Returned tt, set_trace (trace s ++ [PoolDestroy]) (set_pool (Some (detached pl)) s)).
Proof.
  intros H. destruct s; simpl in H; subst. reflexivity.
Qed.

(** ** The failure handlers in closed form *)

Lemma bind_gets {A B} (f : Server -> A) (k : A -> JS B) (s : Server) :
  bind (gets f) k s = k (f s) s.
Proof. reflexivity. Qed.

Lemma bind_returned {A B} (m : JS A) (k : A -> JS B) (s s' : Server) (a : A) :
  m s = (Returned a, s') -> bind m k s = k a s'.
Proof. intros H. unfold bind. rewrite H. reflexivity. Qed.

Lemma bind_threw {A B} (m : JS A) (k : A -> JS B) (s s' : Server) (e : JSError) :
  m s = (Threw e, s') -> bind m k s = (Threw e, s').
Proof. intros H. unfold bind. rewrite H. reflexivity. Qed.

Lemma strategies_notified (op : Op) (s : Server) :
  (if negb (is_null (readPreferenceStrategies s)) then notifyStrategies op None
   else ret tt) s
  = (Returned tt,
     set_trace (trace s ++ hook_calls op (for_in (readPreferenceStrategies s)) None) s).
Proof.
  destruct (readPreferenceStrategies s) eqn:E; cbn [negb is_null].
  - rewrite notifyStrategies_forget, E. reflexivity.
  - unfold ret, hook_calls. cbn [for_in filter map].
    rewrite app_nil_r, set_trace_same. reflexivity.
Qed.

(** The steps the four handlers share, up to the flush. *)
Lemma failed_state_reached (op : Op) (message : Value -> string) (pl : Pool) (s : Server)
    (rest : JS unit) :
  pool s = Some pl ->
  ((if negb (is_null (readPreferenceStrategies s)) then notifyStrategies op None
    else ret tt) ;;
   destroy ;;
   nm <- gets name ;;
   flush (MongoError (message nm)) ;; rest) s
  = rest (failed_state op (message (name s)) pl s).
Proof.
  intros H.
  rewrite (@bind_returned _ _ _ _ _ _ _ (strategies_notified op s)).
  set (s1 := set_trace _ s).
  assert (pool s1 = Some pl) as Hp1 by (unfold s1; destruct s; exact H).
  rewrite (@bind_returned _ _ _ _ _ _ _ (@destroy_detaches s1 pl Hp1)).
  set (s2 := set_trace _ _).
  rewrite bind_gets.
  rewrite (@bind_returned _ _ _ _ _ _ _
             (flush_schedules (MongoError (message (name s2))) s2)).
  f_equal. unfold s2, s1, failed_state. destruct s; cbn.
  rewrite <- app_assoc. reflexivity.
Qed.

Lemma errorHandler_runs (options : Options) (err : Cause) (s : Server) (pl : Pool) :
  pool s = Some pl ->
  errorHandler options err s
  = ((if emitError options then emit (EvError (Original err)) else ret tt) ;;
     (if reconnect options then setTimeout_reconnectServer options else ret tt))
      (failed_state op_error
         ("server " +++ format_s (name s) +++ " received an error " +++ JSON_stringify err)
         pl s).
Proof.
  intros H. unfold errorHandler. rewrite bind_gets.
  exact (@failed_state_reached op_error
           (fun nm => "server " +++ format_s nm +++ " received an error "
                        +++ JSON_stringify err)
           pl s _ H).
Qed.

Lemma fatalErrorHandler_runs (options : Options) (err : Cause) (s : Server) (pl : Pool) :
  pool s = Some pl ->
  fatalErrorHandler options err s
  = (emit (EvError (Original err)) ;;
     (if reconnect options then setTimeout_reconnectServer options else ret tt))
      (failed_state op_error
         ("server " +++ format_s (name s) +++ " received an error " +++ JSON_stringify err)
         pl s).
Proof.
  intros H. unfold fatalErrorHandler. rewrite bind_gets.
  exact (@failed_state_reached op_error
           (fun nm => "server " +++ format_s nm +++ " received an error "
                        +++ JSON_stringify err)
           pl s _ H).
Qed.

Lemma timeoutHandler_runs (options : Options) (err : Cause) (s : Server) (pl : Pool) :
  pool s = Some pl ->
  timeoutHandler options err s
  = (emit (EvTimeout (Original err)) ;;
     (if reconnect options then setTimeout_reconnectServer options else ret tt))
      (failed_state op_timeout ("server " +++ format_s (name s) +++ " timed out") pl s).
Proof.
  intros H. unfold timeoutHandler. rewrite bind_gets.
  exact (@failed_state_reached op_timeout
           (fun nm => "server " +++ format_s nm +++ " timed out") pl s _ H).
Qed.

Lemma closeHandler_runs (options : Options) (err : Cause) (s : Server) (pl : Pool) :
  pool s = Some pl ->
  closeHandler options err s
  = (emit (EvClose (Original err)) ;;
     (if reconnect options then setTimeout_reconnectServer options else ret tt))
      (failed_state op_close ("server " +++ format_s (name s) +++ " sockets closed") pl s).
Proof.
  intros H. unfold closeHandler. rewrite bind_gets.
  exact (@failed_state_reached op_close
           (fun nm => "server " +++ format_s nm +++ " sockets closed") pl s _ H).
Qed.

(** ** Facts about the event emitter *)

Section EventEmitterFacts.
Variables K L : Type.
Variable key_eqb : K -> K -> bool.
Variable fn_eqb : L -> L -> bool.
Hypothesis key_eqb_eq : forall a b, key_eqb a b = true <-> a = b.
Hypothesis fn_eqb_refl : forall f, fn_eqb f f = true.

Lemma key_eqb_refl (a : K) : key_eqb a a = true.
Proof. apply key_eqb_eq. reflexivity. Qed.

Lemma key_eqb_neq (a b : K) : a <> b -> key_eqb a b = false.
Proof.
  intros H. destruct (key_eqb a b) eqn:E; [|reflexivity].
  apply key_eqb_eq in E. contradiction.
Qed.

Lemma listeners_absent (type : K) (ev : Events K L) :
  ~ In type (eventNames ev) -> listeners key_eqb type ev = [].
Proof.
  induction ev as [|[k ls] ev IH]; intros H; simpl in *; [reflexivity|].
  rewrite key_eqb_neq by (intros ->; apply H; left; reflexivity).
  apply IH. intros H'. apply H. right. exact H'.
Qed.

Lemma listeners_present (type : K) (ev : Events K L) :
  listeners key_eqb type ev <> [] -> In type (eventNames ev).
Proof.
  induction ev as [|[k ls] ev IH]; simpl; intros H; [congruence|].
  destruct (key_eqb type k) eqn:E.
  - left. symmetry. apply key_eqb_eq. exact E.
  - right. apply IH. exact H.
Qed.

Lemma listeners_addListener_same (type : K) (l : bool * L) (ev : Events K L) :
  listeners key_eqb type (addListener key_eqb type l ev)
  = listeners key_eqb type ev ++ [l].
Proof.
  induction ev as [|[k ls] ev IH]; simpl.
  - rewrite key_eqb_refl. reflexivity.
  - destruct (key_eqb type k) eqn:E; simpl; rewrite E; [reflexivity | exact IH].
Qed.

Lemma listeners_addListener_other (type type' : K) (l : bool * L) (ev : Events K L) :
  type' <> type ->
  listeners key_eqb type' (addListener key_eqb type l ev)
  = listeners key_eqb type' ev.
Proof.
  intros N. induction ev as [|[k ls] ev IH]; simpl.
  - rewrite key_eqb_neq by exact N. reflexivity.
  - destruct (key_eqb type k) eqn:E; simpl.
    + apply key_eqb_eq in E. subst k.
      rewrite (key_eqb_neq N). reflexivity.
    + rewrite IH. reflexivity.
Qed.

Lemma eventNames_addListener (type : K) (l : bool * L) (ev : Events K L) :
  eventNames (addListener key_eqb type l ev)
  = if existsb (key_eqb type) (eventNames ev) then eventNames ev
    else eventNames ev ++ [type].
Proof.
  unfold eventNames.
  induction ev as [|[k ls] ev IH]; simpl; [reflexivity|].
  destruct (key_eqb type k) eqn:E; simpl; [reflexivity|].
  rewrite IH.
  destruct (existsb (key_eqb type) (map fst ev)); reflexivity.
Qed.

Lemma NoDup_addListener (type : K) (l : bool * L) (ev : Events K L) :
  NoDup (eventNames ev) -> NoDup (eventNames (addListener key_eqb type l ev)).
Proof.
  intros H. rewrite eventNames_addListener.
  destruct (existsb (key_eqb type) (eventNames ev)) eqn:E; [exact H|].
  apply NoDup_app; [exact H | repeat constructor; intros [] | ].
  intros x Hx [Hx'|[]]. subst x.
  assert (existsb (key_eqb type) (eventNames ev) = true) as E'.
  { apply existsb_exists. exists type. split; [exact Hx | apply key_eqb_refl]. }
  congruence.
Qed.

Lemma same_listener_refl (l : bool * L) : same_listener fn_eqb l l = true.
Proof.
  unfold same_listener. rewrite Bool.eqb_reflx, fn_eqb_refl. reflexivity.
Qed.

Lemma eventNames_removeListener_incl (type : K) (l : bool * L) (ev : Events K L) :
  forall x, In x (eventNames (removeListener key_eqb fn_eqb type l ev)) ->
            In x (eventNames ev).
Proof.
  induction ev as [|[k ls] ev IH]; simpl; intros x Hx; [exact Hx|].
  destruct (key_eqb type k) eqn:E.
  - destruct (remove_first fn_eqb l ls); simpl in *; tauto.
  - simpl in Hx. destruct Hx as [Hx|Hx]; [left; exact Hx | right; apply IH; exact Hx].
Qed.

Lemma NoDup_removeListener (type : K) (l : bool * L) (ev : Events K L) :
  NoDup (eventNames ev) ->
  NoDup (eventNames (removeListener key_eqb fn_eqb type l ev)).
Proof.
  induction ev as [|[k ls] ev IH]; simpl; intros H; [exact H|].
  inversion H as [|? ? Hk Hev]; subst.
  destruct (key_eqb type k) eqn:E.
  - destruct (remove_first fn_eqb l ls); simpl; [exact Hev | constructor; assumption].
  - simpl. constructor; [|apply IH; exact Hev].
    intros Hin. apply Hk. eapply eventNames_removeListener_incl. exact Hin.
Qed.

(** Firing the head of the listeners of a type leaves the others. *)
Lemma listeners_removeListener_head (type : K) (l : bool * L)
    (rest : list (bool * L)) (ev : Events K L) :
  NoDup (eventNames ev) ->
  listeners key_eqb type ev = l :: rest ->
  listeners key_eqb type (removeListener key_eqb fn_eqb type l ev) = rest.
Proof.
  induction ev as [|[k ls] ev IH]; simpl; intros ND H; [discriminate|].
  inversion ND as [|? ? Hk Hev]; subst.
  destruct (key_eqb type k) eqn:E.
  - subst ls. simpl. rewrite same_listener_refl.
    destruct rest as [|r rest].
    + apply listeners_absent. apply key_eqb_eq in E. subst k. exact Hk.
    + simpl. rewrite E. reflexivity.
  - simpl. rewrite E. apply IH; assumption.
Qed.

Lemma listeners_removeListener_other (type type' : K) (l : bool * L) (ev : Events K L) :
  type' <> type ->
  listeners key_eqb type' (removeListener key_eqb fn_eqb type l ev)
  = listeners key_eqb type' ev.
Proof.
  intros N. induction ev as [|[k ls] ev IH]; simpl; [reflexivity|].
  destruct (key_eqb type k) eqn:E.
  - apply key_eqb_eq in E. subst k.
    rewrite (key_eqb_neq N).
    destruct (remove_first fn_eqb l ls); simpl;
      [reflexivity | rewrite (key_eqb_neq N); reflexivity].
  - simpl. rewrite IH. reflexivity.
Qed.
End EventEmitterFacts.

Lemma Zeqb_eq (a b : Z) : Z.eqb a b = true <-> a = b.
Proof. apply Z.eqb_eq. Qed.

Lemma CommandListener_eqb_refl (l : CommandListener) : CommandListener_eqb l l = true.
Proof.
  destruct l as [[k|] [|c]]; unfold CommandListener_eqb; simpl;
    rewrite ?Nat.eqb_refl; reflexivity.
Qed.

(** ** Writes *)

(** C9: each of [insert], [update] and [remove], given an empty array of
    operations, throws to its caller at once; the server state is left
    exactly as it was, so nothing was sent to the pool and nothing was
    added to the callback store. *)
Theorem empty_write_throws_synchronously :
  forall (ns : string) (args : WriteArgs) (s : Server),
    insert ns [] args s
    = (Threw (MongoError "insert must contain at least one document"), s)
    /\ update ns [] args s
       = (Threw (MongoError "insert must contain at least one document"), s)
    /\ remove ns [] args s
       = (Threw (MongoError "insert must contain at least one document"), s).
Proof. intros ns args s. repeat split; reflexivity. Qed.

Lemma writeConcern_passed_through (type opsField ns : string) (ops : list nat)
    (v : Value) (w : Obj Value) :
  wc_writeConcern
    (writeCommand type opsField ns ops {| ordered := v; writeConcern := Some w |}) = w
  /\ wc_writeConcern
       (writeCommand type opsField ns ops {| ordered := v; writeConcern := None |}) = [].
Proof. split; reflexivity. Qed.

Lemma ordered_defaults_to_true (type opsField ns : string) (ops : list nat)
    (w : option (Obj Value)) :
  wc_ordered
    (writeCommand type opsField ns ops {| ordered := VUndefined; writeConcern := w |})
  = VBool true.
Proof. reflexivity. Qed.

(** C6 (the code against the claim): whatever boolean the caller supplies
    as [options.ordered], [false] included, the assembled write command
    carries [ordered = true]; on a connected server the frame written for
    [insert('db.coll', [doc], {ordered: false}, cb)] says so. *)
Theorem ordered_false_is_sent_as_true :
  (forall (type opsField ns : string) (ops : list nat) (b : bool)
          (w : option (Obj Value)),
      wc_ordered
        (writeCommand type opsField ns ops {| ordered := VBool b; writeConcern := w |})
      = VBool true)
  /\ last (trace
             (run defaults
                [call_on_error; call_connect; pool_signal Connected;
                 pool_signal (Message (ismaster_reply 0));
                 call_insert "db.coll" [1%nat]
                   (Args_options {| ordered := VBool false; writeConcern := None |}
                      (K_caller 7%nat))]
                (new_Server defaults)))
          PoolNew
     = Write PoolConnection
         {| requestId := 1; q_ns := "db.$cmd";
            q_cmd := Cmd_write
                       {| wc_type := "insert"; wc_target := Some "coll";
                          wc_opsField := "documents"; wc_ops := [1%nat];
                          wc_ordered := VBool true; wc_writeConcern := [] |};
            q_slaveOk := false |}.
Proof.
  split.
  - intros type opsField ns ops b w. destruct b; reflexivity.
  - vm_compute. reflexivity.
Qed.

(** ** command without a connection *)

Lemma command_while_disconnected (ns : string) (cmd : Command) (opts : CommandOptions)
    (k : nat) (s : Server) (pl : Pool) :
  pool s = Some pl ->
  pool_connected pl = false ->
  readPreference opts <> RP_foreign ->
  command ns cmd opts (K_caller k) s
  = (Returned tt,
     set_trace
       (trace s ++
        [Callback k
           (Failure (MongoError ("no connection available to server "
                                   +++ format_s (name s))))]) s).
Proof.
  intros Hp Hc Hr. unfold command.
  destruct (readPreference opts); try congruence;
    unfold bind, pool_isConnected, with_pool, bind, gets;
    rewrite Hp; unfold ret; rewrite Hc; reflexivity.
Qed.

(** C5 (the code against the claim): on a server on which [connect()] was
    never called, [isConnected()] answers [false], yet [command] throws a
    [TypeError] ([pool] is [null]); the continuation is not called and the
    state is unchanged. *)
Theorem command_before_connect_throws :
  forall (options : Options) (ns : string) (cmd : Command) (k : nat),
    isConnected (new_Server options) = (Returned false, new_Server options)
    /\ command ns cmd no_options (K_caller k) (new_Server options)
       = (Threw (TypeError "Cannot read property of null"), new_Server options).
Proof. intros options ns cmd k. split; reflexivity. Qed.

(** ** Duplicate registration *)

(** C8 (as stated, refuted): registering under a pending identifier does
    not fail in the code, while the specification's registry refuses it. *)
Lemma duplicate_registration_succeeds : ~ duplicate_registration_fails.
Proof.
  intros H.
  pose (l := {| l_callback := K_caller 1%nat; l_connection := PoolConnection |}).
  destruct (H (set_callbacks [(7, [(true, l)])] (new_Server defaults)) 7 l) as [e He].
  - simpl. discriminate.
  - discriminate He.
Qed.

Lemma register_spec_refuses_duplicates (id : Z) (l l' : CommandListener) (cbs : Callbacks) :
  register_spec id l' (once Z.eqb id l cbs) = None.
Proof.
  unfold register_spec, once.
  rewrite (listeners_addListener_same Z.eqb Zeqb_eq).
  destruct (listeners Z.eqb id cbs); reflexivity.
Qed.

(** C8 (amended): registering a continuation under a request identifier
    never fails, pending or not; the new continuation is stored after the
    ones already pending under that identifier, which are left unchanged,
    as are the registrations under every other identifier. *)
Theorem duplicate_registration_appends :
  forall (s : Server) (id : Z) (l : CommandListener),
  exists s',
    callbacks_once id l s = (Returned tt, s')
    /\ listeners Z.eqb id (callbacks s')
       = listeners Z.eqb id (callbacks s) ++ [(true, l)]
    /\ forall id', id' <> id ->
         listeners Z.eqb id' (callbacks s') = listeners Z.eqb id' (callbacks s).
Proof.
  intros s id l.
  exists (set_callbacks (once Z.eqb id l (callbacks s)) s).
  split; [reflexivity|]. split.
  - destruct s; simpl. apply (listeners_addListener_same Z.eqb Zeqb_eq).
  - intros id' N. destruct s; simpl.
    apply (listeners_addListener_other Z.eqb Zeqb_eq). exact N.
Qed.

(** ** Observations that are no events *)

Lemma hook_calls_emit_nothing (op : Op) (o : Obj Strategy) (cell : option nat) (e : ServerEvent) :
  ~ In (Emit e) (hook_calls op o cell).
Proof.
  unfold hook_calls. intros H. apply in_map_iff in H.
  destruct H as [x [Hx _]]. discriminate Hx.
Qed.

(** ** Capability negotiation *)

(** C4: when the reply to the ismaster command carries a document whose
    [minWireVersion] is not a number, the negotiator emits one error event
    (its message reads "non supported server version") after the
    end-of-operation hooks, emits no ['connect'], and starts no countdown
    that could announce readiness later: the counters and the scheduler
    queues are as before. *)
Theorem missing_minWireVersion_is_rejected :
  forall (s : Server) (id : Z) (conn : Connection) (doc : Document)
         (docs : list Document),
    listeners Z.eqb id (callbacks s)
    = [(true, {| l_callback := K_ismaster; l_connection := conn |})] ->
    typeof_number (minWireVersion doc) = false ->
    let s' := exec (messageHandler {| responseTo := id; documents := doc :: docs |}) s in
    since s s'
    = hook_calls op_endOperation (for_in (readPreferenceStrategies s)) None
        ++ [Emit (EvError (MongoError "non supported server version"))]
    /\ ~ In (Emit EvConnect) (since s s')
    /\ cells s' = cells s
    /\ timers s' = timers s
    /\ ticks s' = ticks s
    /\ ismaster s' = Some doc.
Proof.
  intros s id conn doc docs Hl Hv s'.
  assert (trace s' = trace s
            ++ hook_calls op_endOperation (for_in (readPreferenceStrategies s)) None
            ++ [Emit (EvError (MongoError "non supported server version"))]
          /\ cells s' = cells s /\ timers s' = timers s /\ ticks s' = ticks s
          /\ ismaster s' = Some doc) as [Ht Hrest].
  { unfold s', exec, messageHandler, callbacks_emit, bind, gets. simpl.
    rewrite Hl. simpl. unfold bind, modify. unfold commandListener, bind.
    rewrite notifyStrategies_forget. simpl.
    unfold bind, modify, gets. simpl. rewrite Hv. simpl.
    destruct s as [retry im rps aps p nm cbs obs tms tks cls rid tr].
    simpl. unfold bind, observe, modify, gets. simpl.
    destruct obs; simpl; rewrite <- app_assoc; repeat split; reflexivity. }
  rewrite (@since_app s s' _ Ht). split; [reflexivity|]. split; [|exact Hrest].
  rewrite in_app_iff. intros [Hh|[He|[]]].
  - exact (hook_calls_emit_nothing _ _ _ _ Hh).
  - discriminate He.
Qed.

Lemma missing_minWireVersion_is_rejected_witness :
  let s := run defaults [call_on_error; call_connect; pool_signal Connected]
             (new_Server defaults) in
  since s (exec (messageHandler (old_reply 0)) s)
  = [Emit (EvError (MongoError "non supported server version"))].
Proof.
  intros s.
  exact (proj1 (@missing_minWireVersion_is_rejected s 0 PoolConnection
                  {| minWireVersion := VUndefined; me := VUndefined |} []
                  eq_refl eq_refl)).
Defined.

(** ** The reconnect loop *)

Lemma run_app (options : Options) (a b : list Input) (s : Server) :
  run options (a ++ b) s = run options b (run options a s).
Proof.
  revert s. induction a as [|i a IH]; intros s; simpl; [reflexivity | apply IH].
Qed.

Lemma run_cons (options : Options) (i : Input) (l : list Input) (s : Server) :
  run options (i :: l) s = run options l (exec (step options i) s).
Proof. reflexivity. Qed.

Lemma failed_attempt_retries (options : Options) (c : Cause) (s : Server) (d : Z)
    (rest : list Z) :
  2 <= reconnectTries options ->
  timers s = d :: rest ->
  run options (failed_attempt c) s = after_failed_attempt options s.
Proof.
  intros Hn Ht.
  destruct s as [retry im rps aps p nm cbs obs tms tks cls rid tr].
  simpl in Ht. subst tms.
  cbv -[Z.sub Z.leb reconnectTries reconnectInterval string_of_Z String.append app].
  destruct (Z.leb (reconnectTries options - 1) 0) eqn:E.
  - apply Z.leb_le in E. lia.
  - cbv -[Z.sub Z.leb reconnectTries reconnectInterval string_of_Z String.append app].
    rewrite <- !app_assoc. reflexivity.
Qed.

Lemma failed_attempts_retry_forever (options : Options) (c : Cause) (n : nat) :
  2 <= reconnectTries options ->
  forall s,
    timers s = [reconnectInterval options] ->
    let s' := run options (concat (repeat (failed_attempt c) n)) s in
    timers s' = [reconnectInterval options]
    /\ trace s' = trace s ++ concat (repeat [PoolNew; PoolConnect; PoolDestroy] n).
Proof.
  intros Hn. induction n as [|n IH]; intros s Ht.
  - simpl. rewrite app_nil_r. split; [exact Ht | reflexivity].
  - cbv zeta.
    change (concat (repeat (failed_attempt c) (S n)))
      with (failed_attempt c ++ concat (repeat (failed_attempt c) n)).
    change (concat (repeat [PoolNew; PoolConnect; PoolDestroy] (S n)))
      with ([PoolNew; PoolConnect; PoolDestroy]
              ++ concat (repeat [PoolNew; PoolConnect; PoolDestroy] n)).
    rewrite run_app.
    rewrite (failed_attempt_retries options c s Hn Ht).
    destruct (IH (after_failed_attempt options s)) as [IH1 IH2].
    + unfold after_failed_attempt. rewrite Ht. destruct s; reflexivity.
    + cbv zeta in IH1, IH2. split; [exact IH1|].
      rewrite IH2. unfold after_failed_attempt. destruct s; simpl.
      rewrite <- app_assoc. reflexivity.
Qed.

(** C2 (the code against the claim): [reconnectServer] resets the retry
    counter on every attempt, so with two or more configured retries (30
    by default) and a pool that always fails, every failed attempt
    schedules the next one: after any number [n] of failed attempts the
    server made [n] connection attempts, emitted nothing, and has a timer
    pending again. *)
Theorem reconnect_never_gives_up :
  forall (options : Options) (c : Cause) (n : nat) (s : Server),
    2 <= reconnectTries options ->
    timers s = [reconnectInterval options] ->
    let s' := run options (concat (repeat (failed_attempt c) n)) s in
    timers s' = [reconnectInterval options]
    /\ since s s' = concat (repeat [PoolNew; PoolConnect; PoolDestroy] n)
    /\ emitted (since s s') = [].
Proof.
  intros options c n s Hn Ht s'.
  destruct (failed_attempts_retry_forever options c n Hn s Ht) as [H1 H2].
  fold s' in H1, H2. split; [exact H1|].
  rewrite (@since_app s s' _ H2). split; [reflexivity|].
  clear. induction n as [|n IH]; simpl; [reflexivity | exact IH].
Qed.

Lemma reconnect_never_gives_up_witness :
  let s := set_timers [1000] (new_Server defaults) in
  let s' := run defaults (concat (repeat (failed_attempt reset) 31)) s in
  timers s' = [1000]
  /\ since s s' = concat (repeat [PoolNew; PoolConnect; PoolDestroy] 31)
  /\ emitted (since s s') = [].
Proof.
  intros s.
  apply (@reconnect_never_gives_up defaults reset 31 s); [vm_compute; discriminate | reflexivity].
Defined.

(** ** Failure signals after a reconnect *)

(** C3 (the code against the claim): after a successful reconnect the
    listener installed for the pool's ['error'] event is the local
    [errorHandler] of [reconnectServer].  An error signal then destroys
    the pool but schedules no flush: the command in flight stays in the
    callback store and its continuation is never called, whereas a close
    signal at the same point fails it. *)
Theorem error_after_reconnect_skips_flush :
  let live := run defaults reconnected_with_pending_command (new_Server defaults) in
  let s := run defaults [pool_signal (Failed e_error reset); next_tick] live in
  let s' := run defaults [pool_signal (Failed e_close reset); next_tick] live in
  isConnected live = (Returned true, live)
  /\ callbacks live
     = [(1, [(true, {| l_callback := K_caller 8; l_connection := PoolConnection |})])]
  /\ callbacks s = callbacks live
  /\ since live s = [PoolDestroy]
  /\ calls 8 (trace s) = 0%nat
  /\ isConnected s = (Returned false, s)
  /\ callbacks s' = []
  /\ since live s'
     = [PoolDestroy; Emit (EvClose (Original reset));
        Callback 8 (Failure (MongoError "server localhost:27017 sockets closed"))].
Proof. vm_compute. repeat split; reflexivity. Qed.

(** ** Countdowns: waiting for plugins *)

Lemma nth_error_update_nth {A} (l : list A) (n : nat) (a x : A) :
  nth_error l n = Some x -> nth_error (update_nth n a l) n = Some a.
Proof.
  revert n. induction l as [|y l IH]; intros [|n] H; simpl in *;
    try discriminate; [reflexivity | apply IH; exact H].
Qed.

Lemma nth_error_new_cell {A} (l : list A) (a : A) :
  nth_error (l ++ [a]) (length l) = Some a.
Proof. induction l as [|y l IH]; simpl; [reflexivity | exact IH]. Qed.

Lemma update_nth_twice {A} (l : list A) (n : nat) (a b : A) :
  update_nth n b (update_nth n a l) = update_nth n b l.
Proof.
  revert n. induction l as [|y l IH]; intros [|n]; simpl;
    try reflexivity. rewrite IH. reflexivity.
Qed.

(** A completion that does not bring the counter to zero only records
    itself and decrements. *)
Lemma plugin_done_counts (options : Options) (name : string) (c : nat)
    (cell : Cell) (s : Server) :
  nth_error (cells s) c = Some cell ->
  count cell - 1 <> 0 ->
  exec (step options (plugin_done name c)) s
  = set_cells (update_nth c {| count := count cell - 1; at_zero := at_zero cell |} (cells s))
      (set_trace (trace s ++ [Done name c]) s).
Proof.
  intros Hc Hn. destruct s as [retry im rps aps p nm cbs obs tms tks cls rid tr].
  simpl in Hc. unfold exec, step, bind, observe, modify, countdown, bind, gets. simpl.
  rewrite Hc. unfold bind, modify. simpl.
  destruct (Z.eqb (count cell - 1) 0) eqn:E.
  - apply Z.eqb_eq in E. contradiction.
  - reflexivity.
Qed.

(** The completion that brings a strategies countdown to zero announces
    readiness. *)
Lemma plugin_done_announces (options : Options) (name : string) (c : nat)
    (s : Server) :
  nth_error (cells s) c
  = Some {| count := 1; at_zero := AfterStrategies announce_connect |} ->
  exec (step options (plugin_done name c)) s
  = set_cells
      (update_nth c {| count := 0; at_zero := AfterStrategies announce_connect |} (cells s))
      (set_trace (trace s ++ [Done name c; Emit EvConnect]) s).
Proof.
  intros Hc. destruct s as [retry im rps aps p nm cbs obs tms tks cls rid tr].
  simpl in Hc. unfold exec, step, bind, observe, modify, countdown, bind, gets. simpl.
  rewrite Hc. simpl. rewrite <- app_assoc. reflexivity.
Qed.

Lemma completions_count_down (options : Options) (c : nat) (k : Countdown)
    (names : list string) :
  forall (s : Server) (n : Z),
    nth_error (cells s) c = Some {| count := n; at_zero := k |} ->
    Z.of_nat (length names) < n ->
    let s' := run options (map (fun name => plugin_done name c) names) s in
    trace s' = trace s ++ map (fun name => Done name c) names
    /\ nth_error (cells s') c
       = Some {| count := n - Z.of_nat (length names); at_zero := k |}
    /\ readPreferenceStrategies s' = readPreferenceStrategies s.
Proof.
  induction names as [|name names IH]; intros s n Hc Hn.
  - simpl. rewrite app_nil_r, Z.sub_0_r. repeat split; [exact Hc].
  - cbv zeta. simpl map. rewrite run_cons.
    assert (n - 1 <> 0) as Hne by (simpl length in Hn; lia).
    rewrite (@plugin_done_counts options name c _ s Hc Hne). simpl count. simpl at_zero.
    set (s1 := set_cells _ _).
    assert (nth_error (cells s1) c = Some {| count := n - 1; at_zero := k |}) as Hc1.
    { unfold s1. destruct s; simpl in *. eapply nth_error_update_nth. exact Hc. }
    assert (Z.of_nat (length names) < n - 1) as Hn1 by (simpl length in Hn; lia).
    destruct (IH s1 (n - 1) Hc1 Hn1) as [Ht [Hcell Hr]].
    cbv zeta in Ht, Hcell, Hr. split; [|split].
    + rewrite Ht. unfold s1. destruct s; simpl. rewrite <- app_assoc. reflexivity.
    + rewrite Hcell.
      replace (n - Z.of_nat (length (name :: names)))
        with (n - 1 - Z.of_nat (length names)) by (simpl length; lia).
      reflexivity.
    + rewrite Hr. unfold s1. destruct s; reflexivity.
Qed.

(** With strategies registered, settling the authentications starts one
    countdown over all of them and calls the connect hook of those that
    define one. *)
Lemma connect_hooks_called (s : Server) (o : Obj Strategy) :
  readPreferenceStrategies s = Some o ->
  o <> [] ->
  exec (call_AuthenticationsCallback authentications_applied) s
  = set_trace (trace s ++ hook_calls op_connect o (Some (length (cells s))))
      (set_cells
         (cells s ++ [{| count := Z.of_nat (length (keys o));
                         at_zero := AfterStrategies announce_connect |}]) s).
Proof.
  intros Hr Ho.
  assert (Z.eqb (Z.of_nat (length (keys o))) 0 = false) as E.
  { apply Z.eqb_neq. destruct o; [congruence | simpl; lia]. }
  destruct s as [retry im rps aps p nm cbs obs tms tks cls rid tr].
  simpl in Hr. subst rps.
  unfold exec, call_AuthenticationsCallback, bind, gets. simpl.
  unfold notifyStrategies, bind, gets. simpl.
  rewrite E.
  unfold new_cell, bind, gets, modify, ret. simpl.
  rewrite (forEach_observe (fun ns => defines (snd ns) op_connect)
             (fun ns => Hook (fst ns) op_connect (Some (length cls)))).
  reflexivity.
Qed.


Lemma hooked_names_registered (o : Obj Strategy) (names : list string) :
  (forall name, In name names ->
     exists strat, In (name, strat) o /\ defines strat op_connect = true) ->
  incl names (keys o).
Proof.
  intros H name Hin. destruct (H name Hin) as [strat [Hs _]].
  unfold keys. apply in_map_iff. exists (name, strat). split; [reflexivity | exact Hs].
Qed.


(** * Further properties of the code *)

(** computes setters and projections on a state given by its fields *)
Ltac unfold_state :=
  cbv [observe modify ret gets
       set_currentReconnectRetry set_ismaster set_readPreferenceStrategies
       set_authProviders set_pool set_name set_callbacks set_error_observed
       set_timers set_ticks set_cells set_nextRequestId set_trace
       currentReconnectRetry ismaster readPreferenceStrategies authProviders
       pool name callbacks error_observed timers ticks cells nextRequestId trace].

(** ** command and its reply *)

Lemma pool_isConnected_answers (s : Server) (pl : Pool) :
  pool s = Some pl -> pool_isConnected s = (Returned (pool_connected pl), s).
Proof.
  intros H. unfold pool_isConnected, with_pool. rewrite bind_gets, H. reflexivity.
Qed.

Lemma command_sends (ns : string) (cmd : Command) (opts : CommandOptions)
    (callback : Continuation) (s : Server) (pl : Pool) :
  pool s = Some pl ->
  pool_connected pl = true ->
  readPreference opts <> RP_foreign ->
  command ns cmd opts callback s = (Returned tt, sent_state ns cmd opts callback s).
Proof.
  intros Hp Hc Hr.
  assert (command ns cmd opts callback s
          = (id <- new_requestId ;;
             rps <- gets readPreferenceStrategies ;;
             (if negb (is_null rps) then notifyStrategies op_startOperation None
              else ret tt) ;;
             callbacks_once id
               {| l_callback := callback; l_connection := connection_used opts |} ;;
             observe (Write (connection_used opts)
                        {| requestId := id; q_ns := ns; q_cmd := cmd;
                           q_slaveOk := slaveOk (readPreference opts) |})) s) as ->.
  { unfold command.
    destruct (readPreference opts); try congruence;
      rewrite (@bind_returned _ _ _ _ _ _ _ (pool_isConnected_answers s Hp));
      rewrite Hc; reflexivity. }
  set (s1 := set_nextRequestId (nextRequestId s + 1) s).
  assert (new_requestId s = (Returned (nextRequestId s), s1)) as H1 by reflexivity.
  rewrite (@bind_returned _ _ _ _ _ _ _ H1).
  rewrite bind_gets.
  rewrite (@bind_returned _ _ _ _ _ _ _ (strategies_notified op_startOperation s1)).
  unfold sent_state, query_of, s1, bind, callbacks_once. destruct s. unfold_state.
  rewrite <- app_assoc. reflexivity.
Qed.

Lemma removeAllListeners_absent {K L} (key_eqb : K -> K -> bool)
    (key_eqb_eq : forall a b, key_eqb a b = true <-> a = b)
    (type : K) (ev : Events K L) :
  ~ In type (eventNames ev) -> removeAllListeners key_eqb type ev = ev.
Proof.
  induction ev as [|[k ls] ev IH]; intros H; simpl in *; [reflexivity|].
  rewrite (key_eqb_neq key_eqb key_eqb_eq) by (intros ->; apply H; left; reflexivity).
  rewrite IH; [reflexivity|]. intros H'. apply H. right. exact H'.
Qed.

Lemma removeListener_single {K L} (key_eqb : K -> K -> bool) (fn_eqb : L -> L -> bool)
    (key_eqb_eq : forall a b, key_eqb a b = true <-> a = b)
    (fn_eqb_refl : forall f, fn_eqb f f = true)
    (type : K) (l : bool * L) (ev : Events K L) :
  NoDup (eventNames ev) ->
  listeners key_eqb type ev = [l] ->
  removeListener key_eqb fn_eqb type l ev = removeAllListeners key_eqb type ev.
Proof.
  induction ev as [|[k ls] ev IH]; simpl; intros ND H; [reflexivity|].
  inversion ND as [|? ? Hk Hev]; subst.
  destruct (key_eqb type k) eqn:E.
  - subst ls. simpl. rewrite (same_listener_refl fn_eqb fn_eqb_refl).
    apply key_eqb_eq in E. subst k.
    symmetry. apply (removeAllListeners_absent key_eqb key_eqb_eq). exact Hk.
  - rewrite IH; [reflexivity | exact Hev | exact H].
Qed.

Lemma removeListener_more {K L} (key_eqb : K -> K -> bool) (fn_eqb : L -> L -> bool)
    (fn_eqb_refl : forall f, fn_eqb f f = true)
    (type : K) (l l' : bool * L) (rest : list (bool * L)) (ev : Events K L) :
  listeners key_eqb type ev = l :: l' :: rest ->
  removeAllListeners key_eqb type (removeListener key_eqb fn_eqb type l ev)
  = removeAllListeners key_eqb type ev.
Proof.
  induction ev as [|[k ls] ev IH]; simpl; intros H; [reflexivity|].
  destruct (key_eqb type k) eqn:E.
  - subst ls. simpl. rewrite (same_listener_refl fn_eqb fn_eqb_refl).
    simpl. rewrite E. reflexivity.
  - simpl. rewrite E, IH; [reflexivity | exact H].
Qed.

Lemma removeAllListeners_addListener_fresh {K L} (key_eqb : K -> K -> bool)
    (key_eqb_eq : forall a b, key_eqb a b = true <-> a = b)
    (type : K) (l : bool * L) (ev : Events K L) :
  ~ In type (eventNames ev) ->
  removeAllListeners key_eqb type (addListener key_eqb type l ev) = ev.
Proof.
  induction ev as [|[k ls] ev IH]; intros H; simpl in *.
  - rewrite (key_eqb_refl key_eqb key_eqb_eq). reflexivity.
  - rewrite (key_eqb_neq key_eqb key_eqb_eq) by (intros ->; apply H; left; reflexivity).
    simpl.
    rewrite (key_eqb_neq key_eqb key_eqb_eq) by (intros ->; apply H; left; reflexivity).
    rewrite IH; [reflexivity|]. intros H'. apply H. right. exact H'.
Qed.

Lemma commandListener_delivers (l : bool * CommandListener) (err : option JSError)
    (res : option Response) (s : Server) :
  caller_once l = true ->
  reply_to (snd l) err res <> None ->
  commandListener (snd l) err res s
  = (Returned tt,
     set_trace (trace s ++ delivery (for_in (readPreferenceStrategies s)) err res l) s).
Proof.
  intros Hl Hr. unfold commandListener.
  rewrite (@bind_returned _ _ _ _ _ _ _ (notifyStrategies_forget op_endOperation s)).
  unfold delivery. unfold caller_once in Hl. apply andb_prop in Hl. destruct Hl as [_ Hl].
  destruct (l_callback (snd l)) as [k|]; [|discriminate Hl].
  destruct err as [e|]; [|destruct res as [r|]; [|exfalso; apply Hr; reflexivity]];
    unfold call, reply_to; destruct s; unfold_state; rewrite <- app_assoc; reflexivity.
Qed.

Lemma fire_callbacks_delivers (id : Z) (err : option JSError) (res : option Response)
    (rest : list (bool * CommandListener)) :
  forall (l : bool * CommandListener) (s : Server),
    Forall (fun x => caller_once x = true) (l :: rest) ->
    (forall x, reply_to x err res <> None) ->
    NoDup (eventNames (callbacks s)) ->
    listeners Z.eqb id (callbacks s) = l :: rest ->
    fire_callbacks id (l :: rest) err res s
    = (Returned tt, delivered_state id err res (l :: rest) s).
Proof.
  induction rest as [|l' rest IH]; intros l s Hall Hargs Hnd Hls.
  - inversion Hall as [|? ? Hl _]; subst.
    assert (fst l = true) as Hf
        by (unfold caller_once in Hl; apply andb_prop in Hl; tauto).
    cbn [fire_callbacks]. rewrite Hf.
    pose (s1 := set_callbacks
                  (removeListener Z.eqb CommandListener_eqb id l (callbacks s)) s).
    assert (modify (fun s0 => set_callbacks
                       (removeListener Z.eqb CommandListener_eqb id l (callbacks s0)) s0) s
            = (Returned tt, s1)) as H1 by reflexivity.
    rewrite (@bind_returned _ _ _ _ _ _ _ H1).
    rewrite (@bind_returned _ _ _ _ _ _ _
               (@commandListener_delivers l err res s1 Hl (Hargs (snd l)))).
    unfold ret, delivered_state, deliveries, s1. cbn [flat_map].
    rewrite (removeListener_single Z.eqb CommandListener_eqb Zeqb_eq
               CommandListener_eqb_refl id (callbacks s) Hnd Hls).
    destruct s; unfold_state. rewrite app_nil_r. reflexivity.
  - inversion Hall as [|? ? Hl Hrest]; subst.
    assert (fst l = true) as Hf
        by (unfold caller_once in Hl; apply andb_prop in Hl; tauto).
    cbn [fire_callbacks]. rewrite Hf.
    pose (s1 := set_callbacks
                  (removeListener Z.eqb CommandListener_eqb id l (callbacks s)) s).
    assert (modify (fun s0 => set_callbacks
                       (removeListener Z.eqb CommandListener_eqb id l (callbacks s0)) s0) s
            = (Returned tt, s1)) as H1 by reflexivity.
    rewrite (@bind_returned _ _ _ _ _ _ _ H1).
    rewrite (@bind_returned _ _ _ _ _ _ _
               (@commandListener_delivers l err res s1 Hl (Hargs (snd l)))).
    set (s2 := set_trace _ s1).
    assert (callbacks s2 = removeListener Z.eqb CommandListener_eqb id l (callbacks s))
      as Hc2 by (unfold s2, s1; destruct s; reflexivity).
    change (fire_callbacks id (l' :: rest) err res s2
            = (Returned tt, delivered_state id err res (l :: l' :: rest) s)).
    rewrite (IH l' s2 Hrest Hargs).
    + f_equal. unfold delivered_state. rewrite Hc2.
      rewrite (removeListener_more Z.eqb CommandListener_eqb CommandListener_eqb_refl
                 id (callbacks s) Hls).
      unfold deliveries, s2, s1. cbn [flat_map].
      destruct s; unfold_state. rewrite <- app_assoc. reflexivity.
    + rewrite Hc2. apply NoDup_removeListener. exact Hnd.
    + rewrite Hc2.
      apply (listeners_removeListener_head Z.eqb CommandListener_eqb Zeqb_eq
               CommandListener_eqb_refl id (callbacks s) Hnd Hls).
Qed.

Lemma callbacks_emit_delivers (id : Z) (err : option JSError) (res : option Response)
    (s : Server) :
  Forall (fun x => caller_once x = true) (listeners Z.eqb id (callbacks s)) ->
  (forall x, reply_to x err res <> None) ->
  NoDup (eventNames (callbacks s)) ->
  listeners Z.eqb id (callbacks s) <> [] ->
  callbacks_emit id err res s
  = (Returned tt,
     delivered_state id err res (listeners Z.eqb id (callbacks s)) s).
Proof.
  intros Hall Hargs Hnd Hne. unfold callbacks_emit. rewrite bind_gets.
  destruct (listeners Z.eqb id (callbacks s)) as [|l rest] eqn:E; [congruence|].
  apply fire_callbacks_delivers; assumption.
Qed.

Lemma callbacks_emit_unknown (id : Z) (err : option JSError) (res : option Response)
    (s : Server) :
  listeners Z.eqb id (callbacks s) = [] ->
  callbacks_emit id err res s = (Returned tt, s).
Proof.
  intros H. unfold callbacks_emit. rewrite bind_gets, H. reflexivity.
Qed.

(** X1: on a connected server, [command] notifies the start-of-operation
    hooks, stores one listener under the frame's request id and writes the
    frame; the matching response then notifies the end-of-operation hooks
    and calls the continuation with the first document of the response and
    the connection used, and takes the listener out again, so that the
    callback store is what it was before the command; the same response
    arriving a second time is dropped without any effect. *)
Theorem command_response_round_trip :
  forall (ns : string) (cmd : Command) (opts : CommandOptions) (k : nat)
         (s : Server) (pl : Pool) (docs : list Document),
    pool s = Some pl ->
    pool_connected pl = true ->
    readPreference opts <> RP_foreign ->
    NoDup (eventNames (callbacks s)) ->
    ~ In (nextRequestId s) (eventNames (callbacks s)) ->
    let r := {| responseTo := nextRequestId s; documents := docs |} in
    let sent := exec (command ns cmd opts (K_caller k)) s in
    let answered := exec (messageHandler r) sent in
    since s sent
    = hook_calls op_startOperation (for_in (readPreferenceStrategies s)) None
        ++ [Write (connection_used opts) (query_of ns cmd opts s)]
    /\ listeners Z.eqb (nextRequestId s) (callbacks sent)
       = [(true, {| l_callback := K_caller k; l_connection := connection_used opts |})]
    /\ since sent answered
       = hook_calls op_endOperation (for_in (readPreferenceStrategies s)) None
           ++ [Callback k (Success {| result := hd_error docs;
                                      connection := connection_used opts |})]
    /\ callbacks answered = callbacks s
    /\ messageHandler r answered = (Returned tt, answered).
Proof.
  intros ns cmd opts k s pl docs Hp Hc Hr Hnd Hfresh r sent answered.
  set (l := {| l_callback := K_caller k; l_connection := connection_used opts |}).
  assert (sent = sent_state ns cmd opts (K_caller k) s) as Hsent.
  { unfold sent, exec. rewrite (command_sends ns cmd opts (K_caller k) s Hp Hc Hr).
    reflexivity. }
  assert (callbacks sent = once Z.eqb (nextRequestId s) l (callbacks s)) as Hcs
      by (rewrite Hsent; destruct s; reflexivity).
  assert (listeners Z.eqb (nextRequestId s) (callbacks sent) = [(true, l)]) as Hls.
  { rewrite Hcs. unfold once.
    rewrite (listeners_addListener_same Z.eqb Zeqb_eq).
    rewrite (listeners_absent Z.eqb Zeqb_eq _ _ Hfresh). reflexivity. }
  assert (NoDup (eventNames (callbacks sent))) as Hnd'.
  { rewrite Hcs. apply (NoDup_addListener Z.eqb Zeqb_eq). exact Hnd. }
  assert (answered
          = delivered_state (nextRequestId s) None (Some r) [(true, l)] sent) as Hans.
  { unfold answered, exec, messageHandler. cbn [responseTo r].
    rewrite callbacks_emit_delivers; rewrite ?Hls; try assumption.
    - reflexivity.
    - repeat constructor.
    - intros x. discriminate.
    - discriminate. }
  assert (callbacks answered = callbacks s) as Hca.
  { rewrite Hans. unfold delivered_state. rewrite Hcs. unfold once.
    transitivity (removeAllListeners Z.eqb (nextRequestId s)
                    (addListener Z.eqb (nextRequestId s) (true, l) (callbacks s)));
      [destruct sent; reflexivity|].
    apply (removeAllListeners_addListener_fresh Z.eqb Zeqb_eq). exact Hfresh. }
  split; [|split; [exact Hls| split; [|split; [exact Hca|]]]].
  - apply since_app. rewrite Hsent. destruct s; reflexivity.
  - apply since_app. rewrite Hans. unfold delivered_state, deliveries, delivery.
    cbn [flat_map l_callback snd reply_to documents l].
    rewrite app_nil_r.
    replace (readPreferenceStrategies sent) with (readPreferenceStrategies s)
      by (rewrite Hsent; destruct s; reflexivity).
    destruct sent; reflexivity.
  - unfold messageHandler. cbn [responseTo r].
    apply callbacks_emit_unknown. rewrite Hca.
    apply (listeners_absent Z.eqb Zeqb_eq). exact Hfresh.
Qed.

Lemma command_response_round_trip_witness :
  let sent := exec (command "db.coll" (Cmd_document 1) no_options (K_caller 7)) live_server in
  since sent (exec (messageHandler {| responseTo := 1; documents := [] |}) sent)
  = [Callback 7 (Success {| result := None; connection := PoolConnection |})].
Proof.
  intros sent.
  refine (proj1 (proj2 (proj2
            (@command_response_round_trip "db.coll" (Cmd_document 1) no_options 7
               live_server _ [] eq_refl eq_refl _ _ _)))).
  - discriminate.
  - vm_compute. constructor.
  - vm_compute. intros [].
Defined.

(** ** Flushing the callback store *)

Lemma next_tick_runs (options : Options) (id : Z) (err : JSError)
    (rest : list (Z * JSError)) (s : Server) :
  ticks s = (id, err) :: rest ->
  step options next_tick s = callbacks_emit id (Some err) None (set_ticks rest s).
Proof.
  intros H. unfold step. rewrite bind_gets, H. reflexivity.
Qed.

Lemma drain_fails_all (options : Options) (err : JSError) (cbs : Callbacks) :
  forall s : Server,
    callbacks s = cbs ->
    callers_store cbs ->
    ticks s = map (fun id => (id, err)) (eventNames cbs) ->
    run options (repeat next_tick (length cbs)) s
    = set_ticks []
        (set_callbacks []
           (set_trace
              (trace s
                 ++ flat_map (fun e => deliveries (for_in (readPreferenceStrategies s))
                                         (Some err) None (snd e)) cbs) s)).
Proof.
  induction cbs as [|[id ls] cbs IH]; intros s Hc [Hnd Hall] Ht.
  - cbn [length repeat run flat_map]. rewrite app_nil_r.
    destruct s; cbn in *; subst. reflexivity.
  - cbn [length repeat]. rewrite run_cons. unfold exec.
    cbn [eventNames map fst] in Ht.
    rewrite (next_tick_runs options s Ht).
    set (s1 := set_ticks _ s).
    inversion Hnd as [|? ? Hid Hnd']; subst.
    inversion Hall as [|? ? [Hne Hls] Hall']; subst. cbn [snd] in Hne, Hls.
    assert (callbacks s1 = (id, ls) :: cbs) as Hc1
        by (unfold s1; destruct s; cbn in *; congruence).
    assert (listeners Z.eqb id (callbacks s1) = ls) as Hl1
        by (rewrite Hc1; cbn; rewrite Z.eqb_refl; reflexivity).
    rewrite callbacks_emit_delivers; rewrite ?Hl1; try assumption.
    + cbn [snd].
      set (s2 := delivered_state id (Some err) None ls s1).
      assert (callbacks s2 = cbs) as Hc2.
      { unfold s2, delivered_state.
        transitivity (removeAllListeners Z.eqb id (callbacks s1));
          [destruct s1; reflexivity|].
        rewrite Hc1. cbn. rewrite Z.eqb_refl.
        apply (removeAllListeners_absent Z.eqb Zeqb_eq). exact Hid. }
      assert (ticks s2 = map (fun id0 => (id0, err)) (eventNames cbs)) as Ht2
          by (unfold s2, delivered_state, s1; destruct s; reflexivity).
      rewrite (IH s2 Hc2 (conj Hnd' Hall') Ht2).
      unfold s2, delivered_state, s1. cbn [flat_map snd].
      destruct s; unfold_state. rewrite <- app_assoc. reflexivity.
    + intros x. discriminate.
    + rewrite Hc1. exact Hnd.
Qed.

(** X2: a flush followed by the deferred turns it scheduled (one per
    pending request id) calls the continuation of every pending command,
    each once, with the failure given to the flush (after the
    end-of-operation hooks), in the order in which the store lists its
    request ids (here the order of their first registration); afterwards
    the store and the deferred queue are empty. *)
Theorem flush_fails_every_pending_command :
  forall (options : Options) (err : JSError) (s : Server),
    callers_store (callbacks s) ->
    ticks s = [] ->
    let s' := run options (repeat next_tick (length (callbacks s))) (exec (flush err) s) in
    callbacks s' = []
    /\ ticks s' = []
    /\ since s s'
       = flat_map (fun e => deliveries (for_in (readPreferenceStrategies s))
                              (Some err) None (snd e)) (callbacks s).
Proof.
  intros options err s Hs Ht s'.
  unfold s', exec. rewrite flush_schedules. cbn [snd]. rewrite Ht. cbn [app].
  set (s1 := set_ticks _ s).
  assert (callbacks s1 = callbacks s) as Hc1 by (unfold s1; destruct s; reflexivity).
  rewrite <- Hc1.
  rewrite (@drain_fails_all options err (callbacks s1) s1 eq_refl).
  - rewrite Hc1. split; [|split]; try (destruct s1; reflexivity).
    apply since_app. unfold s1. destruct s; reflexivity.
  - rewrite Hc1. exact Hs.
  - rewrite Hc1. unfold s1. destruct s; reflexivity.
Qed.

Lemma flush_fails_every_pending_command_witness :
  let s := exec (command "db.b" (Cmd_document 2) no_options (K_caller 8))
             (exec (command "db.a" (Cmd_document 1) no_options (K_caller 7)) live_server) in
  since s (run defaults [next_tick; next_tick] (exec (flush (MongoError "gone")) s))
  = [Callback 7 (Failure (MongoError "gone")); Callback 8 (Failure (MongoError "gone"))].
Proof.
  intros s.
  refine (proj2 (proj2 (@flush_fails_every_pending_command defaults (MongoError "gone") s _ eq_refl))).
  vm_compute. split.
  - apply NoDup_cons; [intros [H|[]]; discriminate H|].
    apply NoDup_cons; [intros []|]. apply NoDup_nil.
  - repeat constructor; discriminate.
Defined.

(** ** Registrations are conserved *)

Lemma calls_app (k : nat) (a b : list Observation) :
  calls k (a ++ b) = (calls k a + calls k b)%nat.
Proof. unfold calls. rewrite filter_app, length_app. reflexivity. Qed.

Lemma calls_hook_calls (k : nat) (op : Op) (o : Obj Strategy) (cell : option nat) :
  calls k (hook_calls op o cell) = 0%nat.
Proof.
  unfold calls, hook_calls.
  induction (filter (fun ns => defines (snd ns) op) o) as [|x l IH]; [reflexivity|].
  exact IH.
Qed.

Lemma calls_deliveries (k : nat) (o : Obj Strategy) (err : option JSError)
    (res : option Response) (ls : list (bool * CommandListener)) :
  Forall (fun x => caller_once x = true) ls ->
  (forall x, reply_to x err res <> None) ->
  calls k (deliveries o err res ls) = length (filter (is_listener_of k) ls).
Proof.
  intros Hall Hargs. induction Hall as [|l ls Hl _ IH]; [reflexivity|].
  unfold deliveries in *. cbn [flat_map filter].
  rewrite calls_app, IH. unfold delivery. rewrite calls_app, calls_hook_calls.
  unfold is_listener_of, caller_once in *.
  apply andb_prop in Hl. destruct Hl as [_ Hl].
  destruct (l_callback (snd l)) as [j|]; [|discriminate Hl].
  destruct (reply_to (snd l) err res) as [r|] eqn:E; [|exfalso; exact (Hargs _ E)].
  unfold calls. cbn [filter is_call_of Continuation_eqb].
  destruct (Nat.eqb j k); reflexivity.
Qed.

Lemma pending_addListener (k : nat) (id : Z) (l : bool * CommandListener)
    (cbs : Callbacks) :
  pending k (addListener Z.eqb id l cbs)
  = (pending k cbs + (if is_listener_of k l then 1 else 0))%nat.
Proof.
  unfold pending, allListeners.
  induction cbs as [|[j ls] cbs IH]; cbn [addListener map concat snd].
  - rewrite app_nil_r. cbn [filter]. destruct (is_listener_of k l); reflexivity.
  - destruct (Z.eqb id j); cbn [map concat snd].
    + rewrite !filter_app, !length_app. cbn [filter].
      destruct (is_listener_of k l); cbn [length]; lia.
    + rewrite !filter_app, !length_app, IH. lia.
Qed.

Lemma pending_split (k : nat) (id : Z) (cbs : Callbacks) :
  NoDup (eventNames cbs) ->
  pending k cbs
  = (length (filter (is_listener_of k) (listeners Z.eqb id cbs))
     + pending k (removeAllListeners Z.eqb id cbs))%nat.
Proof.
  unfold pending, allListeners.
  induction cbs as [|[j ls] cbs IH]; intros Hnd; [reflexivity|].
  inversion Hnd as [|? ? Hj Hnd']; subst.
  cbn [listeners removeAllListeners map concat snd].
  destruct (Z.eqb id j) eqn:E.
  - apply Z.eqb_eq in E. subst j.
    rewrite (removeAllListeners_absent Z.eqb Zeqb_eq id cbs Hj).
    rewrite filter_app, length_app. reflexivity.
  - cbn [map concat snd]. rewrite !filter_app, !length_app, (IH Hnd'). lia.
Qed.

Lemma callers_store_listeners (id : Z) (cbs : Callbacks) :
  callers_store cbs ->
  Forall (fun x => caller_once x = true) (listeners Z.eqb id cbs).
Proof.
  intros [_ Hall]. induction Hall as [|[j ls] cbs [_ Hls] _ IH]; cbn [listeners].
  - constructor.
  - destruct (Z.eqb id j); [exact Hls | exact IH].
Qed.

Lemma eventNames_removeAllListeners_incl {K L} (key_eqb : K -> K -> bool)
    (type : K) (ev : Events K L) :
  forall x, In x (eventNames (removeAllListeners key_eqb type ev)) ->
            In x (eventNames ev).
Proof.
  induction ev as [|[k ls] ev IH]; cbn [removeAllListeners]; intros x Hx; [exact Hx|].
  destruct (key_eqb type k).
  - right. apply IH. exact Hx.
  - destruct Hx as [Hx|Hx]; [left; exact Hx | right; apply IH; exact Hx].
Qed.

Lemma callers_store_removeAllListeners (id : Z) (cbs : Callbacks) :
  callers_store cbs -> callers_store (removeAllListeners Z.eqb id cbs).
Proof.
  intros [Hnd Hall]. split.
  - clear Hall. induction cbs as [|[j ls] cbs IH]; cbn [removeAllListeners]; [exact Hnd|].
    inversion Hnd as [|? ? Hj Hnd']; subst.
    destruct (Z.eqb id j); [apply IH; exact Hnd'|].
    cbn [eventNames map fst]. constructor; [|apply IH; exact Hnd'].
    intros Hin. apply Hj. eapply eventNames_removeAllListeners_incl. exact Hin.
  - clear Hnd. induction Hall as [|[j ls] cbs He _ IH]; cbn [removeAllListeners];
      [constructor|].
    destruct (Z.eqb id j); [exact IH | constructor; [exact He | exact IH]].
Qed.

Lemma callers_store_addListener (id : Z) (l : bool * CommandListener) (cbs : Callbacks) :
  caller_once l = true ->
  callers_store cbs -> callers_store (addListener Z.eqb id l cbs).
Proof.
  intros Hl [Hnd Hall]. split; [apply (NoDup_addListener Z.eqb Zeqb_eq); exact Hnd|].
  clear Hnd. induction Hall as [|[j ls] cbs [Hne Hls] Hall IH]; cbn [addListener].
  - repeat constructor; [discriminate | exact Hl].
  - destruct (Z.eqb id j).
    + constructor; [|exact Hall]. cbn [snd]. split.
      * destruct ls; discriminate.
      * apply Forall_app. split; [exact Hls | repeat constructor; exact Hl].
    + constructor; [split; assumption | exact IH].
Qed.

(** an emit on a store of callers' listeners keeps the store well formed
    and moves listeners of [k] from the store to calls in the trace *)
Lemma callbacks_emit_conserves (k : nat) (id : Z) (err : option JSError)
    (res : option Response) (s : Server) :
  (forall x, reply_to x err res <> None) ->
  callers_store (callbacks s) ->
  let s' := exec (callbacks_emit id err res) s in
  callers_store (callbacks s')
  /\ (pending k (callbacks s') + calls k (trace s')
      = pending k (callbacks s) + calls k (trace s))%nat.
Proof.
  intros Hargs Hs s'.
  destruct (listeners Z.eqb id (callbacks s)) as [|l rest] eqn:E.
  - unfold s', exec. rewrite (callbacks_emit_unknown id err res s E).
    split; [exact Hs | reflexivity].
  - pose proof (@callers_store_listeners id (callbacks s) Hs) as Hall.
    assert (s' = delivered_state id err res (listeners Z.eqb id (callbacks s)) s) as ->.
    { unfold s', exec. rewrite callbacks_emit_delivers; try assumption.
      - reflexivity.
      - exact (proj1 Hs).
      - rewrite E. discriminate. }
    assert (callbacks (delivered_state id err res (listeners Z.eqb id (callbacks s)) s)
            = removeAllListeners Z.eqb id (callbacks s)) as Hc
        by (destruct s; reflexivity).
    assert (trace (delivered_state id err res (listeners Z.eqb id (callbacks s)) s)
            = trace s ++ deliveries (for_in (readPreferenceStrategies s)) err res
                           (listeners Z.eqb id (callbacks s))) as Ht
        by (destruct s; reflexivity).
    rewrite Hc, Ht. split; [apply callers_store_removeAllListeners; exact Hs|].
    rewrite calls_app, (@calls_deliveries k _ err res _ Hall Hargs).
    rewrite (@pending_split k id (callbacks s) (proj1 Hs)). lia.
Qed.

Lemma registry_step_conserves (options : Options) (k : nat) (op : RegistryOp)
    (s : Server) :
  callers_store (callbacks s) ->
  let s' := exec (registry_step options op) s in
  callers_store (callbacks s')
  /\ (pending k (callbacks s') + calls k (trace s')
      = pending k (callbacks s) + calls k (trace s)
        + (if registers k op then 1 else 0))%nat.
Proof.
  intros Hs s'. destruct op as [id j c|r|err|]; unfold s'; cbn [registry_step registers].
  - assert (exec (callbacks_once id {| l_callback := K_caller j; l_connection := c |}) s
            = set_callbacks
                (addListener Z.eqb id
                   (true, {| l_callback := K_caller j; l_connection := c |})
                   (callbacks s)) s) as -> by reflexivity.
    assert (forall v, callbacks (set_callbacks v s) = v) as Hc by (destruct s; reflexivity).
    assert (forall v, trace (set_callbacks v s) = trace s) as Ht by (destruct s; reflexivity).
    rewrite Hc, Ht. split.
    + apply callers_store_addListener; [reflexivity | exact Hs].
    + rewrite pending_addListener. unfold is_listener_of.
      cbn [snd l_callback Continuation_eqb]. lia.
  - rewrite Nat.add_0_r. unfold messageHandler.
    apply callbacks_emit_conserves; [intros x; discriminate | exact Hs].
  - rewrite Nat.add_0_r. unfold exec. rewrite flush_schedules. cbn [snd].
    destruct s; split; [exact Hs | reflexivity].
  - rewrite Nat.add_0_r. destruct (ticks s) as [|[id err] rest] eqn:E.
    + assert (exec (step options next_tick) s = s) as ->.
      { unfold exec, step. rewrite bind_gets, E. reflexivity. }
      split; [exact Hs | reflexivity].
    + unfold exec. rewrite (next_tick_runs options s E).
      assert (callbacks (set_ticks rest s) = callbacks s) as Hc
          by (destruct s; reflexivity).
      assert (trace (set_ticks rest s) = trace s) as Ht by (destruct s; reflexivity).
      rewrite <- Hc, <- Ht.
      apply (@callbacks_emit_conserves k id (Some err) None (set_ticks rest s)).
      * intros x. discriminate.
      * rewrite Hc. exact Hs.
Qed.

(** X3: over every interleaving of registrations, responses, flushes and
    deferred turns on a store of callers' listeners, each continuation is
    accounted for: the listeners still holding it plus the calls made to
    it equal what they were at the start plus the number of times it was
    registered.  A continuation registered once is therefore never called
    twice, whatever responses and flushes follow. *)
Theorem registrations_are_conserved :
  forall (options : Options) (k : nat) (ops : list RegistryOp) (s : Server),
    callers_store (callbacks s) ->
    let s' := registry_run options ops s in
    (pending k (callbacks s') + calls k (trace s')
     = pending k (callbacks s) + calls k (trace s) + registrations k ops)%nat.
Proof.
  intros options k ops. induction ops as [|op ops IH]; intros s Hs.
  - cbn. lia.
  - cbn [registry_run]. cbv zeta.
    destruct (registry_step_conserves options k op s Hs) as [Hs1 H1].
    cbv zeta in Hs1, H1. pose proof (IH _ Hs1) as H2. cbv zeta in H2.
    rewrite H2, H1. unfold registrations. cbn [filter].
    destruct (registers k op); cbn [length]; lia.
Qed.

Lemma registrations_are_conserved_witness :
  let ops := [Register 5 7 PoolConnection; Flush (MongoError "gone");
              Respond {| responseTo := 5; documents := [] |}; Tick; Flush (MongoError "gone");
              Tick] in
  let s' := registry_run defaults ops live_server in
  (pending 7 (callbacks s') + calls 7 (trace s') = 1)%nat.
Proof.
  intros ops s'.
  refine (@registrations_are_conserved defaults 7 ops live_server _).
  vm_compute. split; constructor.
Defined.

(** ** Every continuation is called exactly once *)

Lemma removeAllListeners_comm (a b : Z) (cbs : Callbacks) :
  removeAllListeners Z.eqb a (removeAllListeners Z.eqb b cbs)
  = removeAllListeners Z.eqb b (removeAllListeners Z.eqb a cbs).
Proof.
  induction cbs as [|[j ls] cbs IH]; [reflexivity|]. cbn [removeAllListeners].
  destruct (Z.eqb b j) eqn:Eb, (Z.eqb a j) eqn:Ea; cbn [removeAllListeners];
    rewrite ?Ea, ?Eb, ?IH; reflexivity.
Qed.

Lemma removeAllListeners_addListener_other (a b : Z) (l : bool * CommandListener)
    (cbs : Callbacks) :
  a <> b ->
  removeAllListeners Z.eqb a (addListener Z.eqb b l cbs)
  = addListener Z.eqb b l (removeAllListeners Z.eqb a cbs).
Proof.
  intros N. assert (Z.eqb a b = false) as Eab by (apply Z.eqb_neq; exact N).
  induction cbs as [|[j ls] cbs IH]; cbn [addListener removeAllListeners].
  - rewrite Eab. reflexivity.
  - destruct (Z.eqb b j) eqn:Eb.
    + apply Z.eqb_eq in Eb. subst j. cbn [removeAllListeners]. rewrite Eab.
      cbn [addListener]. rewrite Z.eqb_refl. reflexivity.
    + cbn [removeAllListeners]. destruct (Z.eqb a j); [exact IH|].
      cbn [addListener]. rewrite Eb, IH. reflexivity.
Qed.

Lemma removeAllListeners_addListener_same (a : Z) (l : bool * CommandListener)
    (cbs : Callbacks) :
  removeAllListeners Z.eqb a (addListener Z.eqb a l cbs) = removeAllListeners Z.eqb a cbs.
Proof.
  induction cbs as [|[j ls] cbs IH]; cbn [addListener removeAllListeners].
  - rewrite Z.eqb_refl. reflexivity.
  - destruct (Z.eqb a j) eqn:E; cbn [removeAllListeners]; rewrite E;
      [reflexivity | rewrite IH; reflexivity].
Qed.

Lemma listeners_removeAllListeners_other (a b : Z) (cbs : Callbacks) :
  a <> b ->
  listeners Z.eqb a (removeAllListeners Z.eqb b cbs) = listeners Z.eqb a cbs.
Proof.
  intros N. induction cbs as [|[j ls] cbs IH]; [reflexivity|].
  cbn [removeAllListeners listeners].
  destruct (Z.eqb b j) eqn:Eb.
  - apply Z.eqb_eq in Eb. subst j.
    replace (Z.eqb a b) with false by (symmetry; apply Z.eqb_neq; exact N). exact IH.
  - cbn [listeners]. destruct (Z.eqb a j); [reflexivity | exact IH].
Qed.

Lemma pending_removeAllListeners_le (k : nat) (a : Z) (cbs : Callbacks) :
  (pending k (removeAllListeners Z.eqb a cbs) <= pending k cbs)%nat.
Proof.
  unfold pending, allListeners.
  induction cbs as [|[j ls] cbs IH]; [apply Nat.le_refl|].
  cbn [removeAllListeners]. destruct (Z.eqb a j); cbn [map concat snd];
    rewrite !filter_app, !length_app; lia.
Qed.

Lemma In_allListeners_addListener (x l : bool * CommandListener) (id : Z)
    (cbs : Callbacks) :
  In x (allListeners (addListener Z.eqb id l cbs)) -> In x (allListeners cbs) \/ x = l.
Proof.
  unfold allListeners.
  induction cbs as [|[j ls] cbs IH]; cbn [addListener map concat snd app].
  - intros [H|[]]. right. symmetry. exact H.
  - destruct (Z.eqb id j); cbn [map concat snd]; rewrite !in_app_iff.
    + intros [[H|[H|[]]]|H]; [left; left; exact H | right; symmetry; exact H
                               | left; right; exact H].
    + intros [H|H]; [left; left; exact H|].
      destruct (IH H) as [H'|H']; [left; right; exact H' | right; exact H'].
Qed.

Lemma In_allListeners_removeAllListeners (x : bool * CommandListener) (id : Z)
    (cbs : Callbacks) :
  In x (allListeners (removeAllListeners Z.eqb id cbs)) -> In x (allListeners cbs).
Proof.
  unfold allListeners.
  induction cbs as [|[j ls] cbs IH]; cbn [removeAllListeners]; [tauto|].
  destruct (Z.eqb id j); cbn [map concat snd]; rewrite !in_app_iff.
  - intros H. right. exact (IH H).
  - intros [H|H]; [left; exact H | right; exact (IH H)].
Qed.

Lemma In_listeners_allListeners (x : bool * CommandListener) (id : Z) (cbs : Callbacks) :
  In x (listeners Z.eqb id cbs) -> In x (allListeners cbs).
Proof.
  unfold allListeners.
  induction cbs as [|[j ls] cbs IH]; cbn [listeners map concat snd]; [tauto|].
  rewrite in_app_iff. destruct (Z.eqb id j); [left; assumption | right; apply IH; assumption].
Qed.

Lemma pending_positive (k : nat) (l : bool * CommandListener) (cbs : Callbacks) :
  In l (allListeners cbs) -> is_listener_of k l = true -> (0 < pending k cbs)%nat.
Proof.
  intros Hin Hl. unfold pending.
  assert (In l (filter (is_listener_of k) (allListeners cbs))) as H
      by (apply filter_In; split; assumption).
  destruct (filter (is_listener_of k) (allListeners cbs)); [destruct H | cbn; lia].
Qed.

Lemma callers_store_unknown (id : Z) (cbs : Callbacks) :
  callers_store cbs -> listeners Z.eqb id cbs = [] -> ~ In id (eventNames cbs).
Proof.
  intros [_ Hall]. induction Hall as [|[j ls] cbs [Hne _] _ IH]; cbn [listeners eventNames map fst].
  - tauto.
  - destruct (Z.eqb id j) eqn:E.
    + intros H. cbn [snd] in Hne. contradiction.
    + intros H [Hj|Hin]; [apply Z.eqb_neq in E; congruence | exact (IH H Hin)].
Qed.

(** an emit on a store of callers' listeners, whether or not the request
    id is pending *)
Lemma callbacks_emit_effect (id : Z) (err : option JSError) (res : option Response)
    (s : Server) :
  (forall x, reply_to x err res <> None) ->
  callers_store (callbacks s) ->
  let s' := exec (callbacks_emit id err res) s in
  callbacks s' = removeAllListeners Z.eqb id (callbacks s)
  /\ trace s' = trace s ++ deliveries (for_in (readPreferenceStrategies s)) err res
                             (listeners Z.eqb id (callbacks s))
  /\ ticks s' = ticks s.
Proof.
  intros Hargs Hs s'. unfold s', exec.
  destruct (listeners Z.eqb id (callbacks s)) as [|l rest] eqn:E.
  - rewrite (callbacks_emit_unknown id err res s E). cbn [snd deliveries flat_map].
    rewrite (removeAllListeners_absent Z.eqb Zeqb_eq id (callbacks s)
               (@callers_store_unknown id _ Hs E)), app_nil_r.
    repeat split.
  - rewrite callbacks_emit_delivers.
    + rewrite E. destruct s; repeat split.
    + apply callers_store_listeners. exact Hs.
    + exact Hargs.
    + exact (proj1 Hs).
    + rewrite E. discriminate.
Qed.

(** what one operation on the store does to the store, the trace and the
    deferred queue *)
Lemma registry_step_effect (options : Options) (op : RegistryOp) (s : Server) :
  callers_store (callbacks s) ->
  let s' := exec (registry_step options op) s in
  match op with
  | Register i j c =>
      callbacks s' = addListener Z.eqb i (listener_for j c) (callbacks s)
      /\ trace s' = trace s /\ ticks s' = ticks s
  | Respond res =>
      callbacks s' = removeAllListeners Z.eqb (responseTo res) (callbacks s)
      /\ trace s' = trace s ++ deliveries (for_in (readPreferenceStrategies s)) None
                                 (Some res) (listeners Z.eqb (responseTo res) (callbacks s))
      /\ ticks s' = ticks s
  | Flush err =>
      callbacks s' = callbacks s /\ trace s' = trace s
      /\ ticks s' = ticks s ++ map (fun i => (i, err)) (eventNames (callbacks s))
  | Tick =>
      match ticks s with
      | [] => s' = s
      | (i, e) :: rest =>
          callbacks s' = removeAllListeners Z.eqb i (callbacks s)
          /\ trace s' = trace s ++ deliveries (for_in (readPreferenceStrategies s)) (Some e)
                                     None (listeners Z.eqb i (callbacks s))
          /\ ticks s' = rest
      end
  end.
Proof.
  intros Hs s'. unfold s'. destruct op as [i j c|res|err|]; cbn [registry_step].
  - destruct s; repeat split.
  - unfold messageHandler. apply callbacks_emit_effect; [intros x; discriminate | exact Hs].
  - unfold exec. rewrite flush_schedules. destruct s; repeat split.
  - destruct (ticks s) as [|[i e] rest] eqn:E.
    + unfold exec, step. rewrite bind_gets, E. reflexivity.
    + unfold exec. rewrite (next_tick_runs options s E).
      assert (callbacks (set_ticks rest s) = callbacks s
              /\ trace (set_ticks rest s) = trace s
              /\ readPreferenceStrategies (set_ticks rest s) = readPreferenceStrategies s
              /\ ticks (set_ticks rest s) = rest) as [Hc [Ht [Hr Hk]]]
          by (destruct s; repeat split).
      rewrite <- Hc, <- Ht, <- Hr, <- Hk at 1.
      apply (@callbacks_emit_effect i (Some e) None (set_ticks rest s)).
      * intros x. discriminate.
      * rewrite Hc. exact Hs.
Qed.

Lemma In_deliveries (k : nat) (r : Reply) (o : Obj Strategy) (err : option JSError)
    (res : option Response) (ls : list (bool * CommandListener)) :
  In (Callback k r) (deliveries o err res ls) ->
  exists l, In l ls /\ is_listener_of k l = true /\ reply_to (snd l) err res = Some r.
Proof.
  unfold deliveries. intros H. apply in_flat_map in H. destruct H as [l [Hl H]].
  exists l. split; [exact Hl|]. unfold delivery in H. apply in_app_iff in H.
  destruct H as [H|H].
  - unfold hook_calls in H. apply in_map_iff in H. destruct H as [x [Hx _]]. discriminate Hx.
  - unfold is_listener_of. destruct (l_callback (snd l)) as [j|]; [|destruct H].
    destruct (reply_to (snd l) err res) as [r'|]; [|destruct H].
    destruct H as [H|[]]. injection H as -> ->.
    cbn [Continuation_eqb]. rewrite Nat.eqb_refl. split; reflexivity.
Qed.

Lemma held_listeners (k : nat) (id i : Z) (conn : Connection) (cbs : Callbacks)
    (l : bool * CommandListener) :
  held_under k id conn cbs ->
  In l (listeners Z.eqb i cbs) -> is_listener_of k l = true ->
  i = id /\ l_connection (snd l) = conn.
Proof.
  intros [Hhome Hconn] Hin Hl. split.
  - destruct (Z.eq_dec i id) as [E|N]; [exact E|]. exfalso.
    rewrite <- (@listeners_removeAllListeners_other i id cbs N) in Hin.
    pose proof (@pending_positive k l _ (In_listeners_allListeners _ _ _ Hin) Hl). lia.
  - exact (proj1 (Forall_forall _ _) Hconn l (In_listeners_allListeners _ _ _ Hin) Hl).
Qed.

Lemma held_under_removeAllListeners (k : nat) (id i : Z) (conn : Connection)
    (cbs : Callbacks) :
  held_under k id conn cbs -> held_under k id conn (removeAllListeners Z.eqb i cbs).
Proof.
  intros [Hhome Hconn]. split.
  - rewrite removeAllListeners_comm.
    pose proof (pending_removeAllListeners_le k i (removeAllListeners Z.eqb id cbs)). lia.
  - apply Forall_forall. intros x Hx.
    exact (proj1 (Forall_forall _ _) Hconn x (In_allListeners_removeAllListeners _ _ _ Hx)).
Qed.

Lemma held_under_addListener (k j : nat) (id i : Z) (conn c : Connection)
    (cbs : Callbacks) :
  j <> k ->
  held_under k id conn cbs ->
  held_under k id conn (addListener Z.eqb i (listener_for j c) cbs).
Proof.
  intros N [Hhome Hconn].
  assert (is_listener_of k (listener_for j c) = false) as Hl.
  { unfold is_listener_of, listener_for. cbn. apply Nat.eqb_neq. exact N. }
  split.
  - destruct (Z.eq_dec id i) as [<-|Ni].
    + rewrite removeAllListeners_addListener_same. exact Hhome.
    + rewrite removeAllListeners_addListener_other by exact Ni.
      rewrite pending_addListener, Hl. lia.
  - apply Forall_forall. intros x Hx Hk.
    destruct (In_allListeners_addListener _ _ _ _ Hx) as [H | ->]; [|congruence].
    exact (proj1 (Forall_forall _ _) Hconn x H Hk).
Qed.

Lemma held_under_pending (k : nat) (id : Z) (conn : Connection) (cbs : Callbacks) :
  callers_store cbs -> held_under k id conn cbs ->
  (0 < pending k cbs)%nat -> In id (eventNames cbs).
Proof.
  intros [Hnd _] [Hhome _] Hp.
  rewrite (@pending_split k id cbs Hnd), Hhome in Hp.
  apply (listeners_present Z.eqb Zeqb_eq).
  destruct (listeners Z.eqb id cbs); [cbn in Hp; lia | discriminate].
Qed.

(** one operation that does not register [k] keeps the store well formed
    and [k] where it is held, calls [k] only as a response to [id] or a
    flush allows, and defers a failure for [id] only in a flush *)
Lemma registry_step_resolves (options : Options) (k : nat) (id : Z) (conn : Connection)
    (op : RegistryOp) (s : Server) :
  callers_store (callbacks s) ->
  held_under k id conn (callbacks s) ->
  registers k op = false ->
  let s' := exec (registry_step options op) s in
  callers_store (callbacks s')
  /\ held_under k id conn (callbacks s')
  /\ (pending k (callbacks s') <= pending k (callbacks s))%nat
  /\ (forall r, In (Callback k r) (trace s') ->
        In (Callback k r) (trace s) \/ resolved_by id conn [op] (ticks s) r)
  /\ (forall e, In (id, e) (ticks s') -> In (id, e) (ticks s) \/ op = Flush e)
  /\ ((exists res, op = Respond res /\ responseTo res = id) ->
      pending k (callbacks s') = 0%nat)
  /\ ((exists err, op = Flush err)
      \/ ((0 < pending k (callbacks s))%nat -> In id (map fst (ticks s))) ->
      (0 < pending k (callbacks s'))%nat -> In id (map fst (ticks s'))).
Proof.
  intros Hs Hh Hreg s'.
  pose proof (registry_step_conserves options k op s Hs) as [Hs' _]. fold s' in Hs'.
  pose proof (registry_step_effect options op s Hs) as He. fold s' in He. cbv zeta in He.
  split; [exact Hs'|].
  destruct op as [i j c|res|err|].
  - destruct He as [Hc [Ht Hk]]. rewrite Hc, Ht, Hk.
    assert (j <> k) as N by (cbn in Hreg; apply Nat.eqb_neq; exact Hreg).
    assert (is_listener_of k (listener_for j c) = false) as Hl.
    { unfold is_listener_of, listener_for. cbn. apply Nat.eqb_neq. exact N. }
    assert (pending k (addListener Z.eqb i (listener_for j c) (callbacks s))
            = pending k (callbacks s)) as Hp
        by (rewrite pending_addListener, Hl; lia).
    rewrite Hp.
    split; [apply held_under_addListener; assumption|].
    split; [apply Nat.le_refl|].
    split; [intros r H; left; exact H|].
    split; [intros e H; left; exact H|].
    split; [intros [res [H _]]; discriminate H|].
    intros [[err H]|H]; [discriminate H | exact H].
  - destruct He as [Hc [Ht Hk]]. rewrite Hc, Ht, Hk.
    split; [apply held_under_removeAllListeners; exact Hh|].
    split; [apply pending_removeAllListeners_le|].
    split.
    { intros r H. apply in_app_iff in H. destruct H as [H|H]; [left; exact H|].
      right. left. apply In_deliveries in H. destruct H as [l [Hin [Hl Hr]]].
      destruct (@held_listeners k id _ conn _ l Hh Hin Hl) as [Hid Hconn].
      exists res. split; [left; reflexivity|]. split; [exact Hid|].
      cbn [reply_to] in Hr. injection Hr as <-. rewrite Hconn. reflexivity. }
    split; [intros e H; left; exact H|].
    split; [intros [res' [H Hid]]; injection H as <-; rewrite Hid; exact (proj1 Hh)|].
    intros [[err H]|H] Hp; [discriminate H|]. apply H.
    pose proof (pending_removeAllListeners_le k (responseTo res) (callbacks s)). lia.
  - destruct He as [Hc [Ht Hk]]. rewrite Hc, Ht, Hk.
    split; [exact Hh|].
    split; [apply Nat.le_refl|].
    split; [intros r H; left; exact H|].
    split.
    { intros e H. apply in_app_iff in H. destruct H as [H|H]; [left; exact H|].
      right. apply in_map_iff in H. destruct H as [x [Hx _]]. congruence. }
    split; [intros [res [H _]]; discriminate H|].
    intros _ Hp. rewrite map_app, map_map. cbn [fst]. rewrite map_id.
    apply in_or_app. right. exact (held_under_pending Hs Hh Hp).
  - destruct (ticks s) as [|[i e] rest] eqn:E.
    + rewrite He, E.
      split; [exact Hh|].
      split; [apply Nat.le_refl|].
      split; [intros r H; left; exact H|].
      split; [intros e H; left; exact H|].
      split; [intros [res [H _]]; discriminate H|].
      intros [[err H]|H]; [discriminate H | exact H].
    + destruct He as [Hc [Ht Hk]]. rewrite Hc, Ht, Hk.
      split; [apply held_under_removeAllListeners; exact Hh|].
      split; [apply pending_removeAllListeners_le|].
      split.
      { intros r H. apply in_app_iff in H. destruct H as [H|H]; [left; exact H|].
        right. right. apply In_deliveries in H. destruct H as [l [Hin [Hl Hr]]].
        destruct (@held_listeners k id _ conn _ l Hh Hin Hl) as [Hid _].
        exists e. split; [right; left; rewrite Hid; reflexivity|].
        cbn [reply_to] in Hr. injection Hr as <-. reflexivity. }
      split; [intros e' H; left; right; exact H|].
      split; [intros [res [H _]]; discriminate H|].
      intros [[err H]|H] Hp; [discriminate H|].
      pose proof (pending_removeAllListeners_le k i (callbacks s)) as Hle.
      assert (In id (map fst ((i, e) :: rest))) as Hin by (apply H; lia).
      destruct Hin as [Hi|Hin]; [|exact Hin].
      cbn [fst] in Hi. subst i. rewrite (proj1 Hh) in Hp. lia.
Qed.

Lemma resolved_by_more (id : Z) (conn : Connection) (op : RegistryOp)
    (ops : list RegistryOp) (ts ts' : list (Z * JSError)) (r : Reply) :
  (forall e, In (id, e) ts' -> In (id, e) ts \/ op = Flush e) ->
  resolved_by id conn [op] ts r \/ resolved_by id conn ops ts' r ->
  resolved_by id conn (op :: ops) ts r.
Proof.
  intros Hts [[[res [[H|[]] Hr]]|[err [[[H|[]]|H] Hr]]]|[[res [H Hr]]|[err [[H|H] Hr]]]].
  - left. exists res. split; [left; exact H | exact Hr].
  - right. exists err. split; [left; left; exact H | exact Hr].
  - right. exists err. split; [right; exact H | exact Hr].
  - left. exists res. split; [right; exact H | exact Hr].
  - right. exists err. split; [left; right; exact H | exact Hr].
  - right. exists err. split; [|exact Hr].
    destruct (Hts err H) as [H'|H']; [right; exact H' | left; left; exact H'].
Qed.

(** a run of operations that never register [k] *)
Lemma registry_run_resolves (options : Options) (k : nat) (id : Z) (conn : Connection)
    (ops : list RegistryOp) :
  forall s : Server,
    callers_store (callbacks s) ->
    held_under k id conn (callbacks s) ->
    registrations k ops = 0%nat ->
    let s' := registry_run options ops s in
    (pending k (callbacks s') + calls k (trace s')
     = pending k (callbacks s) + calls k (trace s))%nat
    /\ (pending k (callbacks s') <= pending k (callbacks s))%nat
    /\ (forall r, In (Callback k r) (trace s') ->
          In (Callback k r) (trace s) \/ resolved_by id conn ops (ticks s) r)
    /\ ((exists res, In (Respond res) ops /\ responseTo res = id) ->
        pending k (callbacks s') = 0%nat)
    /\ ((exists err, In (Flush err) ops)
        \/ ((0 < pending k (callbacks s))%nat -> In id (map fst (ticks s))) ->
        ticks s' = [] -> pending k (callbacks s') = 0%nat).
Proof.
  induction ops as [|op ops IH]; intros s Hs Hh Hreg; cbn [registry_run]; cbv zeta.
  - split; [reflexivity|]. split; [apply Nat.le_refl|].
    split; [intros r H; left; exact H|].
    split; [intros [res [[] _]]|].
    intros [[err []]|H] Ht. rewrite Ht in H.
    destruct (pending k (callbacks s)); [reflexivity|]. exfalso. apply H. lia.
  - assert (registers k op = false /\ registrations k ops = 0%nat) as [Hop Hops].
    { unfold registrations in *. cbn [filter] in Hreg.
      destruct (registers k op); [discriminate Hreg | split; [reflexivity | exact Hreg]]. }
    pose proof (registry_step_conserves options k op s Hs) as [_ Hcount].
    destruct (@registry_step_resolves options k id conn op s Hs Hh Hop)
      as [Hs1 [Hh1 [Hle1 [Hcalls1 [Hticks1 [Hresp1 Hflush1]]]]]].
    cbv zeta in Hcount. rewrite Hop, Nat.add_0_r in Hcount.
    set (s1 := exec (registry_step options op) s) in *.
    destruct (IH s1 Hs1 Hh1 Hops) as [Hc [Hle [Hcalls [Hresp Hflush]]]].
    cbv zeta in Hc, Hle, Hcalls, Hresp, Hflush.
    split; [lia|]. split; [lia|].
    split.
    { intros r H. destruct (Hcalls r H) as [H1|H1].
      - destruct (Hcalls1 r H1) as [H2|H2]; [left; exact H2|].
        right. apply (@resolved_by_more id conn op ops (ticks s) (ticks s1) r Hticks1).
        left. exact H2.
      - right. apply (@resolved_by_more id conn op ops (ticks s) (ticks s1) r Hticks1).
        right. exact H1. }
    split.
    { intros [res [[H|H] Hid]].
      - assert (pending k (callbacks s1) = 0%nat) as Hz
            by (apply Hresp1; exists res; split; [exact H | exact Hid]).
        lia.
      - apply Hresp. exists res. split; [exact H | exact Hid]. }
    intros [[err [H|H]]|H] Ht.
    + apply Hflush; [right; apply Hflush1; left; exists err; exact H | exact Ht].
    + apply Hflush; [left; exists err; exact H | exact Ht].
    + apply Hflush; [right; apply Hflush1; right; exact H | exact Ht].
Qed.

Lemma never_called (k : nat) (r : Reply) (t : list Observation) :
  calls k t = 0%nat -> ~ In (Callback k r) t.
Proof.
  unfold calls. intros H Hin.
  assert (In (Callback k r) (filter (is_call_of k) t)) as Hf.
  { apply filter_In. split; [exact Hin|]. cbn. apply Nat.eqb_refl. }
  destruct (filter (is_call_of k) t); [destruct Hf | discriminate H].
Qed.

(** C1: a continuation registered once in the callback store, under a
    fresh request id, is called exactly once, whatever registrations of
    other continuations, responses, flushes and deferred turns follow: at
    every moment it is either still held by the store and not yet called,
    or called once and held no more; never twice.  What it is called with
    is the first document of a response to its request id (with the
    connection it was registered with), or the failure given to a flush.
    And it is called: a response to its request id calls it, and so does a
    flush once the deferred turns it scheduled have run. *)
Theorem continuation_called_exactly_once :
  forall (options : Options) (k : nat) (id : Z) (conn : Connection)
         (ops : list RegistryOp) (s : Server),
    callers_store (callbacks s) ->
    pending k (callbacks s) = 0%nat ->
    calls k (trace s) = 0%nat ->
    ~ In id (map fst (ticks s)) ->
    registrations k ops = 0%nat ->
    let s' := registry_run options (Register id k conn :: ops) s in
    (pending k (callbacks s') + calls k (trace s') = 1)%nat
    /\ (forall r, In (Callback k r) (trace s') ->
          (exists res, In (Respond res) ops /\ responseTo res = id
                       /\ r = Success {| result := hd_error (documents res);
                                         connection := conn |})
          \/ (exists err, In (Flush err) ops /\ r = Failure err))
    /\ ((exists res, In (Respond res) ops /\ responseTo res = id) ->
        calls k (trace s') = 1%nat)
    /\ ((exists err, In (Flush err) ops) -> ticks s' = [] -> calls k (trace s') = 1%nat).
Proof.
  intros options k id conn ops s Hs Hp Hc Hid Hreg s'.
  unfold s'. cbn [registry_run].
  pose proof (registry_step_conserves options k (Register id k conn) s Hs) as [Hs0 _].
  pose proof (registry_step_effect options (Register id k conn) s Hs) as [Hc0 [Ht0 Hk0]].
  set (s0 := exec (registry_step options (Register id k conn)) s) in *.
  assert (is_listener_of k (listener_for k conn) = true) as Hl
      by (unfold is_listener_of, listener_for; cbn; apply Nat.eqb_refl).
  assert (pending k (callbacks s0) = 1%nat) as Hp0
      by (rewrite Hc0, pending_addListener, Hl, Hp; reflexivity).
  assert (held_under k id conn (callbacks s0)) as Hh0.
  { rewrite Hc0. split.
    - rewrite removeAllListeners_addListener_same.
      pose proof (pending_removeAllListeners_le k id (callbacks s)). lia.
    - apply Forall_forall. intros x Hx Hk.
      destruct (In_allListeners_addListener _ _ _ _ Hx) as [H | ->]; [|reflexivity].
      pose proof (@pending_positive k x _ H Hk). lia. }
  destruct (@registry_run_resolves options k id conn ops s0 Hs0 Hh0 Hreg)
    as [Hcount [_ [Hcalls [Hresp Hflush]]]].
  cbv zeta in Hcount, Hcalls, Hresp, Hflush.
  rewrite Hp0, Ht0, Hc in Hcount.
  split; [lia|]. split.
  { intros r H. destruct (Hcalls r H) as [H1|[H1|[err [[H1|H1] Hr]]]].
    - rewrite Ht0 in H1. exfalso. exact (@never_called k r _ Hc H1).
    - left. exact H1.
    - right. exists err. split; [exact H1 | exact Hr].
    - exfalso. apply Hid. rewrite Hk0 in H1.
      apply in_map_iff. exists (id, err). split; [reflexivity | exact H1]. }
  split.
  - intros H. rewrite (Hresp H) in Hcount. lia.
  - intros H Ht. rewrite (Hflush (or_introl H) Ht) in Hcount. lia.
Qed.

Lemma continuation_called_exactly_once_witness :
  let ops := [Register 6 8%nat PoolConnection; Flush (MongoError "gone");
              Respond {| responseTo := 6; documents := [] |}; Tick; Tick] in
  calls 7 (trace (registry_run defaults (Register 5 7%nat PoolConnection :: ops)
                    live_server)) = 1%nat.
Proof.
  intros ops.
  refine (proj2 (proj2 (proj2
            (@continuation_called_exactly_once defaults 7 5 PoolConnection ops live_server
               _ eq_refl eq_refl _ eq_refl))) _ eq_refl).
  - vm_compute. split; constructor.
  - vm_compute. intros [].
  - exists (MongoError "gone"). right. left. reflexivity.
Defined.

(** ** The failure handlers on a live pool *)

Lemma detached_has_no_listener (pl : Pool) : pool_events (detached pl) = [].
Proof.
  unfold detached. cbn [pool_events fold_left].
  induction (pool_events pl) as [|[k ls] ev IH]; [reflexivity|].
  destruct k; cbn [removeAllListeners PoolEvent_eqb]; exact IH.
Qed.

Lemma detached_twice (pl : Pool) : detached (detached pl) = detached pl.
Proof.
  assert (forall p, pool_events p = [] -> pool_connected p = false -> detached p = p) as H.
  { intros [ev c] He Hc. cbn in He, Hc. subst. reflexivity. }
  apply H; [apply detached_has_no_listener | reflexivity].
Qed.

Lemma announce_and_reschedule (options : Options) (e : ServerEvent) (x : Server) :
  (forall err, e <> EvError err) ->
  (emit e ;; (if reconnect options then setTimeout_reconnectServer options else ret tt)) x
  = (Returned tt,
     set_timers (rescheduled options x) (set_trace (trace x ++ [Emit e]) x)).
Proof.
  intros He. unfold rescheduled.
  destruct e; try (exfalso; eapply He; reflexivity);
    destruct (reconnect options); destruct x; unfold bind, emit, setTimeout_reconnectServer;
    unfold bind; unfold_state; rewrite ?app_nil_r; reflexivity.
Qed.

Lemma failed_state_fields (op : Op) (message : string) (pl : Pool) (s : Server) :
  let x := failed_state op message pl s in
  pool x = Some (detached pl)
  /\ trace x = trace s ++ hook_calls op (for_in (readPreferenceStrategies s)) None
                 ++ [PoolDestroy]
  /\ ticks x = flushed message s
  /\ timers x = timers s
  /\ callbacks x = callbacks s
  /\ ismaster x = ismaster s
  /\ error_observed x = error_observed s.
Proof. destruct s; repeat split; reflexivity. Qed.

Lemma failure_is_handled (options : Options) (op : Op) (message : string)
    (e : ServerEvent) (pl : Pool) (s : Server) :
  (forall err, e <> EvError err) ->
  let y := snd ((emit e ;;
                 (if reconnect options then setTimeout_reconnectServer options
                  else ret tt)) (failed_state op message pl s)) in
  pool y = Some (detached pl)
  /\ since s y = hook_calls op (for_in (readPreferenceStrategies s)) None
                   ++ [PoolDestroy; Emit e]
  /\ ticks y = flushed message s
  /\ timers y = rescheduled options s
  /\ callbacks y = callbacks s
  /\ ismaster y = ismaster s.
Proof.
  intros He y. unfold y. rewrite announce_and_reschedule by exact He. cbn [snd].
  split; [destruct s; reflexivity|].
  split; [|destruct s; repeat split; reflexivity].
  apply since_app. destruct s. unfold failed_state. unfold_state.
  rewrite <- !app_assoc. reflexivity.
Qed.

(** X4: on a server with a pool, the close handler and the timeout handler
    each notify the strategies, detach every listener from the pool and
    destroy it, schedule one deferred failure per pending request id with
    a message naming the server, emit their event with the original cause
    and schedule a reconnect exactly when reconnection is enabled.  The
    callback store itself is untouched until the deferred turns run, and
    the cached capability document is kept. *)
Theorem close_and_timeout_are_handled :
  forall (options : Options) (err : Cause) (s : Server) (pl : Pool),
    pool s = Some pl ->
    let c := exec (closeHandler options err) s in
    let t := exec (timeoutHandler options err) s in
    pool_events (detached pl) = []
    /\ pool_connected (detached pl) = false
    /\ (pool c = Some (detached pl)
        /\ since s c = hook_calls op_close (for_in (readPreferenceStrategies s)) None
                         ++ [PoolDestroy; Emit (EvClose (Original err))]
        /\ ticks c = flushed ("server " +++ format_s (name s) +++ " sockets closed") s
        /\ timers c = rescheduled options s
        /\ callbacks c = callbacks s
        /\ ismaster c = ismaster s)
    /\ (pool t = Some (detached pl)
        /\ since s t = hook_calls op_timeout (for_in (readPreferenceStrategies s)) None
                         ++ [PoolDestroy; Emit (EvTimeout (Original err))]
        /\ ticks t = flushed ("server " +++ format_s (name s) +++ " timed out") s
        /\ timers t = rescheduled options s
        /\ callbacks t = callbacks s
        /\ ismaster t = ismaster s).
Proof.
  intros options err s pl H c t.
  split; [apply detached_has_no_listener|]. split; [reflexivity|]. split.
  - unfold c, exec. rewrite (closeHandler_runs options err s H).
    apply failure_is_handled. discriminate.
  - unfold t, exec. rewrite (timeoutHandler_runs options err s H).
    apply failure_is_handled. discriminate.
Qed.

Lemma close_and_timeout_are_handled_witness :
  since live_server (exec (closeHandler defaults reset) live_server)
  = [PoolDestroy; Emit (EvClose (Original reset))].
Proof.
  refine (proj1 (proj2 (proj1 (proj2 (proj2
            (@close_and_timeout_are_handled defaults reset live_server _ eq_refl)))))).
Defined.

(** X5: when no observer listens to the server's ['error'] event, the
    handler of a fatal parse error still destroys the pool and schedules
    the flush, but the emit throws the cause and the handler stops there:
    no reconnect is scheduled, even with reconnection enabled.  The same
    holds for the generic error handler when [emitError] is set. *)
Theorem unobserved_error_blocks_reconnect :
  forall (options : Options) (err : Cause) (s : Server) (pl : Pool),
    pool s = Some pl ->
    error_observed s = false ->
    (exists s',
        fatalErrorHandler options err s = (Threw (Original err), s')
        /\ timers s' = timers s
        /\ pool s' = Some (detached pl)
        /\ ticks s' = flushed ("server " +++ format_s (name s) +++ " received an error "
                                 +++ JSON_stringify err) s)
    /\ (emitError options = true ->
        exists s',
          errorHandler options err s = (Threw (Original err), s')
          /\ timers s' = timers s).
Proof.
  intros options err s pl H Hobs.
  destruct (failed_state_fields op_error
              ("server " +++ format_s (name s) +++ " received an error "
                 +++ JSON_stringify err) pl s)
    as [Hp [_ [Hk [Htm [_ [_ Ho]]]]]].
  set (x := failed_state _ _ _ _) in *.
  assert (emit (EvError (Original err)) x
          = (Threw (Original err), set_trace (trace x ++ [Emit (EvError (Original err))]) x))
    as He.
  { rewrite Hobs in Ho. destruct x; cbn in Ho; subst. reflexivity. }
  split.
  - exists (set_trace (trace x ++ [Emit (EvError (Original err))]) x).
    rewrite (fatalErrorHandler_runs options err s H). fold x.
    rewrite (@bind_threw _ _ _ _ _ _ _ He).
    rewrite <- Htm, <- Hp, <- Hk. destruct x; repeat split; reflexivity.
  - intros E. exists (set_trace (trace x ++ [Emit (EvError (Original err))]) x).
    rewrite (errorHandler_runs options err s H). fold x. rewrite E.
    rewrite (@bind_threw _ _ _ _ _ _ _ He).
    rewrite <- Htm. destruct x; repeat split; reflexivity.
Qed.

Lemma unobserved_error_blocks_reconnect_witness :
  exists s',
    fatalErrorHandler defaults reset (exec connect (new_Server defaults))
    = (Threw (Original reset), s')
    /\ timers s' = [].
Proof.
  destruct (proj1 (@unobserved_error_blocks_reconnect defaults reset
                     (exec connect (new_Server defaults)) _ eq_refl eq_refl))
    as [s' [H1 [H2 _]]].
  exists s'. split; [exact H1 | exact H2].
Defined.

(** ** Generic and fatal error signals *)

Lemma bind_ret_tt (m : JS unit) (s : Server) : (m ;; ret tt) s = m s.
Proof. unfold bind. destruct (m s) as [[[]|e] s']; reflexivity. Qed.

Lemma failure_signal_dispatched (options : Options) (kind : PoolEvent) (c : Cause)
    (f : PoolListener) (s : Server) (pl : Pool) :
  pool s = Some pl ->
  listeners PoolEvent_eqb kind (pool_events pl) = [(false, f)] ->
  step options (pool_signal (Failed kind c)) s
  = call_PoolListener options f (Failed kind c) s.
Proof.
  intros Hp Hl. cbn [step]. unfold pool_emit. rewrite bind_gets, Hp.
  cbn [event_of]. rewrite Hl. cbn [fire_pool fst snd].
  change ((ret tt ;; call_PoolListener options f (Failed kind c) ;; ret tt) s)
    with ((call_PoolListener options f (Failed kind c) ;; ret tt) s).
  apply bind_ret_tt.
Qed.

Lemma error_announced (options : Options) (c : Cause) (emits : bool) (x : Server) :
  ((if emits then emit (EvError (Original c)) else ret tt) ;;
   (if reconnect options then setTimeout_reconnectServer options else ret tt)) x
  = if emits then
      if error_observed x then
        (Returned tt,
         set_timers (rescheduled options x)
           (set_trace (trace x ++ [Emit (EvError (Original c))]) x))
      else (Threw (Original c), set_trace (trace x ++ [Emit (EvError (Original c))]) x)
    else (Returned tt, set_timers (rescheduled options x) x).
Proof.
  unfold rescheduled.
  destruct emits, (reconnect options); destruct x as [? ? ? ? ? ? ? [|] ? ? ? ? ?];
    unfold bind, emit, setTimeout_reconnectServer; unfold bind; unfold_state;
    rewrite ?app_nil_r; reflexivity.
Qed.

Lemma reconnect_attempt_fails (options : Options) (kind : PoolEvent) (c : Cause)
    (z : Server) (d : Z) (rest : list Z) :
  kind <> e_connect -> kind <> e_message ->
  2 <= reconnectTries options ->
  timers z = d :: rest ->
  let attempt := exec (step options timer_fires) z in
  let failed := step options (pool_signal (Failed kind c)) attempt in
  fst failed = Returned tt
  /\ since attempt (snd failed) = [PoolDestroy]
  /\ timers (snd failed) = rest ++ [reconnectInterval options].
Proof.
  intros Hk1 Hk2 Hn Ht attempt failed.
  assert (fst failed = Returned tt
          /\ trace (snd failed) = trace attempt ++ [PoolDestroy]
          /\ timers (snd failed) = rest ++ [reconnectInterval options]) as [H1 [H2 H3]].
  { unfold failed, attempt.
    destruct z as [retry im rps aps p nm cbs obs tms tks cls rid tr].
    cbn in Ht. subst tms.
    destruct kind; try congruence;
      cbv -[Z.sub Z.leb reconnectTries reconnectInterval string_of_Z String.append app
            host port];
      (destruct (Z.leb (reconnectTries options - 1) 0) eqn:E;
       [apply Z.leb_le in E; lia|]);
      cbv -[Z.sub Z.leb reconnectTries reconnectInterval string_of_Z String.append app
            host port];
      repeat split; reflexivity. }
  split; [exact H1|]. split; [|exact H3]. apply since_app. exact H2.
Qed.

(** C10 (amended): on a pool where the generic handler listens to
    ['error'] and the fatal one to ['parseError'] (the pool [connect()]
    sets up), a parse-error signal is handled exactly as an error signal
    is with [emitError] forced on.  It always emits the error event,
    whatever [emitError] says; an error signal emits it exactly when
    [emitError] is set.  Strategy notification, destroy and flush are the
    same for both.  Reconnect scheduling is not: an emit that no observer
    of ['error'] receives throws, and the handler stops before it
    schedules the reconnect; so without an observer a parse error never
    schedules a reconnect, while an error with [emitError] off does when
    reconnection is enabled.  On the pool of a reconnect attempt that has
    not connected yet, a parse-error signal reaches the retry handler
    instead: while retries remain it emits nothing and schedules the next
    attempt. *)
Theorem fatal_parse_error_always_emitted :
  forall (options : Options) (c : Cause),
    (forall (s : Server) (pl : Pool),
        pool s = Some pl ->
        listeners PoolEvent_eqb e_error (pool_events pl) = [(false, fn_errorHandler)] ->
        listeners PoolEvent_eqb e_parseError (pool_events pl)
        = [(false, fn_fatalErrorHandler)] ->
        let error := Emit (EvError (Original c)) in
        let handled :=
          hook_calls op_error (for_in (readPreferenceStrategies s)) None ++ [PoolDestroy] in
        let failure :=
          flushed ("server " +++ format_s (name s) +++ " received an error "
                     +++ JSON_stringify c) s in
        let generic := step options (pool_signal (Failed e_error c)) s in
        let fatal := step options (pool_signal (Failed e_parseError c)) s in
        fatal = step (with_emitError (VBool true) options) (pool_signal (Failed e_error c)) s
        /\ since s (snd fatal) = handled ++ [error]
        /\ since s (snd generic) = handled ++ (if emitError options then [error] else [])
        /\ pool (snd fatal) = Some (detached pl)
        /\ pool (snd generic) = Some (detached pl)
        /\ ticks (snd fatal) = failure
        /\ ticks (snd generic) = failure
        /\ callbacks (snd fatal) = callbacks s
        /\ callbacks (snd generic) = callbacks s
        /\ fst fatal = (if error_observed s then Returned tt else Threw (Original c))
        /\ timers (snd fatal)
           = (if error_observed s then rescheduled options s else timers s)
        /\ fst generic
           = (if emitError options && negb (error_observed s)
              then Threw (Original c) else Returned tt)
        /\ timers (snd generic)
           = (if emitError options && negb (error_observed s)
              then timers s else rescheduled options s))
    /\ (forall (z : Server) (d : Z) (rest : list Z),
          2 <= reconnectTries options ->
          timers z = d :: rest ->
          let attempt := exec (step options timer_fires) z in
          let failed := step options (pool_signal (Failed e_parseError c)) attempt in
          fst failed = Returned tt
          /\ since attempt (snd failed) = [PoolDestroy]
          /\ timers (snd failed) = rest ++ [reconnectInterval options]).
Proof.
  intros options c. split.
  - intros s pl Hp He Hf error handled failure generic fatal.
    assert (fatal = fatalErrorHandler options c s) as Hfatal
        by exact (@failure_signal_dispatched options e_parseError c _ s pl Hp Hf).
    assert (forall o, step o (pool_signal (Failed e_error c)) s = errorHandler o c s)
      as Hgeneric
        by (intros o; exact (@failure_signal_dispatched o e_error c _ s pl Hp He)).
    split; [rewrite Hfatal, Hgeneric; reflexivity|].
    unfold generic. rewrite Hfatal, Hgeneric. clear Hfatal Hgeneric generic fatal.
    rewrite (errorHandler_runs options c s Hp), (fatalErrorHandler_runs options c s Hp).
    destruct (failed_state_fields op_error
                ("server " +++ format_s (name s) +++ " received an error "
                   +++ JSON_stringify c) pl s)
      as [Hxp [Hxt [Hxk [Hxm [Hxc [_ Hxo]]]]]].
    set (x := failed_state _ _ _ _) in *.
    change ((emit (EvError (Original c)) ;;
             (if reconnect options then setTimeout_reconnectServer options else ret tt)) x)
      with (((if true then emit (EvError (Original c)) else ret tt) ;;
             (if reconnect options then setTimeout_reconnectServer options else ret tt)) x).
    rewrite !error_announced. rewrite Hxo.
    assert (rescheduled options x = rescheduled options s) as Hr
        by (unfold rescheduled; rewrite Hxm; reflexivity).
    rewrite Hr. unfold error, handled, failure.
    rewrite <- Hxp, <- Hxk, <- Hxc, <- Hxm.
    assert (forall t, trace x = trace s ++ t -> forall y l,
              trace y = trace x ++ l -> since s y = t ++ l) as Hsince.
    { intros t Ht y l Hy. apply since_app. rewrite Hy, Ht, <- app_assoc. reflexivity. }
    pose proof (Hsince _ Hxt) as Hs. clear Hsince.
    destruct (emitError options), (error_observed s); cbn [fst snd andb negb];
      repeat split; try (apply Hs); try (destruct x; cbn; rewrite ?app_nil_r; reflexivity).
  - intros z d rest Hn Ht.
    apply (@reconnect_attempt_fails options e_parseError c z d rest);
      [discriminate | discriminate | exact Hn | exact Ht].
Qed.

(** C10 (the claim as worded): with the defaults and no observer of
    ['error'], an error signal after [connect()] schedules a reconnect and
    a parse-error signal does not. *)
Lemma parse_error_without_observer_schedules_no_reconnect :
  ~ fatal_differs_only_by_emitting.
Proof.
  intros H.
  specialize (H defaults reset (exec connect (new_Server defaults)) connecting_pool
                eq_refl eq_refl eq_refl).
  destruct H as [_ [_ [_ [_ [_ H]]]]]. vm_compute in H. discriminate H.
Qed.

Lemma fatal_parse_error_always_emitted_witness :
  let s := run defaults
             [call_connect; pool_signal Connected; pool_signal (Message (ismaster_reply 0))]
             (new_Server defaults) in
  let fatal := step defaults (pool_signal (Failed e_parseError reset)) s in
  let generic := step defaults (pool_signal (Failed e_error reset)) s in
  since s (snd fatal) = [PoolDestroy; Emit (EvError (Original reset))]
  /\ fst fatal = Threw (Original reset)
  /\ timers (snd fatal) = []
  /\ since s (snd generic) = [PoolDestroy]
  /\ timers (snd generic) = [1000].
Proof.
  intros s fatal generic.
  destruct (proj1 (fatal_parse_error_always_emitted defaults reset) s
              {| pool_events := pool_events connecting_pool; pool_connected := true |}
              eq_refl eq_refl eq_refl)
    as [_ [H1 [H2 [_ [_ [_ [_ [_ [_ [H3 [H4 [_ H5]]]]]]]]]]]].
  split; [exact H1|]. split; [exact H3|]. split; [exact H4|].
  split; [exact H2 | exact H5].
Defined.

(** ** connect and destroy *)

Lemma pool_after_connect (s : Server) : pool (exec connect s) = Some connecting_pool.
Proof. destruct s as [? ? ? ? [p|] ? ? ? ? ? ? ? ?]; reflexivity. Qed.

Lemma pool_emit_without_listener (options : Options) (sig : Signal) (s : Server)
    (pl : Pool) :
  pool s = Some pl ->
  pool_events pl = [] ->
  sig <> Connected ->
  pool_emit options sig s = (Returned tt, s).
Proof.
  intros Hp He Hs. unfold pool_emit. rewrite bind_gets, Hp, He.
  destruct sig; [contradiction | reflexivity | reflexivity].
Qed.

(** X6: [destroy()] on a server whose [connect()] was never called throws
    a [TypeError] ([pool] is [null]).  On a server with a pool it removes
    every listener and destroys the pool, and nothing else: the pending
    commands stay in the callback store and no failure is scheduled for
    them; a second [destroy()] leaves the pool as the first one did, and
    signals of the destroyed pool (other than [connect]) reach no handler. *)
Theorem destroy_detaches_and_keeps_callbacks :
  forall (options : Options) (s : Server),
    (pool s = None ->
     destroy s = (Threw (TypeError "Cannot read property of null"), s))
    /\ (forall pl, pool s = Some pl ->
          let d := exec destroy s in
          pool d = Some (detached pl)
          /\ pool_events (detached pl) = []
          /\ isConnected d = (Returned false, d)
          /\ since s d = [PoolDestroy]
          /\ callbacks d = callbacks s
          /\ ticks d = ticks s
          /\ timers d = timers s
          /\ pool (exec destroy d) = pool d
          /\ forall sig, sig <> Connected -> pool_emit options sig d = (Returned tt, d)).
Proof.
  intros options s. split.
  - intros H. destruct s; cbn in H; subst. reflexivity.
  - intros pl H d.
    assert (d = set_trace (trace s ++ [PoolDestroy]) (set_pool (Some (detached pl)) s))
      as Hd by (unfold d, exec; rewrite (destroy_detaches s H); reflexivity).
    assert (pool d = Some (detached pl)) as Hp by (rewrite Hd; destruct s; reflexivity).
    split; [exact Hp|]. split; [apply detached_has_no_listener|].
    split; [unfold isConnected; rewrite bind_gets, Hp; reflexivity|].
    split; [apply since_app; rewrite Hd; destruct s; reflexivity|].
    split; [rewrite Hd; destruct s; reflexivity|].
    split; [rewrite Hd; destruct s; reflexivity|].
    split; [rewrite Hd; destruct s; reflexivity|].
    split.
    + unfold exec. rewrite (destroy_detaches d Hp), detached_twice, Hp.
      destruct d; reflexivity.
    + intros sig Hs.
      apply (@pool_emit_without_listener options sig d (detached pl) Hp);
        [apply detached_has_no_listener | exact Hs].
Qed.

Lemma destroy_detaches_and_keeps_callbacks_witness :
  let s := exec (command "db.a" (Cmd_document 1) no_options (K_caller 7)) live_server in
  callbacks (exec destroy s)
  = [(1, [(true, {| l_callback := K_caller 7; l_connection := PoolConnection |})])].
Proof.
  intros s.
  refine (proj1 (proj2 (proj2 (proj2 (proj2
            (proj2 (destroy_detaches_and_keeps_callbacks defaults s) _ eq_refl)))))).
Defined.

(** X7: [connect()] always ends with a fresh pool that carries exactly one
    listener per pool event (the six handlers) and is not connected yet;
    a pool that existed is destroyed first, so listeners never pile up
    over repeated calls.  Pending commands, deferred failures and the
    cached capability document are left as they are. *)
Theorem connect_starts_over :
  forall (s : Server),
    let c := exec connect s in
    pool c = Some connecting_pool
    /\ since s c = (if is_null (pool s) then [] else [PoolDestroy]) ++ [PoolNew; PoolConnect]
    /\ isConnected c = (Returned false, c)
    /\ callbacks c = callbacks s
    /\ ticks c = ticks s
    /\ ismaster c = ismaster s.
Proof.
  intros s c.
  assert (pool c = Some connecting_pool) as Hp by apply pool_after_connect.
  split; [exact Hp|].
  split.
  { apply since_app. unfold c.
    destruct s as [? ? ? ? [p|] ? ? ? ? ? ? ? tr]; cbn [is_null pool trace];
      [transitivity (((tr ++ [PoolDestroy]) ++ [PoolNew]) ++ [PoolConnect])
      |transitivity ((tr ++ [PoolNew]) ++ [PoolConnect])];
      try reflexivity; rewrite <- !app_assoc; reflexivity. }
  split; [unfold isConnected; rewrite bind_gets, Hp; reflexivity|].
  unfold c; destruct s as [? ? ? ? [p|] ? ? ? ? ? ? ? ?]; repeat split; reflexivity.
Qed.

(** ** Reconnecting *)

(** X8: when the pool of a reconnect attempt connects and no
    authentication provider is registered, the server emits ['reconnect']
    at once; the once-listeners of the attempt are replaced by the
    permanent ones and no ['connect'] listener remains.  No ismaster
    command is sent: the capability document, the server name, the
    callback store and the request id counter are what they were. *)
Theorem reconnect_skips_negotiation :
  forall (options : Options) (s : Server),
    authProviders s = [] ->
    let r := exec (pool_emit options Connected) (exec (reconnectServer options) s) in
    pool r = Some reconnected_pool
    /\ since s r = [PoolNew; PoolConnect; Emit EvReconnect]
    /\ isConnected r = (Returned true, r)
    /\ currentReconnectRetry r = reconnectTries options
    /\ ismaster r = ismaster s
    /\ name r = name s
    /\ callbacks r = callbacks s
    /\ nextRequestId r = nextRequestId s.
Proof.
  intros options s H r.
  assert (pool r = Some reconnected_pool) as Hp
      by (unfold r; destruct s; cbn in H; subst; reflexivity).
  split; [exact Hp|].
  split.
  { apply since_app. unfold r. destruct s as [? ? ? ? ? ? ? ? ? ? ? ? tr].
    cbn in H. subst. cbn [trace].
    transitivity (((tr ++ [PoolNew]) ++ [PoolConnect]) ++ [Emit EvReconnect]);
      [reflexivity | rewrite <- !app_assoc; reflexivity]. }
  split; [unfold isConnected; rewrite bind_gets, Hp; reflexivity|].
  unfold r; destruct s; cbn in H; subst; repeat split; reflexivity.
Qed.

Lemma reconnect_skips_negotiation_witness :
  since live_server
    (exec (pool_emit defaults Connected) (exec (reconnectServer defaults) live_server))
  = [PoolNew; PoolConnect; Emit EvReconnect].
Proof.
  refine (proj1 (proj2 (@reconnect_skips_negotiation defaults live_server eq_refl))).
Defined.

(** X9: with one configured retry (or a negative number), the first failed
    attempt of the reconnect loop is the last: the pool is destroyed, one
    error event is emitted (to an observer of ['error']) whose text names
    host, port and the configured number of retries, and no further
    attempt is scheduled. *)
Theorem single_retry_gives_up :
  forall (options : Options) (c : Cause) (s : Server) (d : Z) (rest : list Z),
    reconnectTries options <= 1 ->
    timers s = d :: rest ->
    error_observed s = true ->
    let s' := run options (failed_attempt c) s in
    since s s'
    = [PoolNew; PoolConnect; PoolDestroy;
       Emit (EvError (Text ("failed to connect to " +++ host options +++ ":"
                              +++ string_of_Z (port options) +++ " after "
                              +++ string_of_Z (reconnectTries options) +++ " retries")))]
    /\ timers s' = rest.
Proof.
  intros options c s d rest Hn Ht Ho s'.
  assert (trace s'
          = (((trace s ++ [PoolNew]) ++ [PoolConnect]) ++ [PoolDestroy])
              ++ [Emit (EvError (Text ("failed to connect to " +++ host options +++ ":"
                              +++ string_of_Z (port options) +++ " after "
                              +++ string_of_Z (reconnectTries options) +++ " retries")))]
          /\ timers s' = rest) as [H1 H2].
  { unfold s'. destruct s as [retry im rps aps p nm cbs obs tms tks cls rid tr].
    cbn in Ht, Ho. subst tms obs.
    cbv -[Z.sub Z.leb reconnectTries reconnectInterval string_of_Z String.append app
          host port].
    destruct (Z.leb (reconnectTries options - 1) 0) eqn:E.
    - cbv -[Z.sub Z.leb reconnectTries reconnectInterval string_of_Z String.append app
            host port].
      split; reflexivity.
    - apply Z.leb_gt in E. lia. }
  split; [|exact H2].
  apply since_app. rewrite H1, <- !app_assoc. reflexivity.
Qed.

Lemma single_retry_gives_up_witness :
  let options := {| host := "h"; port := 1; o_reconnect := VUndefined;
                    o_reconnectTries := Some 1; o_reconnectInterval := None;
                    o_emitError := VUndefined; o_readPreferenceStrategies := None;
                    o_authProviders := None |} in
  let s := set_error_observed true (set_timers [1000] (new_Server options)) in
  since s (run options (failed_attempt reset) s)
  = [PoolNew; PoolConnect; PoolDestroy;
     Emit (EvError (Text "failed to connect to h:1 after 1 retries"))].
Proof.
  intros options s.
  refine (proj1 (@single_retry_gives_up options reset s 1000 [] _ eq_refl eq_refl)).
  vm_compute. discriminate.
Defined.

(** ** The continuation of the ismaster command *)

Lemma forEach_observe_all {A} (g : A -> Observation) (l : list A) :
  forall s,
    forEach l (fun a => observe (g a)) s
    = (Returned tt, set_trace (trace s ++ map g l) s).
Proof.
  induction l as [|a l IH]; intros s.
  - cbn [forEach map]. rewrite app_nil_r, set_trace_same. reflexivity.
  - cbn [forEach map].
    assert (observe (g a) s = (Returned tt, set_trace (trace s ++ [g a]) s)) as H
        by reflexivity.
    rewrite (@bind_returned _ _ _ _ _ _ _ H), IH.
    destruct s; unfold_state. rewrite <- app_assoc. reflexivity.
Qed.

(** the reply to the ismaster command reaches [connectHandler]'s
    continuation after the end-of-operation hooks *)
Lemma ismaster_listener_fires (id : Z) (conn : Connection) (err : option JSError)
    (res : option Response) (reply : Reply) (s : Server) :
  listeners Z.eqb id (callbacks s)
  = [(true, {| l_callback := K_ismaster; l_connection := conn |})] ->
  reply_to {| l_callback := K_ismaster; l_connection := conn |} err res = Some reply ->
  callbacks_emit id err res s
  = (ismaster_received reply ;; ret tt)
      (set_trace
         (trace s ++ hook_calls op_endOperation (for_in (readPreferenceStrategies s)) None)
         (ismaster_listener_removed id conn s)).
Proof.
  intros Hl Hr. unfold callbacks_emit. rewrite bind_gets, Hl.
  cbn [fire_callbacks fst snd].
  set (x := ismaster_listener_removed id conn s).
  assert (modify (fun s0 =>
            set_callbacks
              (removeListener Z.eqb CommandListener_eqb id
                 (true, {| l_callback := K_ismaster; l_connection := conn |})
                 (callbacks s0)) s0) s = (Returned tt, x)) as H1 by reflexivity.
  rewrite (@bind_returned _ _ _ _ _ _ _ H1).
  assert (readPreferenceStrategies x = readPreferenceStrategies s /\ trace x = trace s)
    as [Hrx Htx] by (unfold x; destruct s; split; reflexivity).
  rewrite <- Hrx, <- Htx.
  unfold commandListener.
  unfold bind at 1. unfold bind at 1.
  rewrite (notifyStrategies_forget op_endOperation x).
  destruct err as [e|]; [|destruct res as [r|]; [|discriminate Hr]];
    cbn in Hr; injection Hr as <-; reflexivity.
Qed.

Lemma negotiated_without_plugins (conn : Connection) (doc : Document) (z : Server) :
  typeof_number (minWireVersion doc) = true ->
  authProviders z = [] ->
  readPreferenceStrategies z = None ->
  ismaster_received (Success {| result := Some doc; connection := conn |}) z
  = (Returned tt,
     set_trace (trace z ++ [Emit EvConnect])
       (set_name (if truthy (me doc) then me doc else name z)
          (set_ismaster (Some doc) z))).
Proof.
  intros Hv Ha Hr.
  assert (applyAuthentications authentications_applied
            (set_name (if truthy (me doc) then me doc else name z)
               (set_ismaster (Some doc) z))
          = (Returned tt,
             set_trace (trace z ++ [Emit EvConnect])
               (set_name (if truthy (me doc) then me doc else name z)
                  (set_ismaster (Some doc) z)))) as Hauth.
  { destruct z. cbn in Ha, Hr. subst. reflexivity. }
  unfold ismaster_received.
  assert (modify (set_ismaster (result {| result := Some doc; connection := conn |})) z
          = (Returned tt, set_ismaster (Some doc) z)) as H1 by reflexivity.
  rewrite (@bind_returned _ _ _ _ _ _ _ H1), bind_gets.
  replace (ismaster (set_ismaster (Some doc) z)) with (Some doc)
    by (destruct z; reflexivity).
  rewrite Hv. cbn [negb].
  destruct (truthy (me doc)).
  - assert (modify (set_name (me doc)) (set_ismaster (Some doc) z)
            = (Returned tt, set_name (me doc) (set_ismaster (Some doc) z))) as H2
        by reflexivity.
    rewrite (@bind_returned _ _ _ _ _ _ _ H2). exact Hauth.
  - assert (ret tt (set_ismaster (Some doc) z)
            = (Returned tt, set_name (name z) (set_ismaster (Some doc) z))) as H2
        by (destruct z; reflexivity).
    rewrite (@bind_returned _ _ _ _ _ _ _ H2). exact Hauth.
Qed.

(** X10: a reply to the ismaster command whose first document has a
    numeric [minWireVersion], on a server without authentication providers
    and without strategies, makes the server ready at once: it caches the
    document (which [lastIsMaster()] then returns), takes the document's
    [me] as its name when that is truthy and keeps its name otherwise, and
    emits ['connect'] and nothing else. *)
Theorem negotiation_without_plugins_announces_connect :
  forall (s : Server) (id : Z) (conn : Connection) (doc : Document)
         (docs : list Document),
    listeners Z.eqb id (callbacks s)
    = [(true, {| l_callback := K_ismaster; l_connection := conn |})] ->
    typeof_number (minWireVersion doc) = true ->
    authProviders s = [] ->
    readPreferenceStrategies s = None ->
    let s' := exec (messageHandler {| responseTo := id; documents := doc :: docs |}) s in
    since s s' = [Emit EvConnect]
    /\ lastIsMaster s' = (Returned (Some doc), s')
    /\ name s' = (if truthy (me doc) then me doc else name s)
    /\ cells s' = cells s.
Proof.
  intros s id conn doc docs Hl Hv Ha Hr s'.
  assert (s' = set_trace (trace s ++ [Emit EvConnect])
                 (set_name (if truthy (me doc) then me doc else name s)
                    (set_ismaster (Some doc) (ismaster_listener_removed id conn s))))
    as Hs'.
  { unfold s', exec, messageHandler. cbn [responseTo].
    rewrite (@ismaster_listener_fires id conn None
               (Some {| responseTo := id; documents := doc :: docs |})
               (Success {| result := Some doc; connection := conn |}) s Hl eq_refl).
    rewrite Hr. cbn [for_in hook_calls filter map]. rewrite app_nil_r.
    replace (set_trace (trace s) (ismaster_listener_removed id conn s))
      with (ismaster_listener_removed id conn s) by (destruct s; reflexivity).
    set (x := ismaster_listener_removed id conn s).
    assert (authProviders x = []) as Hax by (unfold x; destruct s; exact Ha).
    assert (readPreferenceStrategies x = None) as Hrx by (unfold x; destruct s; exact Hr).
    rewrite (@bind_returned _ _ _ _ _ _ _
               (@negotiated_without_plugins conn doc x Hv Hax Hrx)).
    unfold x. destruct s; reflexivity. }
  rewrite Hs'. split; [apply since_app; destruct s; reflexivity|].
  destruct s; repeat split; reflexivity.
Qed.

Lemma negotiation_without_plugins_announces_connect_witness :
  let s := run defaults [call_connect; pool_signal Connected] (new_Server defaults) in
  since s (exec (messageHandler (ismaster_reply 0)) s) = [Emit EvConnect].
Proof.
  intros s.
  refine (proj1 (@negotiation_without_plugins_announces_connect s 0 PoolConnection
                   {| minWireVersion := VNum 0; me := VStr "localhost:27017" |} []
                   eq_refl eq_refl eq_refl eq_refl)).
Defined.

(** X11: a reply to the ismaster command that holds no document makes the
    continuation throw a [TypeError] after the end-of-operation hooks; the
    cached capability document becomes undefined, nothing is emitted and
    no countdown is started. *)
Theorem empty_ismaster_reply_throws :
  forall (s : Server) (id : Z) (conn : Connection),
    listeners Z.eqb id (callbacks s)
    = [(true, {| l_callback := K_ismaster; l_connection := conn |})] ->
    exists s',
      messageHandler {| responseTo := id; documents := [] |} s
      = (Threw (TypeError "Cannot read property 'minWireVersion' of undefined"), s')
      /\ ismaster s' = None
      /\ since s s' = hook_calls op_endOperation (for_in (readPreferenceStrategies s)) None
      /\ cells s' = cells s
      /\ timers s' = timers s.
Proof.
  intros s id conn Hl.
  exists (set_ismaster None
            (set_trace
               (trace s ++ hook_calls op_endOperation (for_in (readPreferenceStrategies s)) None)
               (ismaster_listener_removed id conn s))).
  split.
  - unfold messageHandler. cbn [responseTo].
    rewrite (@ismaster_listener_fires id conn None
               (Some {| responseTo := id; documents := [] |})
               (Success {| result := None; connection := conn |}) s Hl eq_refl).
    reflexivity.
  - split; [destruct s; reflexivity|].
    split; [apply since_app; destruct s; reflexivity|].
    destruct s; split; reflexivity.
Qed.

Lemma empty_ismaster_reply_throws_witness :
  let s := run defaults [call_connect; pool_signal Connected] (new_Server defaults) in
  exists s',
    messageHandler {| responseTo := 0; documents := [] |} s
    = (Threw (TypeError "Cannot read property 'minWireVersion' of undefined"), s')
    /\ ismaster s' = None.
Proof.
  intros s.
  destruct (@empty_ismaster_reply_throws s 0 PoolConnection eq_refl) as [s' [H1 [H2 _]]].
  exists s'. split; [exact H1 | exact H2].
Defined.

(** X12: when the ismaster command is failed by a deferred flush turn, the
    continuation of [connectHandler] emits ['close'] with that failure
    (after the end-of-operation hooks) and does nothing else: no
    ['connect'], no countdown, no reconnect timer of its own, and the
    cached capability document is unchanged. *)
Theorem failed_ismaster_announces_close :
  forall (options : Options) (s : Server) (id : Z) (conn : Connection)
         (err : JSError) (rest : list (Z * JSError)),
    ticks s = (id, err) :: rest ->
    listeners Z.eqb id (callbacks s)
    = [(true, {| l_callback := K_ismaster; l_connection := conn |})] ->
    let s' := exec (step options next_tick) s in
    since s s'
    = hook_calls op_endOperation (for_in (readPreferenceStrategies s)) None
        ++ [Emit (EvClose err)]
    /\ ticks s' = rest
    /\ timers s' = timers s
    /\ cells s' = cells s
    /\ ismaster s' = ismaster s.
Proof.
  intros options s id conn err rest Ht Hl s'.
  assert (s' = set_trace
                 (trace s ++ hook_calls op_endOperation
                               (for_in (readPreferenceStrategies s)) None
                         ++ [Emit (EvClose err)])
                 (ismaster_listener_removed id conn (set_ticks rest s))) as Hs'.
  { unfold s', exec. rewrite (next_tick_runs options s Ht).
    rewrite (@ismaster_listener_fires id conn (Some err) None (Failure err)
               (set_ticks rest s)); [| destruct s; exact Hl | reflexivity].
    destruct s; unfold ismaster_listener_removed, bind, ismaster_received, emit, bind.
    unfold_state. rewrite <- app_assoc. reflexivity. }
  rewrite Hs'. split; [apply since_app; destruct s; reflexivity|].
  destruct s; repeat split; reflexivity.
Qed.

Lemma failed_ismaster_announces_close_witness :
  let s := run defaults [call_connect; pool_signal Connected;
                         pool_signal (Failed e_close reset)] (new_Server defaults) in
  since s (exec (step defaults next_tick) s)
  = [Emit (EvClose (MongoError "server localhost:27017 sockets closed"))].
Proof.
  intros s.
  refine (proj1 (@failed_ismaster_announces_close defaults s 0 PoolConnection
                   (MongoError "server localhost:27017 sockets closed") []
                   eq_refl eq_refl)).
Defined.

(** ** Waiting for authentication providers and strategies *)

Lemma plugin_done_settles (options : Options) (name : string) (c : nat) (s : Server) :
  nth_error (cells s) c
  = Some {| count := 1; at_zero := AfterAuthentications authentications_applied |} ->
  readPreferenceStrategies s = None ->
  exec (step options (plugin_done name c)) s
  = set_cells
      (update_nth c {| count := 0;
                       at_zero := AfterAuthentications authentications_applied |}
         (cells s))
      (set_trace (trace s ++ [Done name c; Emit EvConnect]) s).
Proof.
  intros Hc Hr. destruct s as [retry im rps aps p nm cbs obs tms tks cls rid tr].
  simpl in Hc, Hr. subst rps.
  unfold exec, step, bind, observe, modify, countdown, bind, gets. simpl.
  rewrite Hc. simpl. rewrite <- app_assoc. reflexivity.
Qed.

Lemma authentication_requested (conn : Connection) (doc : Document) (z : Server) :
  typeof_number (minWireVersion doc) = true ->
  authProviders z <> [] ->
  ismaster_received (Success {| result := Some doc; connection := conn |}) z
  = (Returned tt,
     set_trace
       (trace z ++ map (fun name => Reauthenticate name (length (cells z)))
                     (keys (authProviders z)))
       (set_cells
          (cells z ++ [{| count := Z.of_nat (length (keys (authProviders z)));
                          at_zero := AfterAuthentications authentications_applied |}])
          (set_name (if truthy (me doc) then me doc else name z)
             (set_ismaster (Some doc) z)))).
Proof.
  intros Hv Ha.
  assert (Z.eqb (Z.of_nat (length (keys (authProviders z)))) 0 = false) as E.
  { apply Z.eqb_neq. unfold keys. rewrite length_map.
    destruct (authProviders z); [congruence | simpl; lia]. }
  assert (forall y, authProviders y = authProviders z -> cells y = cells z ->
            applyAuthentications authentications_applied y
            = (Returned tt,
               set_trace
                 (trace y ++ map (fun name => Reauthenticate name (length (cells z)))
                               (keys (authProviders z)))
                 (set_cells
                    (cells y ++ [{| count := Z.of_nat (length (keys (authProviders z)));
                                    at_zero := AfterAuthentications
                                                 authentications_applied |}]) y)))
    as Hauth.
  { intros y Hy Hcy. unfold applyAuthentications. rewrite bind_gets, Hy, E.
    assert (new_cell (Z.of_nat (length (keys (authProviders z))))
              (AfterAuthentications authentications_applied) y
            = (Returned (length (cells z)),
               set_cells
                 (cells y ++ [{| count := Z.of_nat (length (keys (authProviders z)));
                                 at_zero := AfterAuthentications
                                              authentications_applied |}]) y)) as Hn
        by (rewrite <- Hcy; reflexivity).
    rewrite (@bind_returned _ _ _ _ _ _ _ Hn), forEach_observe_all.
    destruct y; reflexivity. }
  unfold ismaster_received.
  assert (modify (set_ismaster (result {| result := Some doc; connection := conn |})) z
          = (Returned tt, set_ismaster (Some doc) z)) as H1 by reflexivity.
  rewrite (@bind_returned _ _ _ _ _ _ _ H1), bind_gets.
  replace (ismaster (set_ismaster (Some doc) z)) with (Some doc)
    by (destruct z; reflexivity).
  rewrite Hv. cbn [negb].
  destruct (truthy (me doc)).
  - assert (modify (set_name (me doc)) (set_ismaster (Some doc) z)
            = (Returned tt, set_name (me doc) (set_ismaster (Some doc) z))) as H2
        by reflexivity.
    rewrite (@bind_returned _ _ _ _ _ _ _ H2).
    rewrite Hauth by (destruct z; reflexivity). destruct z; reflexivity.
  - assert (ret tt (set_ismaster (Some doc) z)
            = (Returned tt, set_name (name z) (set_ismaster (Some doc) z))) as H2
        by (destruct z; reflexivity).
    rewrite (@bind_returned _ _ _ _ _ _ _ H2).
    rewrite Hauth by (destruct z; reflexivity). destruct z; reflexivity.
Qed.

(** X13: with authentication providers registered (and no strategies), a
    good ismaster reply makes the server call [reauthenticate] on every
    provider, in the order in which [Object.keys] lists their names (which
    is not the order of registration: names that are array indices come
    first, in ascending order), and wait: as long as fewer completions
    than providers have come in, nothing is emitted; the completion that
    makes their number equal to the number of providers emits
    ['connect'], in whatever order the providers complete. *)
Theorem connect_waits_for_authentication :
  forall (options : Options) (s : Server) (id : Z) (conn : Connection)
         (doc : Document) (docs : list Document),
    listeners Z.eqb id (callbacks s)
    = [(true, {| l_callback := K_ismaster; l_connection := conn |})] ->
    typeof_number (minWireVersion doc) = true ->
    authProviders s <> [] ->
    readPreferenceStrategies s = None ->
    let c := length (cells s) in
    let asked := exec (messageHandler {| responseTo := id; documents := doc :: docs |}) s in
    let reauthentications :=
      map (fun name => Reauthenticate name c) (keys (authProviders s)) in
    since s asked = reauthentications
    /\ forall names : list string,
         let s' := run options (completions c names) asked in
         ((length names < length (authProviders s))%nat ->
          since s s' = reauthentications ++ map (fun name => Done name c) names)
         /\ (length names = length (authProviders s) ->
             since s s' = reauthentications ++ map (fun name => Done name c) names
                            ++ [Emit EvConnect]).
Proof.
  intros options s id conn doc docs Hl Hv Ha Hr c asked reauthentications.
  set (x := ismaster_listener_removed id conn s).
  assert (authProviders x = authProviders s /\ cells x = cells s /\ trace x = trace s
          /\ readPreferenceStrategies x = None) as [Hax [Hcx [Htx Hrx]]]
      by (unfold x; destruct s; repeat split; try reflexivity; exact Hr).
  assert (asked
          = set_trace (trace s ++ reauthentications)
              (set_cells
                 (cells s ++ [{| count := Z.of_nat (length (keys (authProviders s)));
                                 at_zero := AfterAuthentications
                                              authentications_applied |}])
                 (set_name (if truthy (me doc) then me doc else name s)
                    (set_ismaster (Some doc) (ismaster_listener_removed id conn s)))))
    as Hasked.
  { unfold asked, exec, messageHandler. cbn [responseTo].
    rewrite (@ismaster_listener_fires id conn None
               (Some {| responseTo := id; documents := doc :: docs |})
               (Success {| result := Some doc; connection := conn |}) s Hl eq_refl).
    rewrite Hr. cbn [for_in hook_calls filter map]. rewrite app_nil_r.
    replace (set_trace (trace s) (ismaster_listener_removed id conn s))
      with x by (unfold x; destruct s; reflexivity).
    rewrite (@bind_returned _ _ _ _ _ _ _
               (@authentication_requested conn doc x Hv ltac:(rewrite Hax; exact Ha))).
    cbn [ret snd]. rewrite Hax, Hcx, Htx.
    unfold reauthentications, c, x. destruct s; reflexivity. }
  assert (trace asked = trace s ++ reauthentications
          /\ nth_error (cells asked) c
             = Some {| count := Z.of_nat (length (keys (authProviders s)));
                       at_zero := AfterAuthentications authentications_applied |}
          /\ readPreferenceStrategies asked = None) as [Hta [Hca Hra]].
  { rewrite Hasked. unfold c. clear - Hr. destruct s; cbn in *.
    repeat split; [apply nth_error_new_cell | exact Hr]. }
  assert (length (keys (authProviders s)) = length (authProviders s)) as Hk
      by (unfold keys; apply length_map).
  split; [apply since_app; exact Hta|].
  intros names s'. split.
  - intros Hlt.
    assert (Z.of_nat (length names) < Z.of_nat (length (keys (authProviders s)))) as Hz
        by lia.
    destruct (@completions_count_down options c _ names asked _ Hca Hz) as [Ht _].
    cbv zeta in Ht. apply since_app. unfold s', completions.
    rewrite Ht, Hta, <- app_assoc. reflexivity.
  - intros Heq.
    assert (names <> []) as Hne.
    { intros E. rewrite E in Heq. destruct (authProviders s); [congruence | discriminate]. }
    destruct (exists_last Hne) as [init [final Hlast]].
    assert (Z.of_nat (length init) < Z.of_nat (length (keys (authProviders s)))) as Hz.
    { rewrite Hk, <- Heq, Hlast, length_app. simpl. lia. }
    destruct (@completions_count_down options c _ init asked _ Hca Hz)
      as [Ht1 [Hc1 Hr1]].
    cbv zeta in Ht1, Hc1, Hr1.
    apply since_app. unfold s', completions.
    rewrite Hlast, map_app, run_app. cbn [map]. rewrite run_cons. cbn [run].
    rewrite plugin_done_settles.
    + set (s1 := run options _ asked) in *.
      destruct s1; cbn in *. rewrite Ht1, Hta, map_app. cbn [map].
      rewrite <- !app_assoc. reflexivity.
    + rewrite Hc1.
      replace (Z.of_nat (length (keys (authProviders s))) - Z.of_nat (length init))
        with 1; [reflexivity|].
      rewrite Hk, <- Heq, Hlast, length_app. simpl. lia.
    + rewrite Hr1. exact Hra.
Qed.

Lemma connect_waits_for_authentication_witness :
  let s := run defaults
             [call_addAuthProvider "x509" {| provider := 1 |};
              call_addAuthProvider "10" {| provider := 2 |};
              call_addAuthProvider "9" {| provider := 3 |};
              call_connect; pool_signal Connected] (new_Server defaults) in
  since s (exec (messageHandler (ismaster_reply 0)) s)
  = [Reauthenticate "9" 0; Reauthenticate "10" 0; Reauthenticate "x509" 0].
Proof.
  intros s.
  refine (proj1 (@connect_waits_for_authentication defaults s 0 PoolConnection
                   {| minWireVersion := VNum 0; me := VStr "localhost:27017" |} []
                   eq_refl eq_refl _ eq_refl)).
  vm_compute. discriminate.
Defined.

Lemma obj_value_unique {V} (o : Obj V) (name : string) (a b : V) :
  NoDup (keys o) -> In (name, a) o -> In (name, b) o -> a = b.
Proof.
  unfold keys. induction o as [|[k v] o IH]; intros Hnd Ha Hb; [destruct Ha|].
  inversion Hnd as [|? ? Hk Hnd']; subst.
  assert (forall x, In (k, x) o -> False) as Hno.
  { intros x Hx. apply Hk. apply in_map_iff. exists (k, x). split; [reflexivity | exact Hx]. }
  destruct Ha as [Ha|Ha], Hb as [Hb|Hb].
  - congruence.
  - injection Ha as -> _. exfalso. exact (Hno _ Hb).
  - injection Hb as -> _. exfalso. exact (Hno _ Ha).
  - exact (IH Hnd' Ha Hb).
Qed.

(** X14: the countdown of [notifyStrategies] counts every registered
    strategy but gives a continuation only to those that define the hook.
    So when some registered strategy has no connect hook, ['connect'] is
    never emitted, however many of the other strategies complete (each at
    most once). *)
Theorem strategy_without_hook_blocks_connect :
  forall (options : Options) (s : Server) (o : Obj Strategy)
         (silent : string) (strategy : Strategy) (names : list string),
    readPreferenceStrategies s = Some o ->
    NoDup (keys o) ->
    In (silent, strategy) o ->
    defines strategy op_connect = false ->
    NoDup names ->
    (forall name, In name names ->
       exists strat, In (name, strat) o /\ defines strat op_connect = true) ->
    let c := length (cells s) in
    let settled := exec (call_AuthenticationsCallback authentications_applied) s in
    let s' := run options (completions c names) settled in
    since s s' = hook_calls op_connect o (Some c) ++ map (fun name => Done name c) names
    /\ ~ In (Emit EvConnect) (since s s').
Proof.
  intros options s o silent strategy names Hr Hkeys Hin Hdef Hnames Hhooked c settled s'.
  assert (o <> []) as Ho by (intros E; rewrite E in Hin; destruct Hin).
  assert (~ In silent names) as Hout.
  { intros Hs. destruct (Hhooked silent Hs) as [strat [Hs1 Hs2]].
    rewrite (@obj_value_unique _ o silent strategy strat Hkeys Hin Hs1) in Hdef.
    congruence. }
  assert (incl (silent :: names) (keys o)) as Hincl.
  { intros x [<-|Hx].
    - unfold keys. apply in_map_iff. exists (silent, strategy). split; [reflexivity | exact Hin].
    - exact (hooked_names_registered o names Hhooked x Hx). }
  assert (NoDup (silent :: names)) as Hnd by (constructor; assumption).
  pose proof (NoDup_incl_length Hnd Hincl) as Hlen. cbn [length] in Hlen.
  assert (Z.of_nat (length names) < Z.of_nat (length (keys o))) as Hz by lia.
  assert (trace settled = trace s ++ hook_calls op_connect o (Some c)
          /\ nth_error (cells settled) c
             = Some {| count := Z.of_nat (length (keys o));
                       at_zero := AfterStrategies announce_connect |}) as [Hts Hcs].
  { unfold settled. rewrite (connect_hooks_called s Hr Ho).
    destruct s; simpl. split; [reflexivity | apply nth_error_new_cell]. }
  destruct (@completions_count_down options c _ names settled _ Hcs Hz) as [Ht _].
  cbv zeta in Ht.
  assert (since s s' = hook_calls op_connect o (Some c)
                         ++ map (fun name => Done name c) names) as Hsince.
  { apply since_app. unfold s', completions. rewrite Ht, Hts, <- app_assoc. reflexivity. }
  split; [exact Hsince|].
  rewrite Hsince. intros Hemit. apply in_app_iff in Hemit. destruct Hemit as [He|He].
  - exact (hook_calls_emit_nothing _ _ _ _ He).
  - apply in_map_iff in He. destruct He as [x [Hx _]]. discriminate Hx.
Qed.

Lemma strategy_without_hook_blocks_connect_witness :
  let s := set_readPreferenceStrategies
             (Some [("nearest", {| hooks := [op_connect] |});
                    ("quiet", {| hooks := [op_error] |})])
             (new_Server defaults) in
  ~ In (Emit EvConnect)
      (since s (run defaults (completions 0 ["nearest"])
                  (exec (call_AuthenticationsCallback authentications_applied) s))).
Proof.
  intros s.
  refine (proj2 (@strategy_without_hook_blocks_connect defaults s _ "quiet"
                   {| hooks := [op_error] |} ["nearest"] eq_refl _ _ eq_refl _ _)).
  - apply NoDup_cons; [intros [H|[]]; discriminate H|].
    apply NoDup_cons; [intros []|]. apply NoDup_nil.
  - right. left. reflexivity.
  - apply NoDup_cons; [intros []|]. apply NoDup_nil.
  - intros name [<-|[]]. exists {| hooks := [op_connect] |}.
    split; [left; reflexivity | reflexivity].
Defined.


(** ** Write operations *)

Lemma split_dot_segment (a b : string) :
  dotless a = true -> split_dot (a +++ "." +++ b) = a :: split_dot b.
Proof.
  induction a as [|c a IH]; intros H.
  - reflexivity.
  - cbn [dotless] in H. apply andb_prop in H. destruct H as [Hc Ha].
    change (split_dot (String c a +++ "." +++ b))
      with (if Ascii.eqb c "."%char then EmptyString :: split_dot (a +++ "." +++ b)
            else match split_dot (a +++ "." +++ b) with
                 | [] => [String c EmptyString]
                 | w :: ws => String c w :: ws
                 end).
    destruct (Ascii.eqb c "."%char); [discriminate Hc|].
    rewrite (IH Ha). reflexivity.
Qed.

Lemma split_dot_dotless (a : string) : dotless a = true -> split_dot a = [a].
Proof.
  induction a as [|c a IH]; intros H.
  - reflexivity.
  - cbn [dotless] in H. apply andb_prop in H. destruct H as [Hc Ha].
    cbn [split_dot]. destruct (Ascii.eqb c "."%char); [discriminate Hc|].
    rewrite (IH Ha). reflexivity.
Qed.

(** X15: the write command targets the second dot-separated segment of the
    namespace and nothing more: for [db.coll] it is [coll], for
    [db.coll.rest] it is still [coll] (what follows a second dot is
    dropped), and for a namespace without a dot there is no target at all.
    The database the command goes to is the first segment. *)
Theorem write_targets_second_segment :
  forall (type opsField db coll rest : string) (ops : list nat) (o : WriteOptions),
    dotless db = true ->
    dotless coll = true ->
    wc_target (writeCommand type opsField (db +++ "." +++ coll) ops o) = Some coll
    /\ wc_target (writeCommand type opsField (db +++ "." +++ coll +++ "." +++ rest) ops o)
       = Some coll
    /\ nth 0 (split_dot (db +++ "." +++ coll +++ "." +++ rest)) "" = db
    /\ wc_target (writeCommand type opsField db ops o) = None.
Proof.
  intros type opsField db coll rest ops o Hdb Hcoll.
  unfold writeCommand. cbn [wc_target].
  rewrite !(split_dot_segment db _ Hdb), (split_dot_segment coll rest Hcoll).
  rewrite (split_dot_dotless coll Hcoll), (split_dot_dotless db Hdb).
  repeat split; reflexivity.
Qed.

Lemma write_targets_second_segment_witness :
  wc_target (writeCommand "insert" "documents" "app.users.archive" [1%nat] empty_options)
  = Some "users".
Proof.
  exact (proj1 (proj2 (@write_targets_second_segment "insert" "documents" "app" "users"
                         "archive" [1%nat] empty_options eq_refl eq_refl))).
Defined.

Lemma executeWrite_delegates (type opsField ns : string) (ops : list nat)
    (args : WriteArgs) :
  ops <> [] ->
  executeWrite type opsField ns ops args
  = command (nth 0 (split_dot ns) "" +++ ".$cmd")
      (Cmd_write (writeCommand type opsField ns ops (write_options args)))
      no_options (write_callback args).
Proof.
  intros H. unfold executeWrite. destruct ops; [congruence | reflexivity].
Qed.

(** X16: [insert], [update] and [remove] with at least one operation are
    commands against [<db>.$cmd] with empty command options: on a
    connected server each stores the caller's continuation under a fresh
    request id and writes one frame, on the pool's own connection and
    never flagged slaveOk, whose document names the operation ([insert],
    [update], [delete]), the collection and the operations under
    [documents], [updates], [deletes]. *)
Theorem writes_are_commands_on_the_database :
  forall (db coll : string) (ops : list nat) (args : WriteArgs) (s : Server) (pl : Pool),
    ops <> [] ->
    dotless db = true ->
    dotless coll = true ->
    pool s = Some pl ->
    pool_connected pl = true ->
    let document type opsField :=
      Cmd_write {| wc_type := type; wc_target := Some coll; wc_opsField := opsField;
                   wc_ops := ops;
                   wc_ordered := js_or (ordered (write_options args)) (VBool true);
                   wc_writeConcern :=
                     match writeConcern (write_options args) with
                     | Some w => w
                     | None => []
                     end |} in
    let sent type opsField :=
      (Returned tt,
       sent_state (db +++ ".$cmd") (document type opsField) no_options
         (write_callback args) s) in
    insert (db +++ "." +++ coll) ops args s = sent "insert" "documents"
    /\ update (db +++ "." +++ coll) ops args s = sent "update" "updates"
    /\ remove (db +++ "." +++ coll) ops args s = sent "delete" "deletes"
    /\ since s (snd (sent "delete" "deletes"))
       = hook_calls op_startOperation (for_in (readPreferenceStrategies s)) None
           ++ [Write PoolConnection
                 {| requestId := nextRequestId s; q_ns := db +++ ".$cmd";
                    q_cmd := document "delete" "deletes"; q_slaveOk := false |}].
Proof.
  intros db coll ops args s pl Hops Hdb Hcoll Hp Hc document sent.
  assert (forall type opsField,
            executeWrite type opsField (db +++ "." +++ coll) ops args s
            = sent type opsField) as H.
  { intros type opsField. rewrite (executeWrite_delegates type opsField _ args Hops).
    unfold writeCommand. rewrite (split_dot_segment db coll Hdb).
    rewrite (split_dot_dotless coll Hcoll). cbn [nth nth_error].
    apply (command_sends _ _ no_options _ s Hp Hc). discriminate. }
  split; [apply H|]. split; [apply H|]. split; [apply H|].
  apply since_app. unfold sent. cbn [snd]. destruct s; reflexivity.
Qed.

Lemma writes_are_commands_on_the_database_witness :
  remove "app.users" [3%nat] (Args_callback (K_caller 9)) live_server
  = (Returned tt,
     sent_state "app.$cmd"
       (Cmd_write {| wc_type := "delete"; wc_target := Some "users";
                     wc_opsField := "deletes"; wc_ops := [3%nat];
                     wc_ordered := VBool true; wc_writeConcern := [] |})
       no_options (K_caller 9) live_server).
Proof.
  refine (proj1 (proj2 (proj2
            (@writes_are_commands_on_the_database "app" "users" [3%nat]
               (Args_callback (K_caller 9)) live_server _ _ eq_refl eq_refl eq_refl eq_refl)))).
  discriminate.
Defined.

(** X17: on a server whose pool exists but is not connected, a write
    operation with at least one operation (like a command) calls the
    continuation at once with "no connection available to server" and the
    server's name, and does nothing else: no request id is consumed,
    nothing is stored, nothing is written. *)
Theorem write_without_connection_fails_the_callback :
  forall (ns : string) (ops : list nat) (args : WriteArgs) (k : nat)
         (s : Server) (pl : Pool),
    ops <> [] ->
    write_callback args = K_caller k ->
    pool s = Some pl ->
    pool_connected pl = false ->
    let failed :=
      (Returned tt,
       set_trace
         (trace s ++
          [Callback k (Failure (MongoError ("no connection available to server "
                                              +++ format_s (name s))))]) s) in
    insert ns ops args s = failed
    /\ update ns ops args s = failed
    /\ remove ns ops args s = failed.
Proof.
  intros ns ops args k s pl Hops Hk Hp Hc failed.
  assert (forall type opsField, executeWrite type opsField ns ops args s = failed) as H.
  { intros type opsField. rewrite (executeWrite_delegates type opsField ns args Hops), Hk.
    unfold command. cbn [readPreference no_options].
    rewrite (@bind_returned _ _ _ _ _ _ _ (pool_isConnected_answers s Hp)), Hc.
    reflexivity. }
  repeat split; apply H.
Qed.

Lemma write_without_connection_fails_the_callback_witness :
  insert "app.users" [3%nat] (Args_callback (K_caller 9)) (exec connect (new_Server defaults))
  = (Returned tt,
     set_trace
       [PoolNew; PoolConnect;
        Callback 9 (Failure (MongoError "no connection available to server localhost:27017"))]
       (exec connect (new_Server defaults))).
Proof.
  refine (proj1 (@write_without_connection_fails_the_callback "app.users" [3%nat]
                   (Args_callback (K_caller 9)) 9 (exec connect (new_Server defaults))
                   _ _ eq_refl eq_refl eq_refl)).
  discriminate.
Defined.

(** ** Plugin registration *)

Lemma obj_has_In {V} (name : string) (o : Obj V) :
  obj_has name o = true <-> In name (keys o).
Proof.
  unfold obj_has. rewrite existsb_exists. split.
  - intros [x [Hx E]]. apply String.eqb_eq in E. subst x. exact Hx.
  - intros H. exists name. split; [exact H | apply String.eqb_refl].
Qed.

Lemma obj_has_cons {V} (name k : string) (w : V) (o : Obj V) :
  obj_has name ((k, w) :: o) = String.eqb name k || obj_has name o.
Proof. reflexivity. Qed.

Lemma keys_obj_replace {V} (name : string) (v : V) (o : Obj V) :
  keys (obj_replace name v o) = keys o.
Proof.
  unfold keys. induction o as [|[k w] o IH]; cbn [obj_replace map fst]; [reflexivity|].
  destruct (String.eqb name k); cbn [map fst]; [reflexivity | rewrite IH; reflexivity].
Qed.

Lemma keys_obj_add {V} (name : string) (v : V) (o : Obj V) :
  exists before after,
    keys o = before ++ after /\ keys (obj_add name v o) = before ++ name :: after.
Proof.
  unfold keys. induction o as [|[k w] o [before [after [H1 H2]]]]; cbn [obj_add map fst].
  - exists [], []. split; reflexivity.
  - destruct (enumerated_before name k); cbn [map fst].
    + exists [], (k :: map fst o). split; reflexivity.
    + exists (k :: before), after. cbn [app]. rewrite H1, H2. split; reflexivity.
Qed.

Lemma keys_obj_set {V} (name : string) (v : V) (o : Obj V) :
  if obj_has name o then keys (obj_set name v o) = keys o
  else exists before after,
      keys o = before ++ after /\ keys (obj_set name v o) = before ++ name :: after.
Proof.
  unfold obj_set. destruct (obj_has name o); [apply keys_obj_replace | apply keys_obj_add].
Qed.

Lemma obj_set_binds {V} (name : string) (v : V) (o : Obj V) :
  In (name, v) (obj_set name v o).
Proof.
  unfold obj_set. destruct (obj_has name o) eqn:E.
  - induction o as [|[k w] o IH]; [discriminate E|].
    rewrite obj_has_cons in E. cbn [obj_replace].
    destruct (String.eqb name k) eqn:Ek.
    + apply String.eqb_eq in Ek. subst k. left. reflexivity.
    + right. apply IH. exact E.
  - clear E. induction o as [|[k w] o IH]; cbn [obj_add]; [left; reflexivity|].
    destruct (enumerated_before name k); [left; reflexivity | right; exact IH].
Qed.

Lemma obj_get_set_same {V} (name : string) (v : V) (o : Obj V) :
  obj_get name (obj_set name v o) = Some v.
Proof.
  unfold obj_set. destruct (obj_has name o) eqn:E.
  - induction o as [|[k w] o IH]; [discriminate E|].
    rewrite obj_has_cons in E. cbn [obj_replace].
    destruct (String.eqb name k) eqn:Ek; cbn [obj_get]; rewrite Ek;
      [reflexivity | apply IH; exact E].
  - induction o as [|[k w] o IH]; cbn [obj_add obj_get].
    + rewrite String.eqb_refl. reflexivity.
    + rewrite obj_has_cons in E. apply orb_false_elim in E. destruct E as [Ek E].
      destruct (enumerated_before name k); cbn [obj_get].
      * rewrite String.eqb_refl. reflexivity.
      * rewrite Ek. apply IH. exact E.
Qed.

Lemma obj_get_set_other {V} (name other : string) (v : V) (o : Obj V) :
  other <> name -> obj_get other (obj_set name v o) = obj_get other o.
Proof.
  intros N.
  assert (String.eqb other name = false) as En by (apply String.eqb_neq; exact N).
  unfold obj_set. destruct (obj_has name o).
  - induction o as [|[k w] o IH]; cbn [obj_replace obj_get]; [reflexivity|].
    destruct (String.eqb name k) eqn:E; cbn [obj_get].
    + apply String.eqb_eq in E. subst k. rewrite En. reflexivity.
    + rewrite IH. reflexivity.
  - induction o as [|[k w] o IH]; cbn [obj_add obj_get].
    + rewrite En. reflexivity.
    + destruct (enumerated_before name k); cbn [obj_get].
      * rewrite En. reflexivity.
      * rewrite IH. reflexivity.
Qed.

Lemma NoDup_keys_obj_set {V} (name : string) (v : V) (o : Obj V) :
  NoDup (keys o) -> NoDup (keys (obj_set name v o)).
Proof.
  intros H. pose proof (keys_obj_set name v o) as Hk.
  destruct (obj_has name o) eqn:E; [rewrite Hk; exact H|].
  destruct Hk as [before [after [H1 H2]]]. rewrite H2.
  apply (NoDup_Add (Add_app name before after)). rewrite <- H1. split; [exact H|].
  intros Hin. apply obj_has_In in Hin. congruence.
Qed.

Lemma enumerated_before_asym (a b : string) :
  enumerated_before a b = true -> enumerated_before b a = false.
Proof.
  unfold enumerated_before.
  destruct (array_index a) as [i|], (array_index b) as [j|]; try reflexivity;
    try discriminate.
  intros H. apply Z.ltb_lt in H. apply Z.ltb_ge. lia.
Qed.

Lemma enumerated_before_between (a k b : string) :
  enumerated_before a k = true -> enumerated_before b k = false ->
  enumerated_before b a = false.
Proof.
  unfold enumerated_before.
  destruct (array_index a) as [i|], (array_index k) as [m|], (array_index b) as [j|];
    try reflexivity; try discriminate.
  intros H1 H2. apply Z.ltb_lt in H1. apply Z.ltb_ge in H2. apply Z.ltb_ge. lia.
Qed.

Lemma own_keys_order_obj_set {V} (name : string) (v : V) (o : Obj V) :
  own_keys_order (keys o) -> own_keys_order (keys (obj_set name v o)).
Proof.
  unfold obj_set. destruct (obj_has name o); [rewrite keys_obj_replace; tauto|].
  unfold own_keys_order, keys.
  induction o as [|[k w] o IH]; cbn [obj_add map fst]; intros H.
  - repeat constructor.
  - inversion H as [|? ? Hs Hall]; subst.
    destruct (enumerated_before name k) eqn:E; cbn [map fst].
    + constructor; [exact H|]. constructor.
      * apply enumerated_before_asym. exact E.
      * apply Forall_forall. intros b Hb.
        apply (@enumerated_before_between name k b E).
        exact (proj1 (Forall_forall _ _) Hall b Hb).
    + constructor; [apply IH; exact Hs|].
      destruct (keys_obj_add name v o) as [before [after [H1 H2]]].
      unfold keys in H1, H2. rewrite H2. rewrite H1 in Hall.
      apply Forall_app in Hall. destruct Hall as [Ha Hb].
      apply Forall_app. split; [exact Ha | constructor; [exact E | exact Hb]].
Qed.

(** a new name that is no array index goes last; a new array index goes
    before the names that are none *)
Lemma obj_set_new_name {V} (name : string) (v : V) (o : Obj V) :
  obj_has name o = false -> array_index name = None ->
  keys (obj_set name v o) = keys o ++ [name].
Proof.
  intros E Hn. unfold obj_set. rewrite E. clear E. unfold keys.
  induction o as [|[k w] o IH]; cbn [obj_add map fst app]; [reflexivity|].
  unfold enumerated_before at 1. rewrite Hn. cbn [map fst]. rewrite IH. reflexivity.
Qed.

(** X18: registering a strategy or an authentication provider is
    last-write-wins by name: afterwards the name is bound to the new
    plugin, every other name is bound as before, and names stay distinct
    (a name that was registered keeps its place in the order of
    notification).  After the first strategy is registered the strategy
    table is no longer [null]. *)
Theorem registration_is_last_write_wins :
  forall (s : Server) (name : string) (strategy : Strategy) (p : AuthProvider),
    let s1 := exec (addReadPreferenceStrategy name strategy) s in
    let s2 := exec (addAuthProvider name p) s in
    (readPreferenceStrategies s1 <> None
     /\ obj_get name (for_in (readPreferenceStrategies s1)) = Some strategy
     /\ (forall other, other <> name ->
           obj_get other (for_in (readPreferenceStrategies s1))
           = obj_get other (for_in (readPreferenceStrategies s)))
     /\ (NoDup (keys (for_in (readPreferenceStrategies s))) ->
         NoDup (keys (for_in (readPreferenceStrategies s1))))
     /\ (In name (keys (for_in (readPreferenceStrategies s))) ->
         keys (for_in (readPreferenceStrategies s1))
         = keys (for_in (readPreferenceStrategies s))))
    /\ (obj_get name (authProviders s2) = Some p
        /\ (forall other, other <> name ->
              obj_get other (authProviders s2) = obj_get other (authProviders s))
        /\ (NoDup (keys (authProviders s)) -> NoDup (keys (authProviders s2)))
        /\ (In name (keys (authProviders s)) ->
            keys (authProviders s2) = keys (authProviders s))).
Proof.
  intros s name strategy p s1 s2.
  assert (readPreferenceStrategies s1
          = Some (obj_set name strategy (for_in (readPreferenceStrategies s)))) as H1
      by (unfold s1; destruct s; reflexivity).
  assert (authProviders s2 = obj_set name p (authProviders s)) as H2
      by (unfold s2; destruct s; reflexivity).
  assert (forall V (v : V) (o : Obj V), In name (keys o) ->
            keys (obj_set name v o) = keys o) as Hex.
  { intros V v o Hin. apply obj_has_In in Hin.
    pose proof (keys_obj_set name v o) as Hk. rewrite Hin in Hk. exact Hk. }
  rewrite H1, H2. cbn [for_in]. split; [split; [discriminate|]|].
  - split; [apply obj_get_set_same|].
    split; [intros other N; apply obj_get_set_other; exact N|].
    split; [apply NoDup_keys_obj_set|].
    apply Hex.
  - split; [apply obj_get_set_same|].
    split; [intros other N; apply obj_get_set_other; exact N|].
    split; [apply NoDup_keys_obj_set|].
    apply Hex.
Qed.

(** X19: a strategy registered at any time is notified from the next
    command on: on a connected server, the command that follows the
    registration of a strategy defining the start-of-operation hook calls
    that hook before it writes its frame. *)
Theorem registered_strategy_sees_next_command :
  forall (name ns : string) (strategy : Strategy) (cmd : Command)
         (opts : CommandOptions) (callback : Continuation) (s : Server) (pl : Pool),
    pool s = Some pl ->
    pool_connected pl = true ->
    readPreference opts <> RP_foreign ->
    defines strategy op_startOperation = true ->
    let registered := exec (addReadPreferenceStrategy name strategy) s in
    let sent := exec (command ns cmd opts callback) registered in
    exists before after,
      since registered sent
      = before ++ Hook name op_startOperation None
          :: after ++ [Write (connection_used opts) (query_of ns cmd opts s)].
Proof.
  intros name ns strategy cmd opts callback s pl Hp Hc Hr Hd registered sent.
  assert (pool registered = Some pl) as Hp'
      by (unfold registered; destruct s; exact Hp).
  assert (since registered sent
          = hook_calls op_startOperation
              (obj_set name strategy (for_in (readPreferenceStrategies s))) None
              ++ [Write (connection_used opts) (query_of ns cmd opts s)]) as Hs.
  { apply since_app. unfold sent, exec.
    rewrite (command_sends ns cmd opts callback registered Hp' Hc Hr).
    unfold registered. destruct s; reflexivity. }
  assert (In (Hook name op_startOperation None)
            (hook_calls op_startOperation
               (obj_set name strategy (for_in (readPreferenceStrategies s))) None))
    as Hin.
  { unfold hook_calls. apply in_map_iff. exists (name, strategy).
    split; [reflexivity|]. apply filter_In. split; [|exact Hd].
    apply obj_set_binds. }
  destruct (in_split _ _ Hin) as [before [after Hsplit]].
  exists before, after. rewrite Hs, Hsplit, <- app_assoc. reflexivity.
Qed.

Lemma registered_strategy_sees_next_command_witness :
  let registered :=
    exec (addReadPreferenceStrategy "nearest" {| hooks := [op_startOperation] |})
      live_server in
  exists before after,
    since registered
      (exec (command "db.a" (Cmd_document 1) no_options (K_caller 7)) registered)
    = before ++ Hook "nearest" op_startOperation None
        :: after ++ [Write PoolConnection
                       (query_of "db.a" (Cmd_document 1) no_options live_server)].
Proof.
  intros registered.
  refine (@registered_strategy_sees_next_command "nearest" "db.a"
            {| hooks := [op_startOperation] |} (Cmd_document 1) no_options (K_caller 7)
            live_server _ eq_refl eq_refl _ eq_refl).
  discriminate.
Defined.

(** ** More on failure signals *)

(** X20: with error emission off (the default), the generic error handler
    on a server with a pool never throws and emits nothing: it notifies
    the strategies, destroys the pool, schedules one deferred failure per
    pending request id (the message carries the server's name and the
    JSON rendering of the cause) and schedules a reconnect exactly when
    reconnection is enabled. *)
Theorem generic_error_is_swallowed :
  forall (options : Options) (err : Cause) (s : Server) (pl : Pool),
    pool s = Some pl ->
    emitError options = false ->
    exists s',
      errorHandler options err s = (Returned tt, s')
      /\ pool s' = Some (detached pl)
      /\ since s s' = hook_calls op_error (for_in (readPreferenceStrategies s)) None
                        ++ [PoolDestroy]
      /\ ticks s' = flushed ("server " +++ format_s (name s) +++ " received an error "
                               +++ JSON_stringify err) s
      /\ timers s' = rescheduled options s
      /\ callbacks s' = callbacks s.
Proof.
  intros options err s pl H E.
  exists (set_timers (rescheduled options s)
            (failed_state op_error
               ("server " +++ format_s (name s) +++ " received an error "
                  +++ JSON_stringify err) pl s)).
  split.
  - rewrite (errorHandler_runs options err s H), E. unfold rescheduled.
    destruct (reconnect options); destruct s; unfold bind, setTimeout_reconnectServer;
      unfold_state; rewrite ?app_nil_r; reflexivity.
  - split; [destruct s; reflexivity|].
    split; [apply since_app; destruct s; reflexivity|].
    destruct s; repeat split; reflexivity.
Qed.

Lemma generic_error_is_swallowed_witness :
  exists s',
    errorHandler defaults reset live_server = (Returned tt, s')
    /\ timers s' = [1000].
Proof.
  destruct (@generic_error_is_swallowed defaults reset live_server _ eq_refl eq_refl)
    as [s' [H1 [_ [_ [_ [H2 _]]]]]].
  exists s'. split; [exact H1 | exact H2].
Defined.

(** X21: after [connect()], every signal of the pool runs exactly the
    handler of its kind: close, timeout and error their handlers, a parse
    error the fatal handler, a message the message handler. *)
Theorem signals_reach_their_handlers :
  forall (options : Options) (c : Cause) (r : Response) (s : Server),
    let live := exec connect s in
    pool_emit options (Failed e_close c) live = (closeHandler options c ;; ret tt) live
    /\ pool_emit options (Failed e_timeout c) live
       = (timeoutHandler options c ;; ret tt) live
    /\ pool_emit options (Failed e_error c) live = (errorHandler options c ;; ret tt) live
    /\ pool_emit options (Failed e_parseError c) live
       = (fatalErrorHandler options c ;; ret tt) live
    /\ pool_emit options (Message r) live = (messageHandler r ;; ret tt) live.
Proof.
  intros options c r s live.
  pose proof (pool_after_connect s) as Hp. fold live in Hp.
  unfold pool_emit.
  split; [|split; [|split; [|split]]]; rewrite bind_gets, Hp; reflexivity.
Qed.

(** X22: during a reconnect attempt the same local handler listens, once
    each, to the four failure events of the new pool.  A pool that fails
    with two signals of different kinds (an error, then a close) is
    therefore counted twice: the retry counter goes down by two and two
    reconnects are scheduled for one failed attempt. *)
Theorem two_signals_schedule_two_reconnects :
  forall (options : Options) (c : Cause) (s : Server) (d : Z) (rest : list Z),
    3 <= reconnectTries options ->
    timers s = d :: rest ->
    let s' := run options
                [timer_fires; pool_signal (Failed e_error c);
                 pool_signal (Failed e_close c)] s in
    timers s' = rest ++ [reconnectInterval options; reconnectInterval options]
    /\ currentReconnectRetry s' = reconnectTries options - 2
    /\ since s s' = [PoolNew; PoolConnect; PoolDestroy; PoolDestroy].
Proof.
  intros options c s d rest Hn Ht s'.
  assert (timers s' = (rest ++ [reconnectInterval options]) ++ [reconnectInterval options]
          /\ currentReconnectRetry s' = reconnectTries options - 1 - 1
          /\ trace s' = (((trace s ++ [PoolNew]) ++ [PoolConnect]) ++ [PoolDestroy])
                          ++ [PoolDestroy]) as [H1 [H2 H3]].
  { unfold s'. destruct s as [retry im rps aps p nm cbs obs tms tks cls rid tr].
    cbn in Ht. subst tms.
    cbv -[Z.sub Z.leb reconnectTries reconnectInterval string_of_Z String.append app
          host port].
    destruct (Z.leb (reconnectTries options - 1) 0) eqn:E1;
      [apply Z.leb_le in E1; lia|].
    cbv -[Z.sub Z.leb reconnectTries reconnectInterval string_of_Z String.append app
          host port].
    destruct (Z.leb (reconnectTries options - 1 - 1) 0) eqn:E2;
      [apply Z.leb_le in E2; lia|].
    cbv -[Z.sub Z.leb reconnectTries reconnectInterval string_of_Z String.append app
          host port].
    repeat split; reflexivity. }
  split; [rewrite H1, <- app_assoc; reflexivity|].
  split; [rewrite H2; lia|].
  apply since_app. rewrite H3, <- !app_assoc. reflexivity.
Qed.

Lemma two_signals_schedule_two_reconnects_witness :
  let s := set_timers [1000] (new_Server defaults) in
  timers (run defaults
            [timer_fires; pool_signal (Failed e_error reset);
             pool_signal (Failed e_close reset)] s)
  = [1000; 1000].
Proof.
  intros s.
  refine (proj1 (@two_signals_schedule_two_reconnects defaults reset s 1000 [] _ eq_refl)).
  vm_compute. discriminate.
Defined.

(** X23: the countdown that gates ['connect'] counts completions, not
    strategies: with strategies registered, once the authentications have
    settled nothing is emitted while fewer completions than registered
    strategies have come in, and the completion that makes their number
    equal to the number of registered strategies emits ['connect'],
    whichever strategies the completions come from. *)
Theorem connect_follows_the_count_of_completions :
  forall (options : Options) (s : Server) (o : Obj Strategy),
    readPreferenceStrategies s = Some o ->
    o <> [] ->
    let c := length (cells s) in
    let settled := exec (call_AuthenticationsCallback authentications_applied) s in
    forall names : list string,
      let s' := run options (completions c names) settled in
      ((length names < length o)%nat ->
       since s s' = hook_calls op_connect o (Some c) ++ map (fun name => Done name c) names)
      /\ (length names = length o ->
          since s s' = hook_calls op_connect o (Some c)
                         ++ map (fun name => Done name c) names ++ [Emit EvConnect]).
Proof.
  intros options s o Hr Ho c settled names s'.
  assert (length (keys o) = length o) as Hk by (unfold keys; apply length_map).
  assert (trace settled = trace s ++ hook_calls op_connect o (Some c)
          /\ nth_error (cells settled) c
             = Some {| count := Z.of_nat (length (keys o));
                       at_zero := AfterStrategies announce_connect |}) as [Hts Hcs].
  { unfold settled. rewrite (connect_hooks_called s Hr Ho).
    destruct s; simpl. split; [reflexivity | apply nth_error_new_cell]. }
  split.
  - intros Hlt.
    assert (Z.of_nat (length names) < Z.of_nat (length (keys o))) as Hz by lia.
    destruct (@completions_count_down options c _ names settled _ Hcs Hz) as [Ht _].
    cbv zeta in Ht. apply since_app. unfold s', completions.
    rewrite Ht, Hts, <- app_assoc. reflexivity.
  - intros Heq.
    assert (names <> []) as Hne.
    { intros E. rewrite E in Heq. destruct o; [congruence | discriminate]. }
    destruct (exists_last Hne) as [init [final Hlast]].
    assert (Z.of_nat (length init) < Z.of_nat (length (keys o))) as Hz.
    { rewrite Hk, <- Heq, Hlast, length_app. simpl. lia. }
    destruct (@completions_count_down options c _ init settled _ Hcs Hz)
      as [Ht1 [Hc1 _]].
    cbv zeta in Ht1, Hc1.
    apply since_app. unfold s', completions.
    rewrite Hlast, map_app, run_app. cbn [map]. rewrite run_cons. cbn [run].
    rewrite plugin_done_announces.
    + set (s1 := run options _ settled) in *.
      destruct s1; cbn in *. rewrite Ht1, Hts, map_app. cbn [map].
      rewrite <- !app_assoc. reflexivity.
    + rewrite Hc1.
      replace (Z.of_nat (length (keys o)) - Z.of_nat (length init)) with 1;
        [reflexivity|].
      rewrite Hk, <- Heq, Hlast, length_app. simpl. lia.
Qed.

Lemma connect_follows_the_count_of_completions_witness :
  since two_strategies
    (run defaults (completions 0 ["nearest"; "nearest"])
       (exec (call_AuthenticationsCallback authentications_applied) two_strategies))
  = [Hook "nearest" op_connect (Some 0%nat); Hook "tagged" op_connect (Some 0%nat);
     Done "nearest" 0; Done "nearest" 0; Emit EvConnect].
Proof.
  refine (proj2 (@connect_follows_the_count_of_completions defaults two_strategies _
                   eq_refl _ ["nearest"; "nearest"]) eq_refl).
  discriminate.
Defined.
